(** * ocrFront: the image editing history and the image version wizard

  A shallow embedding of the client-side core of the INE scanner:

  - [ImageEditor]: the undo/redo history of the editor component
    ([history], [historyIndex], [applyRotation], [applyCrop], [undo],
    [redo]) together with the effect that re-initialises the editor when
    the parent hands it a new [imageSrc];
  - [App]: the wizard state (the four image slots, the active step, the
    OCR data) and its handlers;
  - [PreviewPanel]: the classification of the current image;
  - [ImageUploader]: the validation of an offered file;
  - [Api]: the session check of the auth service and the response
    interceptor of the HTTP client;
  - [CropGeometry]: the arithmetic of the crop, in IEEE doubles;
  - [Session]: the wizard driven by events, each handler run to its end,
    and [Interleaved]: the wizard with its asynchronous handlers cut at
    their awaits, the pending parts ending in any order;
  - [Promise]: the OCR handler with its [try], [catch] and [finally].

  Numbers that hold times are integer-valued doubles ([JS.number]), with
  the rounding of their arithmetic above 2^53 and the text [toString] and
  [parseInt] give and take. Strings are sequences of UTF-8 bytes.

  Images are DataURLs, that is JavaScript strings, and [===] on them is
  equality of their contents: they are modelled as [string] compared with
  [String.eqb]. *)

From Stdlib Require Import ZArith QArith Qround Floats Uint63 Lia Bool.
From Stdlib Require Import String Ascii.
From stdpp Require Import gmap strings list.

Local Open Scope string_scope.
Local Open Scope list_scope.

(** ** JavaScript values *)

Module JS.

(** Truthiness of a string: only the empty string is falsy. *)
Definition truthy (s : string) : bool := negb (String.eqb s "").

(** Truthiness of a possibly [undefined] or [null] string. *)
Definition truthy_opt (o : option string) : bool :=
  match o with
  | Some s => truthy s
  | None => false
  end.

(** [s.startsWith(p)]. *)
Definition startsWith (s p : string) : bool := String.prefix p s.

(** [s.includes(p)]. *)
Definition includes (s p : string) : bool :=
  match String.index 0 p s with
  | Some _ => true
  | None => false
  end.

(** The test both components apply to an image:
    [!src || !src.startsWith('data:image')] is false. *)
Definition isDataUrlImage (s : string) : bool :=
  truthy s && startsWith s "data:image".

(** *** White space

    A string is held as its UTF-8 encoding, one [ascii] per byte. The code
    points [String.prototype.trim] and [parseInt] skip are those of
    [WhiteSpace] and [LineTerminator]: TAB, LF, VT, FF, CR, SP, U+00A0,
    U+1680, U+2000 to U+200A, U+2028, U+2029, U+202F, U+205F, U+3000 and
    U+FEFF. *)

(** The ones of a single byte: TAB, LF, VT, FF, CR, SP. *)
Definition isWhiteSpace (c : ascii) : bool :=
  let n := N_of_ascii c in
  ((9 <=? n) && (n <=? 13) || (n =? 32))%N.

(** U+00A0, encoded as C2 A0. *)
Definition isWhiteSpace2 (c1 c2 : ascii) : bool :=
  ((N_of_ascii c1 =? 194) && (N_of_ascii c2 =? 160))%N.

(** U+1680 (E1 9A 80), U+2000 to U+200A (E2 80 80 to E2 80 8A), U+2028,
    U+2029 and U+202F (E2 80 A8, E2 80 A9, E2 80 AF), U+205F (E2 81 9F),
    U+3000 (E3 80 80) and U+FEFF (EF BB BF). *)
Definition isWhiteSpace3 (c1 c2 c3 : ascii) : bool :=
  let n1 := N_of_ascii c1 in
  let n2 := N_of_ascii c2 in
  let n3 := N_of_ascii c3 in
  ((n1 =? 225) && (n2 =? 154) && (n3 =? 128)
   || (n1 =? 226) && (n2 =? 128)
      && ((128 <=? n3) && (n3 <=? 138)
          || (n3 =? 168) || (n3 =? 169) || (n3 =? 175))
   || (n1 =? 226) && (n2 =? 129) && (n3 =? 159)
   || (n1 =? 227) && (n2 =? 128) && (n3 =? 128)
   || (n1 =? 239) && (n2 =? 187) && (n3 =? 191))%N.

(** [s.trimStart()]. *)
Fixpoint trimStart (s : string) : string :=
  match s with
  | String c1 r1 =>
      if isWhiteSpace c1 then trimStart r1
      else
        match r1 with
        | String c2 r2 =>
            if isWhiteSpace2 c1 c2 then trimStart r2
            else
              match r2 with
              | String c3 r3 =>
                  if isWhiteSpace3 c1 c2 c3 then trimStart r3 else s
              | EmptyString => s
              end
        | EmptyString => s
        end
  | EmptyString => s
  end.

(** [s.trimEnd()]: what is left of [s] is dropped as soon as it is white
    space only. *)
Fixpoint trimEnd (s : string) : string :=
  match s with
  | String c r =>
      if String.eqb (trimStart s) "" then "" else String c (trimEnd r)
  | EmptyString => ""
  end.

(** [s.trim()]. *)
Definition trim (s : string) : string := trimEnd (trimStart s).

(** *** Numbers

    A Number is a double. The numbers that reach the session check are
    integers: times in milliseconds, a number of seconds times 1000, and
    what [parseInt] reads. A double is therefore held as the integer it is
    equal to, or as an infinity or NaN; [-0] is not told from [0], which
    prints and compares alike. *)

Inductive number :=
| Finite (value : Z)
| Infinity (negative : bool)
| NaN.

(** 2^53: below it every integer is a double. *)
Definition two53 : Z := 9007199254740992.

(** The double nearest to an integer [a] of at least 2^53, ties to the even
    significand: [a] is cut to its 53 leading bits and rounded. *)
Definition roundMagnitude (a : Z) : Z :=
  let k := (Z.log2 a - 52)%Z in
  let q := (a / 2 ^ k)%Z in
  let r := (a mod 2 ^ k)%Z in
  let half := (2 ^ (k - 1))%Z in
  let q' :=
    if (r <? half)%Z || ((r =? half)%Z && Z.even q) then q else (q + 1)%Z in
  (q' * 2 ^ k)%Z.

(** The Number value of an integer: the nearest double, an infinity from
    2^1024 on. *)
Definition toNumber (z : Z) : number :=
  let a := Z.abs z in
  if (a <? two53)%Z then Finite z
  else
    let m := roundMagnitude a in
    if (2 ^ 1024 <=? m)%Z then Infinity (z <? 0)%Z
    else Finite (if (z <? 0)%Z then (- m)%Z else m).

Definition neg (x : number) : number :=
  match x with
  | Finite a => Finite (- a)
  | Infinity s => Infinity (negb s)
  | NaN => NaN
  end.

(** [x + y]: the exact sum, rounded. *)
Definition add (x y : number) : number :=
  match x, y with
  | Finite a, Finite b => toNumber (a + b)
  | Finite _, Infinity s | Infinity s, Finite _ => Infinity s
  | Infinity s, Infinity t => if Bool.eqb s t then Infinity s else NaN
  | _, _ => NaN
  end.

(** [x - y]. *)
Definition sub (x y : number) : number := add x (neg y).

(** [x * y]: the exact product, rounded. *)
Definition mul (x y : number) : number :=
  match x, y with
  | Finite a, Finite b => toNumber (a * b)
  | Finite a, Infinity s | Infinity s, Finite a =>
      if (a =? 0)%Z then NaN else Infinity (xorb s (a <? 0)%Z)
  | Infinity s, Infinity t => Infinity (xorb s t)
  | _, _ => NaN
  end.

(** [x < y]. *)
Definition lt (x y : number) : bool :=
  match x, y with
  | Finite a, Finite b => (a <? b)%Z
  | Finite _, Infinity s => negb s
  | Infinity s, Finite _ => s
  | Infinity s, Infinity t => s && negb t
  | _, _ => false
  end.

(** *** [parseInt] *)

(** The value of [c] as a digit of the given radix, if it is one. *)
Definition digitValue (radix : N) (c : ascii) : option N :=
  let n := N_of_ascii c in
  let d :=
    if ((48 <=? n) && (n <=? 57))%N then Some (n - 48)%N
    else if ((97 <=? n) && (n <=? 122))%N then Some (n - 87)%N
    else if ((65 <=? n) && (n <=? 90))%N then Some (n - 55)%N
    else None in
  match d with
  | Some v => if (v <? radix)%N then Some v else None
  | None => None
  end.

(** The longest prefix of digits, read left to right; [acc] is [None]
    until a first digit has been read. *)
Fixpoint parseDigits (radix : N) (s : string) (acc : option N) : option N :=
  match s with
  | String c r =>
      match digitValue radix c with
      | Some d => parseDigits radix r (Some (default 0%N acc * radix + d)%N)
      | None => acc
      end
  | EmptyString => acc
  end.

(** The integer [parseInt(s)] reads, with no radix argument: leading white
    space is skipped, a sign is read, a [0x] or [0X] prefix selects radix
    16, and the longest prefix of digits is the integer; [None] without a
    digit. (Past the 20th significant digit an engine may read zeros for
    the digits; the integer read is taken here as written.) *)
Definition parseInteger (s : string) : option Z :=
  let s := trimStart s in
  let '(sign, s) :=
    match s with
    | String "-" r => ((-1)%Z, r)
    | String "+" r => (1%Z, r)
    | _ => (1%Z, s)
    end in
  let '(radix, s) :=
    match s with
    | String "0" (String "x" r) => (16%N, r)
    | String "0" (String "X" r) => (16%N, r)
    | _ => (10%N, s)
    end in
  match parseDigits radix s None with
  | Some n => Some (sign * Z.of_N n)%Z
  | None => None
  end.

(** [parseInt(s)]: the Number value of that integer, NaN without a
    digit. *)
Definition parseInt (s : string) : number :=
  match parseInteger s with
  | Some z => toNumber z
  | None => NaN
  end.

(** *** [Number.prototype.toString] *)

Definition digitChar (d : N) : ascii := ascii_of_N (48 + d).

(** The decimal digits of [n] in front of [acc]; [fuel] bounds the number
    of digits after the first. *)
Fixpoint digitsOf (fuel : nat) (n : N) (acc : string) : string :=
  let acc' := String (digitChar (n mod 10)) acc in
  match fuel with
  | O => acc'
  | S f => if (n <? 10)%N then acc' else digitsOf f (n / 10) acc'
  end.

(** The decimal notation of an integer. *)
Definition integerToString (n : Z) : string :=
  let m := Z.to_N (Z.abs n) in
  let digits := digitsOf (N.to_nat (N.log2 m)) m "" in
  if (n <? 0)%Z then String "-" digits else digits.

(** [x] is the double [a]. *)
Definition isDouble (x : number) (a : Z) : bool :=
  match x with
  | Finite m => (m =? a)%Z
  | _ => false
  end.

(** The decimal with [k] significant digits that [toString] prints for the
    double [a] of [d] digits, if there is one: of the two multiples of
    10^(d-k) around [a], one whose Number value is [a], the nearer if both
    are, the one of even digits if both are as near. *)
Definition candidate (a d k : Z) : option Z :=
  let p := (10 ^ (d - k))%Z in
  let low := (a / p * p)%Z in
  let high := (low + p)%Z in
  let okLow := isDouble (toNumber low) a in
  let okHigh := isDouble (toNumber high) a in
  if okLow && okHigh then
    if (a - low <? high - a)%Z then Some low
    else if (high - a <? a - low)%Z then Some high
    else if Z.even (a / p) then Some low else Some high
  else if okLow then Some low
  else if okHigh then Some high
  else None.

(** The least number of digits is tried first. *)
Fixpoint shortestFrom (fuel : nat) (a d k : Z) : Z :=
  match fuel with
  | O => a
  | S f =>
      match candidate a d k with
      | Some v => v
      | None => shortestFrom f a d (k + 1)%Z
      end
  end.

(** The decimal [toString] prints for the double [a >= 0]: the one of
    fewest significant digits whose Number value is [a]. *)
Definition shortest (a : Z) : Z :=
  let d := Z.of_nat (String.length (integerToString a)) in
  shortestFrom (Z.to_nat d) a d 1.

(** [v] without its trailing zeros. *)
Fixpoint significand (fuel : nat) (v : Z) : Z :=
  match fuel with
  | O => v
  | S f =>
      if (v =? 0)%Z || negb (v mod 10 =? 0)%Z then v
      else significand f (v / 10)%Z
  end.

(** The notation with an exponent, used from 1e21 on: [d.ddde+n]. *)
Definition exponential (v : Z) : string :=
  let digits := integerToString v in
  let n := String.length digits in
  let exponent :=
    String.append "e+" (integerToString (Z.of_nat n - 1)) in
  match integerToString (significand n v) with
  | String c EmptyString => String c exponent
  | String c rest => String c (String "." (String.append rest exponent))
  | EmptyString => exponent
  end.

(** [x.toString()]. *)
Definition numberToString (x : number) : string :=
  match x with
  | NaN => "NaN"
  | Infinity false => "Infinity"
  | Infinity true => "-Infinity"
  | Finite z =>
      let v := shortest (Z.abs z) in
      let text :=
        if (v <? 10 ^ 21)%Z then integerToString v else exponential v in
      if (z <? 0)%Z then String "-" text else text
  end.

End JS.

(** ** Notifications

  [toast.success], [toast.error], [toast.info] and [toast.warning] of the
  wizard, and [alert] of the uploader, are recorded in the order they are
  raised. *)

Inductive Severity := Success | Error | Info | Warning.

Record Toast := { severity : Severity; message : string }.

Definition is_error (t : Toast) : bool :=
  match severity t with
  | Error => true
  | _ => false
  end.

(** ** The editor component *)

Module ImageEditor.

(** [history] is the list of DataURLs kept by the editor and
    [historyIndex] the position of the displayed one. *)
Record State := {
  history : list string;
  historyIndex : nat
}.

(** What a handler does besides updating the editor: the callbacks of the
    parent it calls. The argument of [onImageChange] may be read from the
    array, so it is [undefined] when the index is out of range. *)
Inductive ParentCall :=
| onImageChange (imageData : option string)
| onResetToOriginal.

Definition Notified := list ParentCall.

(** The image shown by the editor, [history[historyIndex]]. *)
Definition current (s : State) : option string :=
  history s !! historyIndex s.

(** [useState([imageSrc])], [useState(0)]. *)
Definition reset (seed : string) : State :=
  {| history := [seed]; historyIndex := 0 |}.

(** The update both [applyRotation] and [applyCrop] make once the canvas
    has produced [next]:
    [newHistory = history.slice(0, historyIndex + 1); newHistory.push(next);
     setHistory(newHistory); setHistoryIndex(newHistory.length - 1)]. *)
Definition commit (next : string) (s : State) : State :=
  let newHistory := take (historyIndex s + 1) (history s) ++ [next] in
  {| history := newHistory;
     historyIndex := (length newHistory - 1)%nat |}.

(** What the drawing surface yields for a rotation or a crop. *)
Inductive Render :=
| RefsMissing            (* [imgRef.current] or the canvas ref is null *)
| Throws                 (* no 2D context, or another exception: caught *)
| Encoded (url : string) (* [canvas.toDataURL('image/jpeg', 0.9)] *).

Definition applyRotation (r : Render) (s : State) : State * Notified :=
  match r with
  | RefsMissing => (s, [])
  | Throws => (s, [])
  | Encoded newImageData =>
      (commit newImageData s, [onImageChange (Some newImageData)])
  end.

(** [applyCrop] also returns at once when no crop is selected. *)
Definition applyCrop (cropSelected : bool) (r : Render) (s : State)
  : State * Notified :=
  if negb cropSelected then (s, [])
  else
    match r with
    | RefsMissing => (s, [])
    | Throws => (s, [])
    | Encoded croppedImageData =>
        (commit croppedImageData s, [onImageChange (Some croppedImageData)])
    end.

Definition canUndo (s : State) : bool := (0 <? historyIndex s)%nat.

Definition canRedo (s : State) : bool :=
  (historyIndex s <? length (history s) - 1)%nat.

Definition undo (s : State) : State * Notified :=
  if canUndo s then
    let newIndex := (historyIndex s - 1)%nat in
    let previousImage := history s !! newIndex in
    ({| history := history s; historyIndex := newIndex |},
     [onImageChange previousImage])
  else (s, []).

Definition redo (s : State) : State * Notified :=
  if canRedo s then
    let newIndex := (historyIndex s + 1)%nat in
    let nextImage := history s !! newIndex in
    ({| history := history s; historyIndex := newIndex |},
     [onImageChange nextImage])
  else (s, []).

(** [confirmResetAll], for the [imageSrc] prop of the current render: the
    history restarts from that image and the parent is asked to go back to
    the original. *)
Definition confirmResetAll (imageSrc : string) (s : State) : State * Notified :=
  (reset imageSrc, [onResetToOriginal]).

(** The body of [useEffect(..., [imageSrc])]: an invalid image only sets
    the error flags, a valid one restarts the history. *)
Definition reinitialize (imageSrc : string) (s : State) : State :=
  if JS.isDataUrlImage imageSrc then reset imageSrc else s.

(** The cursor points into the history. *)
Definition wf (s : State) : Prop :=
  (historyIndex s < length (history s))%nat.

End ImageEditor.


(** ** Files and the HTTP client *)

(** A [File]: its name, MIME type, size in bytes and content. *)
Record File := {
  file_name : string;
  file_type : string;
  file_size : Z;
  file_content : string
}.

(** A settled promise. *)
Inductive Settled (A E : Type) :=
| Resolved (value : A)
| Rejected (reason : E).

Arguments Resolved {A E} value.
Arguments Rejected {A E} reason.

Module Api.

(** What a handler sees of an error it catches. *)
Record JsError := {
  err_name : string;
  err_message : string
}.

(** An error raised by the HTTP client before the response interceptor:
    [error.code], [error.name], [error.message], [error.response?.status]. *)
Record AxiosError := {
  ax_code : option string;
  ax_name : string;
  ax_message : string;
  ax_status : option Z
}.

(** The ambient browser state the service layer reads and writes. *)
Record Browser := {
  localStorage : gmap string string;
  pathname : string;
  sent : list (string * File)   (* the requests sent, most recent first *)
}.

Definition removeItem (k : string) (b : Browser) : Browser :=
  {| localStorage := delete k (localStorage b); pathname := pathname b;
     sent := sent b |}.

Definition setItem (k v : string) (b : Browser) : Browser :=
  {| localStorage := <[k := v]> (localStorage b); pathname := pathname b;
     sent := sent b |}.

Definition getItem (k : string) (b : Browser) : option string :=
  localStorage b !! k.

(** [window.location.href = path]. *)
Definition navigate (path : string) (b : Browser) : Browser :=
  {| localStorage := localStorage b; pathname := path; sent := sent b |}.

Definition timeoutMessage : string :=
  "⏰ Timeout excedido (30s). Esto puede deberse a:
1. 🖼️ La imagen no tiene buena calidad (intenta subir una más nítida)
2. 🌐 Conexión lenta o inestable (verifica tu internet)
3. 🔧 El servidor está ocupado (intenta nuevamente en unos momentos)

✅ Recomendaciones:
• Usa imágenes bien iluminadas y sin reflejos
• Asegúrate de que todo el texto sea legible
• Verifica tu conexión a internet
• Intenta con una imagen de menor resolución".

Definition timeoutError : JsError :=
  {| err_name := "TimeoutError"; err_message := timeoutMessage |}.

Definition authError : JsError :=
  {| err_name := "AuthError";
     err_message := "🔐 Tu sesión ha expirado. Por favor, inicia sesión nuevamente." |}.

(** [error.code === 'ECONNABORTED' || error.message.includes('timeout')]. *)
Definition isTimeout (e : AxiosError) : bool :=
  match ax_code e with
  | Some c => String.eqb c "ECONNABORTED"
  | None => false
  end || JS.includes (ax_message e) "timeout".

(** [error.response?.status === 401]. *)
Definition isUnauthorized (e : AxiosError) : bool :=
  match ax_status e with
  | Some st => (st =? 401)%Z
  | None => false
  end.

(** The rejection handler of [api.interceptors.response]: the error the
    caller catches, and what it does to the browser. *)
Definition responseInterceptor (e : AxiosError) (b : Browser)
  : JsError * Browser :=
  if isTimeout e then (timeoutError, b)
  else if isUnauthorized e then
    let b1 := removeItem "user_data"
                (removeItem "laravel_token" (removeItem "jwt_token" b)) in
    let b2 := if negb (String.eqb (pathname b1) "/login")
              then navigate "/login" b1 else b1 in
    (authError, b2)
  else ({| err_name := ax_name e; err_message := ax_message e |}, b).

(** A request through the client: the server's answer, passed through the
    response interceptor. *)
Definition Server := string -> File -> Settled string AxiosError.

Definition send (url : string) (file : File) (b : Browser) : Browser :=
  {| localStorage := localStorage b; pathname := pathname b;
     sent := (url, file) :: sent b |}.

Definition post (server : Server) (url : string) (file : File) (b : Browser)
  : Settled string JsError * Browser :=
  let b := send url file b in
  match server url file with
  | Resolved data => (Resolved data, b)
  | Rejected e =>
      let '(e', b') := responseInterceptor e b in (Rejected e', b')
  end.

(** [ocrService.processAnverso], [processReverso] and [enhanceImage]. *)
Definition processAnverso (server : Server) := post server "/ocr".
Definition processReverso (server : Server) := post server "/ocrreverso".
Definition enhanceImage (server : Server) := post server "/enhance".

(** [authService.isSessionActive], when [Date.now()] is [now]
    milliseconds. *)
Definition isSessionActive (b : Browser) (now : Z) : bool :=
  let token := getItem "jwt_token" b in
  let expiry := getItem "token_expiry" b in
  if negb (JS.truthy_opt token) || negb (JS.truthy_opt expiry) then false
  else
    match expiry with
    | Some expiry =>
        let expiryTime := JS.parseInt expiry in
        let currentTime := JS.toNumber now in
        JS.lt currentTime (JS.sub expiryTime (JS.toNumber 60000))
    | None => false
    end.

(** What [authService.login] stores on a successful answer received when
    [Date.now()] is [now], for an answer whose [expires_in] is the integer
    [expires_in]:
    [(Date.now() + (expires_in * 1000)).toString()]. *)
Definition storeLogin (token token_laravel user : string) (expires_in now : Z)
  (b : Browser) : Browser :=
  setItem "token_expiry"
    (JS.numberToString
       (JS.add (JS.toNumber now)
          (JS.mul (JS.toNumber expires_in) (JS.toNumber 1000))))
    (setItem "user_data" user
       (setItem "laravel_token" token_laravel
          (setItem "jwt_token" token b))).

(** [authService.logout]. *)
Definition logout (b : Browser) : Browser :=
  removeItem "token_expiry"
    (removeItem "user_data"
       (removeItem "laravel_token" (removeItem "jwt_token" b))).

End Api.

(** ** The wizard *)

Module App.

(** The state of the [App] component that the handlers below read and
    write. [ocrData] holds the body of the OCR answer as received;
    [None] is [null]. An absent image is the empty string. *)
Record State := {
  activeStep : Z;
  imageSrc : string;
  originalImage : string;
  editedImage : string;
  enhancedImage : string;
  ocrData : option string;
  isReverso : bool;
  loading : bool;
  enhancing : bool;
  isImageLoading : bool
}.

(** [useState] initial values. *)
Definition initial : State :=
  {| activeStep := 0; imageSrc := ""; originalImage := ""; editedImage := "";
     enhancedImage := ""; ocrData := None; isReverso := false;
     loading := false; enhancing := false; isImageLoading := false |}.

Definition toast (sev : Severity) (msg : string) : Toast :=
  {| severity := sev; message := msg |}.

(** The assignments made to all four slots when a source image is adopted
    ([reader.onload] of [handleImageSelect], and [handleCameraCapture]). *)
Definition adopt (src : string) (st : State) : State :=
  {| activeStep := 1; imageSrc := src; originalImage := src;
     editedImage := src; enhancedImage := ""; ocrData := ocrData st;
     isReverso := isReverso st; loading := loading st;
     enhancing := enhancing st; isImageLoading := false |}.

Definition setIsImageLoading (v : bool) (st : State) : State :=
  {| activeStep := activeStep st; imageSrc := imageSrc st;
     originalImage := originalImage st; editedImage := editedImage st;
     enhancedImage := enhancedImage st; ocrData := ocrData st;
     isReverso := isReverso st; loading := loading st;
     enhancing := enhancing st; isImageLoading := v |}.

Definition setLoading (v : bool) (st : State) : State :=
  {| activeStep := activeStep st; imageSrc := imageSrc st;
     originalImage := originalImage st; editedImage := editedImage st;
     enhancedImage := enhancedImage st; ocrData := ocrData st;
     isReverso := isReverso st; loading := v;
     enhancing := enhancing st; isImageLoading := isImageLoading st |}.

Definition setEnhancing (v : bool) (st : State) : State :=
  {| activeStep := activeStep st; imageSrc := imageSrc st;
     originalImage := originalImage st; editedImage := editedImage st;
     enhancedImage := enhancedImage st; ocrData := ocrData st;
     isReverso := isReverso st; loading := loading st;
     enhancing := v; isImageLoading := isImageLoading st |}.

Definition setActiveStep (v : Z) (st : State) : State :=
  {| activeStep := v; imageSrc := imageSrc st;
     originalImage := originalImage st; editedImage := editedImage st;
     enhancedImage := enhancedImage st; ocrData := ocrData st;
     isReverso := isReverso st; loading := loading st;
     enhancing := enhancing st; isImageLoading := isImageLoading st |}.

Definition setImageSrc (v : string) (st : State) : State :=
  {| activeStep := activeStep st; imageSrc := v;
     originalImage := originalImage st; editedImage := editedImage st;
     enhancedImage := enhancedImage st; ocrData := ocrData st;
     isReverso := isReverso st; loading := loading st;
     enhancing := enhancing st; isImageLoading := isImageLoading st |}.

Definition setEditedImage (v : string) (st : State) : State :=
  {| activeStep := activeStep st; imageSrc := imageSrc st;
     originalImage := originalImage st; editedImage := v;
     enhancedImage := enhancedImage st; ocrData := ocrData st;
     isReverso := isReverso st; loading := loading st;
     enhancing := enhancing st; isImageLoading := isImageLoading st |}.

Definition setEnhancedImage (v : string) (st : State) : State :=
  {| activeStep := activeStep st; imageSrc := imageSrc st;
     originalImage := originalImage st; editedImage := editedImage st;
     enhancedImage := v; ocrData := ocrData st;
     isReverso := isReverso st; loading := loading st;
     enhancing := enhancing st; isImageLoading := isImageLoading st |}.

Definition setOcrData (v : option string) (st : State) : State :=
  {| activeStep := activeStep st; imageSrc := imageSrc st;
     originalImage := originalImage st; editedImage := editedImage st;
     enhancedImage := enhancedImage st; ocrData := v;
     isReverso := isReverso st; loading := loading st;
     enhancing := enhancing st; isImageLoading := isImageLoading st |}.

(** How a [FileReader] ends. *)
Inductive ReadOutcome :=
| Loaded (result : string)
| ReadError
| Aborted.

(** [handleImageSelect(file)], with the way the read of [file] ends. *)
Definition handleImageSelect (file : File) (read : ReadOutcome) (st : State)
  : State * list Toast :=
  if negb (JS.startsWith (file_type file) "image/") then
    (st, [toast Error "❌ El archivo no es una imagen válida"])
  else
    let st := setIsImageLoading true st in
    match read with
    | Loaded result =>
        if negb (JS.isDataUrlImage result) then
          (setIsImageLoading false st,
           [toast Error "❌ Error: La imagen no se convirtió correctamente"])
        else (adopt result st, [toast Success "✅ Imagen cargada correctamente"])
    | ReadError =>
        (setIsImageLoading false st, [toast Error "❌ Error al cargar la imagen"])
    | Aborted =>
        (setIsImageLoading false st,
         [toast Warning "⚠️ Lectura de imagen cancelada"])
    end.

Definition handleCameraCapture (capturedImageSrc : option string) (st : State)
  : State * list Toast :=
  match capturedImageSrc with
  | Some src =>
      if JS.isDataUrlImage src
      then (adopt src st, [toast Success "📸 Foto capturada correctamente"])
      else (st, [toast Error "❌ La foto capturada no es válida"])
  | None => (st, [toast Error "❌ La foto capturada no es válida"])
  end.

(** [handleImageEdit(editedImageSrc)], the [onImageChange] of the editor.
    It raises no toast. *)
Definition handleImageEdit (editedImageSrc : option string) (st : State)
  : State :=
  match editedImageSrc with
  | Some src =>
      if JS.isDataUrlImage src
      then setEditedImage src (setImageSrc src st)
      else st
  | None => st
  end.

Inductive ImageType := original | edited | enhanced.

Definition handleSelectImage (imageType : ImageType) (st : State)
  : State * list Toast :=
  let '(selectedImage, toasts) :=
    match imageType with
    | original => (originalImage st, [toast Info "🔄 Usando imagen original"])
    | edited => (editedImage st, [toast Info "✂️ Usando imagen editada"])
    | enhanced =>
        if JS.truthy (enhancedImage st)
        then (enhancedImage st, [toast Info "✨ Usando imagen mejorada por IA"])
        else ("", [])
    end in
  if JS.truthy selectedImage
  then (setImageSrc selectedImage st, toasts)
  else (st, toasts).

(** [fetch(imageSrc)] followed by [response.blob()]: the bytes of the
    image, or the exception thrown. *)
Definition Fetch := string -> Settled string Api.JsError.

(** [FileReader.readAsDataURL] of the answer of the server: the DataURL
    handed to [onload], [None] when [e.target?.result] is undefined. *)
Definition Reader := string -> option string.

(** The file [handleEnhanceImage] builds from the bytes of the current
    image. *)
Definition enhanceFile (blob : string) : File :=
  {| file_name := "image.jpg"; file_type := "image/jpeg";
     file_size := Z.of_nat (String.length blob); file_content := blob |}.

Definition handleEnhanceImage (fetch : Fetch) (server : Api.Server)
  (readAsDataURL : Reader) (st : State) (b : Api.Browser)
  : State * list Toast * Api.Browser :=
  if negb (JS.truthy (imageSrc st)) then
    (st, [toast Error "❌ No hay imagen para mejorar"], b)
  else
    let st := setEnhancing true st in
    match fetch (imageSrc st) with
    | Rejected _ =>
        (setEnhancing false st,
         [toast Error "❌ Error al mejorar la imagen"], b)
    | Resolved blob =>
        match Api.enhanceImage server (enhanceFile blob) b with
        | (Rejected _, b') =>
            (setEnhancing false st,
             [toast Error "❌ Error al mejorar la imagen"], b')
        | (Resolved data, b') =>
            let st := setEnhancing false st in
            match readAsDataURL data with
            | Some enhancedUrl =>
                if JS.isDataUrlImage enhancedUrl then
                  (setEnhancedImage enhancedUrl st,
                   [toast Success "✨ Imagen mejorada con éxito"], b')
                else
                  (st, [toast Error "❌ La imagen mejorada no es válida"], b')
            | None =>
                (st, [toast Error "❌ La imagen mejorada no es válida"], b')
            end
        end
    end.

Definition handleResetToOriginal (st : State) : State * list Toast :=
  if JS.truthy (originalImage st) then
    (setEnhancedImage ""
       (setEditedImage (originalImage st)
          (setImageSrc (originalImage st) st)),
     [toast Success "🔄 Imagen restablecida a la versión original"])
  else (st, [toast Error "❌ No hay imagen original disponible"]).

Definition handleBack (st : State) : State :=
  setActiveStep (activeStep st - 1) st.

Definition handleReset (st : State) : State * list Toast :=
  ({| activeStep := 0; imageSrc := ""; originalImage := ""; editedImage := "";
      enhancedImage := ""; ocrData := None; isReverso := isReverso st;
      loading := loading st; enhancing := enhancing st;
      isImageLoading := false |},
   [toast Info "🔄 Aplicación reiniciada"]).

(** The toast of the [catch] block of [handleProcessOCR]:
    [error.name === 'TimeoutError'] shows the message of the interceptor,
    any other error is prefixed, with a default for an empty message. *)
Definition ocrErrorToast (e : Api.JsError) : Toast :=
  if String.eqb (Api.err_name e) "TimeoutError"
  then toast Error (String.append "❌ " (Api.err_message e))
  else toast Error
         (String.append "❌ Error en OCR: "
            (if JS.truthy (Api.err_message e) then Api.err_message e
             else "Error desconocido")).

(** The file [handleProcessOCR] builds from the bytes of the current image,
    and the route the side mode selects. *)
Definition ocrFile (blob : string) : File :=
  {| file_name := "ine.jpg"; file_type := "image/jpeg";
     file_size := Z.of_nat (String.length blob); file_content := blob |}.

Definition ocrRoute (st : State) : string :=
  if isReverso st then "/ocrreverso" else "/ocr".

Definition handleProcessOCR (fetch : Fetch) (server : Api.Server)
  (st : State) (b : Api.Browser) : State * list Toast * Api.Browser :=
  if negb (JS.truthy (imageSrc st)) then
    (st, [toast Error "❌ No hay imagen para procesar"], b)
  else
    let st := setLoading true st in
    match fetch (imageSrc st) with
    | Rejected e => (setLoading false st, [ocrErrorToast e], b)
    | Resolved blob =>
        let file := ocrFile blob in
        let endpoint :=
          if isReverso st then Api.processReverso server
          else Api.processAnverso server in
        match endpoint file b with
        | (Resolved data, b') =>
            (setLoading false (setActiveStep 3 (setOcrData (Some data) st)),
             [toast Success "✅ OCR procesado correctamente"], b')
        | (Rejected e, b') => (setLoading false st, [ocrErrorToast e], b')
        end
    end.

(** [handleNext]: both tests read the [activeStep] of the render in which
    the handler was created. *)
Definition handleNext (fetch : Fetch) (server : Api.Server)
  (st : State) (b : Api.Browser) : State * list Toast * Api.Browser :=
  if (activeStep st =? 1)%Z then
    if JS.isDataUrlImage (imageSrc st)
    then (setActiveStep 2 st, [toast Info "👁️ Avanzando a previsualización"], b)
    else (st, [toast Error "❌ No hay una imagen válida para continuar"], b)
  else if (activeStep st =? 2)%Z then handleProcessOCR fetch server st b
  else (st, [], b).

(** The entries of the side drawer: step 0 is always reachable, step [k]
    only from a step at or after it. *)
Definition drawerGoTo (k : Z) (st : State) : State :=
  if (k =? 0)%Z then setActiveStep 0 st
  else if (k - 1 <? activeStep st)%Z then setActiveStep k st
  else st.

End App.

(** ** The preview panel *)

Module PreviewPanel.

(** The props the classification reads. [enhancedImage] is optional. *)
Record Props := {
  originalImage : string;
  editedImage : string;
  enhancedImage : option string;
  currentImage : string
}.

Inductive CurrentType := isOriginal | isEdited | isEnhanced | unknown.

Definition getCurrentImageType (p : Props) : CurrentType :=
  if String.eqb (currentImage p) (originalImage p) then isOriginal
  else if String.eqb (currentImage p) (editedImage p) then isEdited
  else
    match enhancedImage p with
    | Some e => if String.eqb (currentImage p) e then isEnhanced else unknown
    | None => unknown
    end.

(** The props [App] passes at step 2. *)
Definition props (st : App.State) : Props :=
  {| originalImage := App.originalImage st;
     editedImage := App.editedImage st;
     enhancedImage := Some (App.enhancedImage st);
     currentImage := App.imageSrc st |}.

End PreviewPanel.

(** ** The uploader *)

Module ImageUploader.

(** What [handleFileChange] does: the [alert]s shown, the file kept in
    [selectedFile], and the calls of [onImageSelect]. *)
Record Outcome := {
  alerts : list string;
  selectedFile : option File;
  onImageSelect : list File
}.

Definition typeAlert : string :=
  "❌ Por favor, selecciona un archivo de imagen (JPEG, PNG, etc.)".

Definition sizeAlert : string :=
  "❌ El archivo es demasiado grande. Máximo 10MB.".

(** [10 * 1024 * 1024]. *)
Definition maxSize : Z := 10 * 1024 * 1024.

(** [handleFileChange(event)] for [event.target.files = files]; [keep] is
    the [selectedFile] before the event. The drop handler calls it with the
    dropped files. *)
Definition handleFileChange (files : option (list File)) (keep : option File)
  : Outcome :=
  match files with
  | None | Some [] =>
      {| alerts := []; selectedFile := keep; onImageSelect := [] |}
  | Some (file :: _) =>
      if negb (JS.startsWith (file_type file) "image/") then
        {| alerts := [typeAlert]; selectedFile := keep; onImageSelect := [] |}
      else if (maxSize <? file_size file)%Z then
        {| alerts := [sizeAlert]; selectedFile := keep; onImageSelect := [] |}
      else
        {| alerts := []; selectedFile := Some file; onImageSelect := [file] |}
  end.



End ImageUploader.

(** ** The editor inside the wizard

    At step 1 the wizard renders the editor with [imageSrc] as a prop and
    [handleImageEdit] as [onImageChange]. The application is mounted with
    [createRoot]: a handler of the editor runs to its end, the state
    updates it queued on both components are applied in one render, and
    then the effect of the editor that depends on [imageSrc] runs if the
    prop differs from the one of the previous render. *)

Module Wizard.

Record World := {
  app : App.State;
  editor : ImageEditor.State
}.

(** The editor as first rendered for the current image. *)
Definition mount (a : App.State) : World :=
  {| app := a; editor := ImageEditor.reset (App.imageSrc a) |}.

(** The props [App] passes: [onImageChange={handleImageEdit}] and
    [onResetToOriginal={handleResetToOriginal}]. *)
Definition callParent (a : App.State) (c : ImageEditor.ParentCall)
  : App.State :=
  match c with
  | ImageEditor.onImageChange img => App.handleImageEdit img a
  | ImageEditor.onResetToOriginal => fst (App.handleResetToOriginal a)
  end.

Definition notifyParent (n : ImageEditor.Notified) (a : App.State)
  : App.State :=
  foldl callParent a n.

(** The effect with dependency [[imageSrc]], after a render that follows
    the render with props from [prev]. *)
Definition effect (prev next : App.State) (e : ImageEditor.State)
  : ImageEditor.State :=
  if String.eqb (App.imageSrc prev) (App.imageSrc next) then e
  else ImageEditor.reinitialize (App.imageSrc next) e.

Definition act
  (h : ImageEditor.State -> ImageEditor.State * ImageEditor.Notified)
  (w : World) : World :=
  let '(e', n) := h (editor w) in
  let a' := notifyParent n (app w) in
  {| app := a'; editor := effect (app w) a' e' |}.

(** The operations of the history the user can trigger. *)
Inductive Op :=
| Rotation (r : ImageEditor.Render)
| CropOp (cropSelected : bool) (r : ImageEditor.Render)
| Undo
| Redo
| ResetAll.

(** The handler of an operation, in a render with prop [imageSrc]. *)
Definition handler (imageSrc : string) (o : Op)
  : ImageEditor.State -> ImageEditor.State * ImageEditor.Notified :=
  match o with
  | Rotation r => ImageEditor.applyRotation r
  | CropOp sel r => ImageEditor.applyCrop sel r
  | Undo => ImageEditor.undo
  | Redo => ImageEditor.redo
  | ResetAll => ImageEditor.confirmResetAll imageSrc
  end.

Definition step (w : World) (o : Op) : World :=
  act (handler (App.imageSrc (app w)) o) w.

Definition run (ops : list Op) (w : World) : World := foldl step w ops.

(** The cursor points into the history, each entry of the history that
    the parent accepts as an image is the parent's current image, and the
    original image, when there is one, is an image. *)
Definition coherent (w : World) : Prop :=
  ImageEditor.wf (editor w)
  /\ (forall img, img ∈ ImageEditor.history (editor w) ->
        JS.isDataUrlImage img = true -> img = App.imageSrc (app w))
  /\ (App.originalImage (app w) = ""
      \/ JS.isDataUrlImage (App.originalImage (app w)) = true).

(** The wizard and the editor once [seed] has been adopted. *)
Definition seeded (seed : string) : World :=
  mount (App.adopt seed App.initial).

End Wizard.

(** ** A wizard session

    Everything that can happen to the state of [App]: the handlers, each
    with what its asynchronous part yields, and each run to its end before
    the next event. [Interleaved] below lets the pending parts end
    later. *)

Module Session.

Inductive Event :=
| SelectFile (file : File) (read : App.ReadOutcome)
| Capture (capturedImageSrc : option string)
| Edit (editedImageSrc : option string)
| Select (imageType : App.ImageType)
| Enhance (fetch : App.Fetch) (server : Api.Server) (reader : App.Reader)
| Process (fetch : App.Fetch) (server : Api.Server)
| Next (fetch : App.Fetch) (server : Api.Server)
| ResetToOriginal
| Back
| Reset
| GoTo (k : Z).

Definition State : Type := App.State * Api.Browser.

Definition apply (s : State) (ev : Event) : State :=
  let '(st, b) := s in
  match ev with
  | SelectFile file read => (fst (App.handleImageSelect file read st), b)
  | Capture src => (fst (App.handleCameraCapture src st), b)
  | Edit img => (App.handleImageEdit img st, b)
  | Select t => (fst (App.handleSelectImage t st), b)
  | Enhance fetch server reader =>
      let '(st', _, b') := App.handleEnhanceImage fetch server reader st b in
      (st', b')
  | Process fetch server =>
      let '(st', _, b') := App.handleProcessOCR fetch server st b in (st', b')
  | Next fetch server =>
      let '(st', _, b') := App.handleNext fetch server st b in (st', b')
  | ResetToOriginal => (fst (App.handleResetToOriginal st), b)
  | Back => (App.handleBack st, b)
  | Reset => (fst (App.handleReset st), b)
  | GoTo k => (App.drawerGoTo k st, b)
  end.

Definition run (evs : list Event) (s : State) : State := foldl apply s evs.


End Session.

(** ** The geometry of a crop

    Numbers are IEEE 754 doubles: [float] with the kernel's operations. *)

Module CropGeometry.

Local Open Scope float_scope.

(** The attributes of the [<img>] the handler reads: the intrinsic size
    and the size it is displayed at, all of type [unsigned long]. *)
Record Image := {
  naturalWidth : Z;
  naturalHeight : Z;
  width : Z;
  height : Z
}.

(** The selection, in pixels of the displayed image, and the crop in
    natural pixels: four numbers. *)
Record Rect := {
  rect_x : float;
  rect_y : float;
  rect_width : float;
  rect_height : float
}.

(** An [unsigned long] as a number; exact, since it is below 2^53. *)
Definition number (n : Z) : float := PrimFloat.of_uint63 (Uint63.of_Z n).

Definition scaleX (img : Image) : float :=
  number (naturalWidth img) / number (width img).

Definition scaleY (img : Image) : float :=
  number (naturalHeight img) / number (height img).

Definition pixelCrop (img : Image) (crop : Rect) : Rect :=
  {| rect_x := rect_x crop * scaleX img;
     rect_y := rect_y crop * scaleY img;
     rect_width := rect_width crop * scaleX img;
     rect_height := rect_height crop * scaleY img |}.

(** [IntegerPart] of a finite double: its value truncated towards zero. *)
Definition integerPart (s : bool) (m : positive) (e : Z) : Z :=
  let magnitude :=
    if (0 <=? e)%Z then (Z.pos m * 2 ^ e)%Z
    else (Z.pos m / 2 ^ (- e))%Z in
  if s then (- magnitude)%Z else magnitude.

(** The conversion of a number to [unsigned long] that an assignment to
    [canvas.width] applies: NaN, the infinities and zero become 0, any
    other value is truncated and reduced modulo 2^32. *)
Definition toUnsignedLong (v : float) : Z :=
  match Prim2SF v with
  | S754_finite s m e => (integerPart s m e mod 2 ^ 32)%Z
  | _ => 0%Z
  end.

(** Setting a dimension of a canvas: a value above 2^31 - 1 is replaced
    by the default of the attribute. *)
Definition setCanvasDimension (default : Z) (v : float) : Z :=
  let n := toUnsignedLong v in
  if (n <=? 2147483647)%Z then n else default.

(** The size of the canvas the crop is drawn on, which is the size of the
    image [toDataURL] encodes:
    [canvas.width = pixelCrop.width; canvas.height = pixelCrop.height]. *)
Definition cropSize (img : Image) (crop : Rect) : Z * Z :=
  let p := pixelCrop img crop in
  (setCanvasDimension 300 (rect_width p),
   setCanvasDimension 150 (rect_height p)).

(** The exact value of a double that is neither NaN nor infinite. *)
Definition exact (v : float) : option Q :=
  match Prim2SF v with
  | S754_zero _ => Some 0%Q
  | S754_finite s m e =>
      let n := if s then Z.neg m else Z.pos m in
      Some (if (0 <=? e)%Z then inject_Z (n * 2 ^ e)
            else Qmake n (2 ^ Z.to_pos (- e))%positive)
  | _ => None
  end.




End CropGeometry.


(** ** The auth service and the request interceptor *)

Module AuthService.

(** The options of a request the interceptor looks at: [config.url] and
    the [Authorization] header. *)
Record Config := {
  url : option string;
  authorization : option string
}.

(** The fulfilment handler of [api.interceptors.request]. *)
Definition requestInterceptor (config : Config) (b : Api.Browser) : Config :=
  match Api.getItem "jwt_token" b, url config with
  | Some token, Some u =>
      if JS.truthy token && JS.includes u "/ocr"
      then {| url := url config;
              authorization := Some (String.append "Bearer " token) |}
      else config
  | _, _ => config
  end.

(** The body of the answer to [POST /login]. [user] is the text that
    [JSON.stringify(user)] gives. *)
Record LoginData := {
  token : string;
  token_laravel : string;
  user : string;
  expires_in : Z
}.

(** A rejected request as the client raises it, with
    [error.response?.data?.message]. *)
Record Failure := {
  error : Api.AxiosError;
  data_message : option string
}.

Definition AuthServer := string -> string -> Settled LoginData Failure.

(** What the [catch] block of a caller sees once the response interceptor
    has run: a timeout and an answer 401 are replaced by new errors, which
    carry no code, no response and no data; any other error is passed on as
    it is. *)
Definition intercepted (f : Failure) (b : Api.Browser)
  : Failure * Api.Browser :=
  let '(e, b') := Api.responseInterceptor (error f) b in
  if Api.isTimeout (error f) || Api.isUnauthorized (error f) then
    ({| error := {| Api.ax_code := None; Api.ax_name := Api.err_name e;
                    Api.ax_message := Api.err_message e;
                    Api.ax_status := None |};
        data_message := None |}, b')
  else (f, b').

Definition badCredentials : string := "❌ Usuario o contraseña incorrectos".

Definition connectionError : string :=
  "🔌 Error de conexión. Verifica tu internet y que el servidor esté funcionando.".

Definition genericLoginError : string := "Error al iniciar sesión".

(** The message of the error the [catch] block of [login] throws. *)
Definition loginErrorMessage (f : Failure) : string :=
  if Api.isUnauthorized (error f) then badCredentials
  else if JS.includes (Api.ax_message (error f)) "Network Error"
          || match Api.ax_code (error f) with
             | Some c => String.eqb c "ECONNABORTED"
             | None => false
             end
  then connectionError
  else
    match data_message f with
    | Some m => if JS.truthy m then m else genericLoginError
    | None => genericLoginError
    end.

(** [authService.login(username, password)] at time [now]: the answer and
    what is stored, or the message of the error thrown. *)
Definition login (server : AuthServer) (username password : string) (now : Z)
  (b : Api.Browser) : Settled LoginData string * Api.Browser :=
  match server username password with
  | Resolved data =>
      (Resolved data,
       Api.storeLogin (token data) (token_laravel data) (user data)
         (expires_in data) now b)
  | Rejected f =>
      let '(f', b') := intercepted f b in
      (Rejected (loginErrorMessage f'), b')
  end.

(** [authService.verifyToken()]: without a token it throws before any
    request; a rejected request is thrown again, after the four keys are
    removed if the error still carries a status 401. *)
Definition VerifyServer := string -> Settled string Failure.

Definition noTokenError : string := "🔐 No hay token disponible".

Definition verifyToken (server : VerifyServer) (b : Api.Browser)
  : Settled string string * Api.Browser :=
  match Api.getItem "jwt_token" b with
  | Some token =>
      if JS.truthy token then
        match server (String.append "Bearer " token) with
        | Resolved data => (Resolved data, b)
        | Rejected f =>
            let '(f', b') := intercepted f b in
            (Rejected (Api.ax_message (error f')),
             if Api.isUnauthorized (error f') then Api.logout b' else b')
        end
      else (Rejected noTokenError, b)
  | None => (Rejected noTokenError, b)
  end.

(** [authService.getToken()]. *)
Definition getToken (b : Api.Browser) : option string :=
  Api.getItem "jwt_token" b.

End AuthService.

(** ** The protected route *)

Module ProtectedRoute.

Record State := {
  isVerifying : bool;
  isAuthenticated : bool
}.

Definition initial : State :=
  {| isVerifying := true; isAuthenticated := false |}.

(** The effect run on mount, at time [now]. *)
Definition verifyAuth (now : Z) (b : Api.Browser) : State * Api.Browser :=
  if Api.isSessionActive b now
  then ({| isVerifying := false; isAuthenticated := true |}, b)
  else ({| isVerifying := false; isAuthenticated := false |}, Api.logout b).

Inductive Rendered := Loading | NavigateToLogin | Children.

Definition render (s : State) : Rendered :=
  if isVerifying s then Loading
  else if negb (isAuthenticated s) then NavigateToLogin
  else Children.

End ProtectedRoute.

(** ** The login form *)

Module Login.

Record State := {
  username : string;
  password : string;
  showPassword : bool;
  loading : bool;
  error : string
}.

Definition initial : State :=
  {| username := ""; password := ""; showPassword := false;
     loading := false; error := "" |}.


Definition setError (msg : string) (st : State) : State :=
  {| username := username st; password := password st;
     showPassword := showPassword st; loading := loading st; error := msg |}.

(** The state once the request has settled: [setLoading(false)] in the
    [finally] block, and the error shown. *)
Definition settled (msg : string) (st : State) : State :=
  {| username := username st; password := password st;
     showPassword := showPassword st; loading := false; error := msg |}.

Definition handleUsernameChange (value : string) (st : State) : State :=
  {| username := value; password := password st;
     showPassword := showPassword st; loading := loading st; error := "" |}.

Definition handlePasswordChange (value : string) (st : State) : State :=
  {| username := username st; password := value;
     showPassword := showPassword st; loading := loading st; error := "" |}.

(** What a submission does: the new state of the form, the toasts, the
    browser, and the credentials [authService.login] was called with. *)
Record Submitted := {
  form : State;
  toasts : list Toast;
  browser : Api.Browser;
  loginCalls : list (string * string)
}.

Definition blankFields : string := "❌ Por favor, completa todos los campos".

Definition handleSubmit (server : AuthService.AuthServer) (now : Z)
  (st : State) (b : Api.Browser) : Submitted :=
  if negb (JS.truthy (JS.trim (username st)))
     || negb (JS.truthy (JS.trim (password st))) then
    {| form := setError blankFields st; toasts := []; browser := b;
       loginCalls := [] |}
  else
    let calls := [(username st, password st)] in
    match AuthService.login server (username st) (password st) now b with
    | (Resolved _, b') =>
        {| form := settled "" st;
           toasts := [{| severity := Success;
                         message := "✅ ¡Autenticación exitosa!" |}];
           browser := Api.navigate "/" b';
           loginCalls := calls |}
    | (Rejected msg, b') =>
        let '(shown, toasted) :=
          if JS.includes msg "incorrectos" then
            ("❌ Usuario o contraseña incorrectos",
             "❌ Credenciales incorrectas")
          else if JS.includes msg "conexión" then
            ("🔌 Error de conexión. Verifica tu internet.",
             "🔌 Error de conexión")
          else (String.append "⚠️ " msg, String.append "⚠️ " msg) in
        {| form := settled shown st;
           toasts := [{| severity := Error; message := toasted |}];
           browser := b';
           loginCalls := calls |}
    end.

(** The effect run when the form is shown, at time [now]: an active
    session goes to the application, otherwise what is stored of an old
    session is removed. *)
Definition onMount (now : Z) (b : Api.Browser) : Api.Browser :=
  if Api.isSessionActive b now then Api.navigate "/" b else Api.logout b.

End Login.

(** ** The camera dialog *)

Module CameraCapture.

Inductive FacingMode := user | environment.

Definition switchCamera (prev : FacingMode) : FacingMode :=
  match prev with
  | user => environment
  | environment => user
  end.

(** The callbacks [capture] calls, in order, for what
    [webcamRef.current?.getScreenshot()] yields ([None] for [null] or
    [undefined]). *)
Inductive Call := onCapture (imageSrc : string) | onClose.

Definition capture (screenshot : option string) : list Call :=
  match screenshot with
  | Some imageSrc =>
      if JS.truthy imageSrc then [onCapture imageSrc; onClose] else []
  | None => []
  end.

(** The dialog as [App] renders it: [onCapture={handleCameraCapture}] and
    [onClose] sets [cameraOpen] to false. *)
Record Wizard := {
  app : App.State;
  cameraOpen : bool;
  shown : list Toast
}.

Definition call (w : Wizard) (c : Call) : Wizard :=
  match c with
  | onCapture imageSrc =>
      let '(st, ts) := App.handleCameraCapture (Some imageSrc) (app w) in
      {| app := st; cameraOpen := cameraOpen w; shown := shown w ++ ts |}
  | onClose => {| app := app w; cameraOpen := false; shown := shown w |}
  end.

Definition press (screenshot : option string) (w : Wizard) : Wizard :=
  foldl call w (capture screenshot).

End CameraCapture.

(** ** Dropping files on the uploader *)

Module DropZone.

(** [handleDrop] for [e.dataTransfer.files = files]: with a first file the
    files go through [handleFileChange], otherwise nothing happens. *)
Definition handleDrop (files : option (list File)) (keep : option File)
  : ImageUploader.Outcome :=
  match files with
  | Some (file :: rest) =>
      ImageUploader.handleFileChange (Some (file :: rest)) keep
  | _ =>
      {| ImageUploader.alerts := []; ImageUploader.selectedFile := keep;
         ImageUploader.onImageSelect := [] |}
  end.

(** What the wizard does with the calls of [onImageSelect], each file
    being read as [read] says. *)
Definition deliver (read : File -> App.ReadOutcome) (o : ImageUploader.Outcome)
  (st : App.State) : App.State * list Toast :=
  foldl (fun acc file =>
           let '(st', ts) := App.handleImageSelect file (read file) (fst acc) in
           (st', snd acc ++ ts))
        (st, []) (ImageUploader.onImageSelect o).

End DropZone.

(** ** The controls of the editor

    The state of the editor beside its history: the rotation of the
    preview, the crop mode and the selection. *)

Module EditorControls.

Record State := {
  images : ImageEditor.State;
  rotate : Z;
  isCropping : bool;
  crop : option CropGeometry.Rect
}.

(** The editor as first rendered for [imageSrc]. *)
Definition initial (imageSrc : string) : State :=
  {| images := ImageEditor.reset imageSrc; rotate := 0;
     isCropping := false; crop := None |}.

Definition rotateLeft (s : State) : State :=
  {| images := images s; rotate := (rotate s - 90)%Z;
     isCropping := isCropping s; crop := crop s |}.

Definition rotateRight (s : State) : State :=
  {| images := images s; rotate := (rotate s + 90)%Z;
     isCropping := isCropping s; crop := crop s |}.

Definition toggleCropping (s : State) : State :=
  {| images := images s; rotate := rotate s;
     isCropping := negb (isCropping s);
     crop := if isCropping s then None else crop s |}.

(** [onChange] of the crop area, which is disabled outside the crop mode. *)
Definition selectArea (c : CropGeometry.Rect) (s : State) : State :=
  if isCropping s
  then {| images := images s; rotate := rotate s;
          isCropping := isCropping s; crop := Some c |}
  else s.

(** [applyRotation]: a commit also sets the rotation back to 0. *)
Definition applyRotation (r : ImageEditor.Render) (s : State)
  : State * ImageEditor.Notified :=
  let '(h, n) := ImageEditor.applyRotation r (images s) in
  match r with
  | ImageEditor.Encoded _ =>
      ({| images := h; rotate := 0; isCropping := isCropping s;
          crop := crop s |}, n)
  | _ => (s, n)
  end.

(** [applyCrop]: a commit also leaves the crop mode, forgets the selection
    and sets the rotation back to 0. *)
Definition applyCrop (r : ImageEditor.Render) (s : State)
  : State * ImageEditor.Notified :=
  let selected := match crop s with Some _ => true | None => false end in
  let '(h, n) := ImageEditor.applyCrop selected r (images s) in
  match selected, r with
  | true, ImageEditor.Encoded _ =>
      ({| images := h; rotate := 0; isCropping := false; crop := None |}, n)
  | _, _ => (s, n)
  end.

(** [undo] and [redo]: a move also sets the rotation back to 0. *)
Definition undo (s : State) : State * ImageEditor.Notified :=
  let '(h, n) := ImageEditor.undo (images s) in
  if ImageEditor.canUndo (images s)
  then ({| images := h; rotate := 0; isCropping := isCropping s;
           crop := crop s |}, n)
  else (s, n).

Definition redo (s : State) : State * ImageEditor.Notified :=
  let '(h, n) := ImageEditor.redo (images s) in
  if ImageEditor.canRedo (images s)
  then ({| images := h; rotate := 0; isCropping := isCropping s;
           crop := crop s |}, n)
  else (s, n).

Definition confirmResetAll (imageSrc : string) (s : State)
  : State * ImageEditor.Notified :=
  let '(h, n) := ImageEditor.confirmResetAll imageSrc (images s) in
  ({| images := h; rotate := 0; isCropping := false; crop := None |}, n).

(** The effect on a new [imageSrc]: an image restarts everything. *)
Definition reinitialize (imageSrc : string) (s : State) : State :=
  if JS.isDataUrlImage imageSrc then initial imageSrc else s.

(** What the user and the parent can do to the editor. *)
Inductive Op :=
| RotateLeft
| RotateRight
| ToggleCropping
| SelectArea (c : CropGeometry.Rect)
| ApplyRotation (r : ImageEditor.Render)
| ApplyCrop (r : ImageEditor.Render)
| Undo
| Redo
| ConfirmResetAll (imageSrc : string)
| NewImage (imageSrc : string).

Definition step (s : State) (o : Op) : State :=
  match o with
  | RotateLeft => rotateLeft s
  | RotateRight => rotateRight s
  | ToggleCropping => toggleCropping s
  | SelectArea c => selectArea c s
  | ApplyRotation r => fst (applyRotation r s)
  | ApplyCrop r => fst (applyCrop r s)
  | Undo => fst (undo s)
  | Redo => fst (redo s)
  | ConfirmResetAll src => fst (confirmResetAll src s)
  | NewImage src => reinitialize src s
  end.

Definition run (ops : list Op) (s : State) : State := foldl step s ops.

(** The buttons of the history, in a render whose [isProcessing] is given:
    [disabled={historyIndex === 0 || isProcessing}] and
    [disabled={historyIndex === history.length - 1 || isProcessing}]. *)
Definition undoEnabled (isProcessing : bool) (s : ImageEditor.State) : bool :=
  negb ((ImageEditor.historyIndex s =? 0)%nat || isProcessing).

Definition redoEnabled (isProcessing : bool) (s : ImageEditor.State) : bool :=
  negb ((Z.of_nat (ImageEditor.historyIndex s)
         =? Z.of_nat (length (ImageEditor.history s)) - 1)%Z
        || isProcessing).

(** What every operation keeps: the cursor points into the history, the
    rotation of the preview is a number of quarter turns, and an area is
    selected only in the crop mode. *)
Definition steady (s : State) : Prop :=
  ImageEditor.wf (images s)
  /\ (rotate s mod 90 = 0)%Z
  /\ (crop s <> None -> isCropping s = true).

End EditorControls.

(** ** The OCR handler as an asynchronous function

    [handleProcessOCR] is an [async] function: its caller gets a promise,
    fulfilled when the body returns and rejected with what the body throws.
    Here the body is written with its [try], [catch] and [finally] blocks
    and the exceptions of its awaits. *)

Module Promise.

(** How a block of statements ends: normally, or by throwing [e]. *)
Inductive Completion :=
| Normal
| Throw (e : Api.JsError).

(** What has been done so far: the state set, the toasts raised, and the
    browser. *)
Definition Effects : Type := App.State * list Toast * Api.Browser.

Definition Block : Type := Effects -> Completion * Effects.

(** [try { body } catch (error) { handler } finally { final }]: the
    handler runs on what the body throws, the last block runs in every
    case, and the statement ends as the handler did unless the last block
    throws. *)
Definition tryCatchFinally (body : Block) (handler : Api.JsError -> Block)
  (final : Block) : Block :=
  fun s =>
    let '(c, s1) :=
      match body s with
      | (Throw e, s1) => handler e s1
      | (Normal, s1) => (Normal, s1)
      end in
    match final s1 with
    | (Normal, s2) => (c, s2)
    | (Throw e, s2) => (Throw e, s2)
    end.

(** [handleProcessOCR()]: how the body of the function ends, which is how
    the promise it returns is settled ([Normal]: fulfilled, with
    [undefined]; [Throw e]: rejected with [e]), and what it has done by
    then. *)
Definition handleProcessOCR (fetch : App.Fetch) (server : Api.Server)
  (st : App.State) (b : Api.Browser) : Completion * Effects :=
  if negb (JS.truthy (App.imageSrc st)) then
    (Normal, (st, [App.toast Error "❌ No hay imagen para procesar"], b))
  else
    tryCatchFinally
      (fun '(s, toasts, b) =>
         match fetch (App.imageSrc st) with
         | Rejected e => (Throw e, (s, toasts, b))
         | Resolved blob =>
             let file := App.ocrFile blob in
             let endpoint :=
               if App.isReverso st then Api.processReverso server
               else Api.processAnverso server in
             match endpoint file b with
             | (Resolved data, b') =>
                 (Normal,
                  (App.setActiveStep 3 (App.setOcrData (Some data) s),
                   toasts
                   ++ [App.toast Success "✅ OCR procesado correctamente"],
                   b'))
             | (Rejected e, b') => (Throw e, (s, toasts, b'))
             end
         end)
      (fun e '(s, toasts, b) =>
         (Normal, (s, toasts ++ [App.ocrErrorToast e], b)))
      (fun '(s, toasts, b) => (Normal, (App.setLoading false s, toasts, b)))
      (App.setLoading true st, [], b).

End Promise.

(** ** The wizard with its pending work

    Three handlers of [App] end later than they start:
    [handleImageSelect] when the file has been read, [handleProcessOCR]
    when its request is answered, [handleEnhanceImage] when its request is
    answered and again when the answer has been read. In between React runs
    whatever other handler is called. Each of the three is therefore cut
    at its awaits and callbacks into the part run at once and the parts run
    later; a later part writes the state of its own moment, with the values
    its closure holds from the render in which the handler was called. A
    request and its answer are taken together, at the moment of the
    answer. *)

Module Interleaved.

(** [handleImageSelect(file)] up to [reader.readAsDataURL(file)]. *)
Definition chooseFile (file : File) (st : App.State)
  : App.State * list Toast :=
  if negb (JS.startsWith (file_type file) "image/") then
    (st, [App.toast Error "❌ El archivo no es una imagen válida"])
  else (App.setIsImageLoading true st, []).

(** [reader.onload], [reader.onerror] and [reader.onabort]. *)
Definition readEnds (read : App.ReadOutcome) (st : App.State)
  : App.State * list Toast :=
  match read with
  | App.Loaded result =>
      if negb (JS.isDataUrlImage result) then
        (App.setIsImageLoading false st,
         [App.toast Error
            "❌ Error: La imagen no se convirtió correctamente"])
      else
        (App.adopt result st,
         [App.toast Success "✅ Imagen cargada correctamente"])
  | App.ReadError =>
      (App.setIsImageLoading false st,
       [App.toast Error "❌ Error al cargar la imagen"])
  | App.Aborted =>
      (App.setIsImageLoading false st,
       [App.toast Warning "⚠️ Lectura de imagen cancelada"])
  end.

(** [handleProcessOCR] up to its first [await]. *)
Definition clickProcess (st : App.State) : App.State * list Toast :=
  if negb (JS.truthy (App.imageSrc st)) then
    (st, [App.toast Error "❌ No hay imagen para procesar"])
  else (App.setLoading true st, []).

(** The rest of [handleProcessOCR], run once the image is fetched and the
    request answered, for the [imageSrc] and the [isReverso] of the render
    in which the handler was called, in the state [st] of the later
    moment. *)
Definition processEnds (imageSrc : string) (isReverso : bool)
  (fetch : App.Fetch) (server : Api.Server) (st : App.State)
  (b : Api.Browser) : App.State * list Toast * Api.Browser :=
  match fetch imageSrc with
  | Rejected e => (App.setLoading false st, [App.ocrErrorToast e], b)
  | Resolved blob =>
      let file := App.ocrFile blob in
      let endpoint :=
        if isReverso then Api.processReverso server
        else Api.processAnverso server in
      match endpoint file b with
      | (Resolved data, b') =>
          (App.setLoading false
             (App.setActiveStep 3 (App.setOcrData (Some data) st)),
           [App.toast Success "✅ OCR procesado correctamente"], b')
      | (Rejected e, b') =>
          (App.setLoading false st, [App.ocrErrorToast e], b')
      end
  end.

(** [handleEnhanceImage] up to its first [await]. *)
Definition clickEnhance (st : App.State) : App.State * list Toast :=
  if negb (JS.truthy (App.imageSrc st)) then
    (st, [App.toast Error "❌ No hay imagen para mejorar"])
  else (App.setEnhancing true st, []).

(** The rest of its [try] block and its [finally], run once the request is
    answered: with an answer, the read of the answer is started and
    [enhancing] is set back before that read ends. The last component is
    the data being read. *)
Definition enhanceAnswered (imageSrc : string) (fetch : App.Fetch)
  (server : Api.Server) (st : App.State) (b : Api.Browser)
  : App.State * list Toast * Api.Browser * option string :=
  match fetch imageSrc with
  | Rejected _ =>
      (App.setEnhancing false st,
       [App.toast Error "❌ Error al mejorar la imagen"], b, None)
  | Resolved blob =>
      match Api.enhanceImage server (App.enhanceFile blob) b with
      | (Rejected _, b') =>
          (App.setEnhancing false st,
           [App.toast Error "❌ Error al mejorar la imagen"], b', None)
      | (Resolved data, b') => (App.setEnhancing false st, [], b', Some data)
      end
  end.

(** [reader.onload] of the answer, for what [e.target?.result] is. *)
Definition enhanceRead (result : option string) (st : App.State)
  : App.State * list Toast :=
  match result with
  | Some enhancedUrl =>
      if JS.isDataUrlImage enhancedUrl then
        (App.setEnhancedImage enhancedUrl st,
         [App.toast Success "✨ Imagen mejorada con éxito"])
      else (st, [App.toast Error "❌ La imagen mejorada no es válida"])
  | None => (st, [App.toast Error "❌ La imagen mejorada no es válida"])
  end.

(** [handleNext]: at the preview step it calls [handleProcessOCR], whose
    awaits end later. *)
Definition clickNext (st : App.State) : App.State * list Toast :=
  if (App.activeStep st =? 1)%Z then
    if JS.isDataUrlImage (App.imageSrc st)
    then (App.setActiveStep 2 st,
          [App.toast Info "👁️ Avanzando a previsualización"])
    else (st, [App.toast Error "❌ No hay una imagen válida para continuar"])
  else if (App.activeStep st =? 2)%Z then clickProcess st
  else (st, []).

(** Everything that writes the state of [App]: the handlers that run at
    once, and the parts of the other three. A later part may come at any
    moment, with any closure: the moves are not restricted to the order in
    which the program produces them, so that what holds after every
    sequence of moves holds in every interleaving of the program. *)
Inductive Move :=
| ChooseFile (file : File)
| ReadEnds (read : App.ReadOutcome)
| Capture (capturedImageSrc : option string)
| Edit (editedImageSrc : option string)
| ResetToOriginal
| Select (imageType : App.ImageType)
| ClickProcess
| ProcessEnds (imageSrc : string) (isReverso : bool) (fetch : App.Fetch)
    (server : Api.Server)
| ClickEnhance
| EnhanceAnswered (imageSrc : string) (fetch : App.Fetch)
    (server : Api.Server)
| EnhanceRead (result : option string)
| ClickNext
| Back
| Reset
| GoTo (k : Z).

Definition State : Type := App.State * Api.Browser.

Definition apply (s : State) (mv : Move) : State :=
  let '(st, b) := s in
  match mv with
  | ChooseFile file => (fst (chooseFile file st), b)
  | ReadEnds read => (fst (readEnds read st), b)
  | Capture src => (fst (App.handleCameraCapture src st), b)
  | Edit img => (App.handleImageEdit img st, b)
  | ResetToOriginal => (fst (App.handleResetToOriginal st), b)
  | Select t => (fst (App.handleSelectImage t st), b)
  | ClickProcess => (fst (clickProcess st), b)
  | ProcessEnds imageSrc isReverso fetch server =>
      let '(st', _, b') := processEnds imageSrc isReverso fetch server st b in
      (st', b')
  | ClickEnhance => (fst (clickEnhance st), b)
  | EnhanceAnswered imageSrc fetch server =>
      let '(st', _, b', _) := enhanceAnswered imageSrc fetch server st b in
      (st', b')
  | EnhanceRead result => (fst (enhanceRead result st), b)
  | ClickNext => (fst (clickNext st), b)
  | Back => (App.handleBack st, b)
  | Reset => (fst (App.handleReset st), b)
  | GoTo k => (App.drawerGoTo k st, b)
  end.

Definition run (moves : list Move) (s : State) : State := foldl apply s moves.




End Interleaved.

(** ** What the screen offers

    The handlers of [App] a control of the screen can start at a given
    step: the uploader is shown at step 0, the editor at step 1, the
    preview panel at step 2; "Next" below step 2, "Process" at step 2,
    "Back" away from step 0; the drawer has the four steps; "Reset" is
    always there. Controls disabled while something is loading are counted
    as offered. *)

Module Screen.

Definition offered (st : App.State) (ev : Session.Event) : bool :=
  match ev with
  | Session.SelectFile _ _ => (App.activeStep st =? 0)%Z
  | Session.Capture _ => true
  | Session.Edit _ => (App.activeStep st =? 1)%Z
  | Session.ResetToOriginal => (App.activeStep st =? 1)%Z
  | Session.Select _ => (App.activeStep st =? 2)%Z
  | Session.Enhance _ _ _ => (App.activeStep st =? 2)%Z
  | Session.Process _ _ => (App.activeStep st =? 2)%Z
  | Session.Next _ _ => (App.activeStep st <? 2)%Z
  | Session.Back => negb (App.activeStep st =? 0)%Z
  | Session.Reset => true
  | Session.GoTo k => (0 <=? k)%Z && (k <=? 3)%Z
  end.

(** Every event of the run is offered in the state it meets. *)
Fixpoint allOffered (evs : list Session.Event) (s : Session.State) : bool :=
  match evs with
  | [] => true
  | ev :: evs' => offered (fst s) ev && allOffered evs' (Session.apply s ev)
  end.

(** A slot holds nothing or the DataURL of an image. *)
Definition emptyOrImage (s : string) : Prop :=
  s = "" \/ JS.isDataUrlImage s = true.

(** What holds of the wizard whatever the controls of the screen are used
    for. *)
Definition sound (st : App.State) : Prop :=
  (0 <= App.activeStep st <= 3)%Z
  /\ emptyOrImage (App.imageSrc st)
  /\ emptyOrImage (App.originalImage st)
  /\ emptyOrImage (App.editedImage st)
  /\ emptyOrImage (App.enhancedImage st)
  /\ (1 <= App.activeStep st ->
      JS.isDataUrlImage (App.imageSrc st) = true
      /\ JS.isDataUrlImage (App.originalImage st) = true
      /\ JS.isDataUrlImage (App.editedImage st) = true)%Z
  /\ (App.activeStep st = 3%Z -> App.ocrData st <> None).

(** [handleLogout] of the application bar: the session is removed, a
    toast confirms it, and the location becomes the login page. *)
Definition handleLogout (b : Api.Browser) : Api.Browser * list Toast :=
  (Api.navigate "/login" (Api.logout b),
   [App.toast Success "👋 Sesión cerrada correctamente"]).

(** The slot a version names. *)
Definition slot (imageType : App.ImageType) (st : App.State) : string :=
  match imageType with
  | App.original => App.originalImage st
  | App.edited => App.editedImage st
  | App.enhanced => App.enhancedImage st
  end.

(** The wizard at the editing step, when [seed] was adopted and the last
    edit it accepted was [img]. *)
Definition editing (seed img : string) : App.State :=
  App.setEditedImage img (App.setImageSrc img (App.adopt seed App.initial)).

(** The state of the wizard is that of an accepted edit. *)
Definition edited (seed : string) (a : App.State) : Prop :=
  exists img, JS.isDataUrlImage img = true /\ a = editing seed img.

(** The four slots hold nothing or images. *)
Definition slots (st : App.State) : Prop :=
  emptyOrImage (App.imageSrc st)
  /\ emptyOrImage (App.originalImage st)
  /\ emptyOrImage (App.editedImage st)
  /\ emptyOrImage (App.enhancedImage st).

(** The requests the wizard makes: the OCR of a front side and the
    enhancement. *)
Definition wizardRoute (request : string * File) : Prop :=
  fst request = "/ocr" \/ fst request = "/enhance".

(** The events that keep the source image: all but the adoption of a new
    image and the reset of the wizard. *)
Definition keepsSource (ev : Session.Event) : bool :=
  match ev with
  | Session.SelectFile _ _ | Session.Capture _ | Session.Reset => false
  | _ => true
  end.

End Screen.

(** ** Sample data

    Concrete browsers, servers, files and images on which the handlers are
    run in the examples below. *)

(** A browser with nothing stored, on the page of the wizard. *)
Definition freshBrowser : Api.Browser :=
  {| Api.localStorage := ∅; Api.pathname := "/"; Api.sent := [] |}.

(** The wizard at the preview step with an adopted image. *)
Definition previewState : App.State :=
  App.setActiveStep 2 (App.adopt "data:image/png;base64,S" App.initial).

(** A server whose every request times out, and one without valid session. *)
Definition timingOutServer : Api.Server :=
  fun _ _ =>
    Rejected {| Api.ax_code := Some "ECONNABORTED";
                Api.ax_name := "AxiosError";
                Api.ax_message := "timeout of 30000ms exceeded";
                Api.ax_status := None |}.

Definition unauthorizedServer : Api.Server :=
  fun _ _ =>
    Rejected {| Api.ax_code := Some "ERR_BAD_REQUEST";
                Api.ax_name := "AxiosError";
                Api.ax_message := "Request failed with status code 401";
                Api.ax_status := Some 401%Z |}.

Definition fetchDataUrl : App.Fetch := fun src => Resolved src.

(** A server that answers every OCR request with the same fields and every
    enhance request with a new image made from the one it got, and the
    reader of that answer. *)
Definition enhancedOf (src : string) : string :=
  String.append "data:image/png;base64,ENHANCED(" (String.append src ")").

Definition sampleServer : Api.Server :=
  fun url file =>
    if String.eqb url "/enhance" then Resolved (enhancedOf (file_content file))
    else Resolved "{ es_ine: true }".

Definition readBlob : App.Reader := fun data => Some data.

(** A server whose answer to an OCR request names the bytes it was sent. *)
Definition readingServer : Api.Server :=
  fun _ file => Resolved (String.append "fields of " (file_content file)).

(** A session through the four steps: a file is chosen, the preview is
    opened, the original is selected and the OCR is run. *)
Definition sampleSession : list Session.Event :=
  [Session.SelectFile
     {| file_name := "ine.png"; file_type := "image/png"; file_size := 2048;
        file_content := "PNG" |}
     (App.Loaded "data:image/png;base64,S");
   Session.Next fetchDataUrl sampleServer;
   Session.Select App.original;
   Session.Process fetchDataUrl sampleServer].

(** A session that starts with an adopted image, edits it, opens the
    preview, gets an enhancement and selects it. *)
Definition adoptedSession : Session.State :=
  (App.adopt "data:image/png;base64,S" App.initial, freshBrowser).

Definition editingSession : list Session.Event :=
  [Session.Edit (Some "data:image/jpeg;base64,ROTATED");
   Session.Next fetchDataUrl sampleServer;
   Session.Enhance fetchDataUrl sampleServer readBlob;
   Session.Select App.enhanced;
   Session.Back].

(** A session in which the OCR of the edited image is asked for at the
    preview step and, before its answer arrives, the original is selected;
    and one in which the wizard is reset before the answer arrives. *)
Definition pendingSession : list Interleaved.Move :=
  [Interleaved.Capture (Some "data:image/png;base64,S");
   Interleaved.Edit (Some "data:image/jpeg;base64,D");
   Interleaved.ClickNext;
   Interleaved.ClickProcess;
   Interleaved.Select App.original;
   Interleaved.ProcessEnds "data:image/jpeg;base64,D" false fetchDataUrl
     readingServer].

Definition resetWhilePending : list Interleaved.Move :=
  [Interleaved.Capture (Some "data:image/png;base64,S");
   Interleaved.ClickNext;
   Interleaved.ClickProcess;
   Interleaved.Reset;
   Interleaved.ProcessEnds "data:image/png;base64,S" false fetchDataUrl
     readingServer].

(** The answer 401 of the server, and a browser after a login at time
    1000 with a token valid for one hour. *)
Definition unauthorized : Api.AxiosError :=
  {| Api.ax_code := Some "ERR_BAD_REQUEST";
     Api.ax_name := "AxiosError";
     Api.ax_message := "Request failed with status code 401";
     Api.ax_status := Some 401%Z |}.

Definition loggedInBrowser : Api.Browser :=
  Api.storeLogin "JWT" "LARAVEL" "{ name: ana }" 3600 1000 freshBrowser.

(** An auth server that refuses every login with 401 and a message of its
    own, one that accepts every login, and a filled login form. *)
Definition refusingAuthServer : AuthService.AuthServer :=
  fun _ _ =>
    Rejected {| AuthService.error := unauthorized;
                AuthService.data_message := Some "Unauthorized" |}.

Definition acceptingAuthServer : AuthService.AuthServer :=
  fun username _ =>
    Resolved {| AuthService.token := "JWT";
                AuthService.token_laravel := "LARAVEL";
                AuthService.user := username;
                AuthService.expires_in := 3600 |}.

Definition filledForm : Login.State :=
  {| Login.username := "ana"; Login.password := " secret ";
     Login.showPassword := false; Login.loading := false;
     Login.error := "" |}.

Definition loginPage : Api.Browser :=
  {| Api.localStorage := ∅; Api.pathname := "/login"; Api.sent := [] |}.



(** An image of 1920 by 1080 shown at 640 by 360, and a selection of
    100.5 by 50 pixels of the displayed image. *)
Definition hdImage : CropGeometry.Image :=
  {| CropGeometry.naturalWidth := 1920; CropGeometry.naturalHeight := 1080;
     CropGeometry.width := 640; CropGeometry.height := 360 |}.

Definition selection : CropGeometry.Rect :=
  {| CropGeometry.rect_x := 10; CropGeometry.rect_y := 20;
     CropGeometry.rect_width := 100.5; CropGeometry.rect_height := 50 |}%float.




(** * Properties *)

(** ** JavaScript values *)

Lemma truthy_true (s : string) : JS.truthy s = true <-> s <> "".
Proof.
  unfold JS.truthy. rewrite negb_true_iff. split.
  - intros H ->. now rewrite String.eqb_refl in H.
  - intros H. now apply String.eqb_neq.
Qed.

Lemma truthy_false (s : string) : JS.truthy s = false <-> s = "".
Proof. unfold JS.truthy. rewrite negb_false_iff. apply String.eqb_eq. Qed.

Lemma isDataUrlImage_truthy (s : string) :
  JS.isDataUrlImage s = true -> JS.truthy s = true.
Proof. unfold JS.isDataUrlImage. now intros [H _]%andb_prop. Qed.

(** ** The history of the editor *)

Section History.

Import ImageEditor.

Local Open Scope nat_scope.

Implicit Types (s : State) (next : string).

Lemma commit_history s next :
  history (commit next s) = take (historyIndex s + 1) (history s) ++ [next].
Proof. reflexivity. Qed.

Lemma commit_index s next :
  historyIndex (commit next s) = length (take (historyIndex s + 1) (history s)).
Proof.
  unfold commit. cbn [historyIndex]. rewrite length_app. cbn [length]. lia.
Qed.

Lemma commit_canRedo s next : canRedo (commit next s) = false.
Proof.
  unfold canRedo. rewrite commit_index, commit_history, length_app.
  cbn [length]. apply Nat.ltb_ge. lia.
Qed.

Lemma commit_wf s next : wf (commit next s).
Proof.
  unfold wf. rewrite commit_index, commit_history, length_app.
  cbn [length]. lia.
Qed.

Lemma commit_current s next : current (commit next s) = Some next.
Proof.
  unfold current. rewrite commit_index, commit_history.
  rewrite lookup_app_r by lia. now rewrite Nat.sub_diag.
Qed.

Lemma reset_wf seed : wf (reset seed).
Proof. unfold wf, reset. cbn. lia. Qed.

Lemma undo_wf s : wf s -> wf (fst (undo s)).
Proof.
  unfold wf, undo, canUndo. destruct (0 <? historyIndex s) eqn:E; cbn; lia.
Qed.

Lemma redo_wf s : wf s -> wf (fst (redo s)).
Proof.
  unfold wf, redo, canRedo.
  destruct (historyIndex s <? length (history s) - 1) eqn:E; cbn; [|lia].
  apply Nat.ltb_lt in E. lia.
Qed.

Lemma reinitialize_wf src s : wf s -> wf (reinitialize src s).
Proof.
  unfold reinitialize. destruct (JS.isDataUrlImage src); auto using reset_wf.
Qed.

Lemma applyRotation_wf r s : wf s -> wf (fst (applyRotation r s)).
Proof. destruct r; cbn; auto using commit_wf. Qed.

Lemma applyCrop_wf sel r s : wf s -> wf (fst (applyCrop sel r s)).
Proof. destruct sel, r; cbn; auto using commit_wf. Qed.

(** Undo followed by redo, on the state of the editor alone. *)
Lemma redo_undo s :
  wf s -> canUndo s = true ->
  redo (fst (undo s)) = (s, [onImageChange (current s)]).
Proof.
  unfold wf, canUndo. intros Hwf Hu. apply Nat.ltb_lt in Hu.
  unfold undo, canUndo. rewrite (proj2 (Nat.ltb_lt _ _) Hu). cbn [fst].
  unfold redo, canRedo. cbn [history historyIndex].
  replace (historyIndex s - 1 <? length (history s) - 1) with true
    by (symmetry; apply Nat.ltb_lt; lia).
  replace (historyIndex s - 1 + 1) with (historyIndex s) by lia.
  now destruct s.
Qed.

End History.

(** ** The editor inside the wizard *)

Section EditorInWizard.

Import Wizard.

Local Open Scope nat_scope.

Implicit Types (w : World) (o : Op) (ops : list Op).

Lemma handleImageEdit_valid img a :
  JS.isDataUrlImage img = true ->
  App.handleImageEdit (Some img) a
  = App.setEditedImage img (App.setImageSrc img a).
Proof. intros H. unfold App.handleImageEdit. now rewrite H. Qed.

Lemma handleImageEdit_invalid img a :
  JS.isDataUrlImage img = false -> App.handleImageEdit (Some img) a = a.
Proof. intros H. unfold App.handleImageEdit. now rewrite H. Qed.

Lemma handleImageEdit_original img a :
  App.originalImage (App.handleImageEdit img a) = App.originalImage a.
Proof.
  unfold App.handleImageEdit. destruct img as [src|]; [|reflexivity].
  now destruct (JS.isDataUrlImage src).
Qed.

Lemma effect_same a a' e :
  App.imageSrc a' = App.imageSrc a -> effect a a' e = e.
Proof. intros H. unfold effect. now rewrite H, String.eqb_refl. Qed.

Lemma effect_changed a a' e :
  App.imageSrc a' <> App.imageSrc a ->
  JS.isDataUrlImage (App.imageSrc a') = true ->
  effect a a' e = ImageEditor.reset (App.imageSrc a').
Proof.
  intros Hne Hv. unfold effect, ImageEditor.reinitialize.
  rewrite (proj2 (String.eqb_neq _ _)) by congruence. now rewrite Hv.
Qed.

Lemma effect_wf a a' e : ImageEditor.wf e -> ImageEditor.wf (effect a a' e).
Proof.
  intros H. unfold effect.
  destruct (String.eqb _ _); auto using reinitialize_wf.
Qed.

Lemma handler_wf src o e :
  ImageEditor.wf e -> ImageEditor.wf (fst (handler src o e)).
Proof.
  destruct o; cbn [handler];
    auto using applyRotation_wf, applyCrop_wf, undo_wf, redo_wf.
  intros _. apply reset_wf.
Qed.

Lemma step_wf w o :
  ImageEditor.wf (editor w) -> ImageEditor.wf (editor (step w o)).
Proof.
  intros H. unfold step, act.
  pose proof (handler_wf (App.imageSrc (app w)) o (editor w) H) as Hh.
  destruct (handler (App.imageSrc (app w)) o (editor w)) as [e' n].
  cbn [editor]. now apply effect_wf.
Qed.

Lemma run_wf ops w :
  ImageEditor.wf (editor w) -> ImageEditor.wf (editor (run ops w)).
Proof.
  revert w. induction ops as [|o ops IH]; intros w H; cbn; [exact H|].
  apply IH. now apply step_wf.
Qed.

(** X1. Whatever sequence of rotations, crops, undos, redos and resets the
    user applies to the editor seeded with an image, the history is never
    empty. *)
Lemma history_never_empty ops seed :
  1 <= length (ImageEditor.history (editor (run ops (seeded seed)))).
Proof.
  pose proof (run_wf ops (seeded seed) (reset_wf _)) as H.
  unfold ImageEditor.wf in H. lia.
Qed.

(** A commit of an image the parent accepts and does not hold yet: the
    effect on [imageSrc] replaces the history by that single image. *)
Lemma commit_restarts_history w next :
  JS.isDataUrlImage next = true ->
  next <> App.imageSrc (app w) ->
  step w (Rotation (ImageEditor.Encoded next))
  = {| app := App.setEditedImage next (App.setImageSrc next (app w));
       editor := ImageEditor.reset next |}.
Proof.
  intros Hv Hne. unfold step, act. cbn [handler ImageEditor.applyRotation].
  cbn [notifyParent foldl callParent].
  rewrite handleImageEdit_valid by exact Hv.
  f_equal. now apply effect_changed.
Qed.

(** A commit, whatever it does to the parent, leaves no redo. *)
Lemma step_commit_canRedo w next :
  ImageEditor.canRedo
    (editor (step w (Rotation (ImageEditor.Encoded next)))) = false.
Proof.
  unfold step, act. cbn [handler ImageEditor.applyRotation editor].
  unfold effect, ImageEditor.reinitialize.
  destruct (String.eqb _ _); [apply commit_canRedo|].
  destruct (JS.isDataUrlImage _); [reflexivity | apply commit_canRedo].
Qed.

(** Notifying the parent of an image of a coherent history does not
    change the parent's current image. *)
Lemma notify_entry w (i : nat) :
  coherent w ->
  i < length (ImageEditor.history (editor w)) ->
  App.imageSrc
    (App.handleImageEdit (ImageEditor.history (editor w) !! i) (app w))
  = App.imageSrc (app w).
Proof.
  intros (_ & Hc & _) Hi.
  destruct (lookup_lt_is_Some_2 _ _ Hi) as [img Himg]. rewrite Himg.
  destruct (JS.isDataUrlImage img) eqn:Hv.
  - rewrite handleImageEdit_valid by exact Hv. cbn.
    apply Hc; [|exact Hv]. eapply list_elem_of_lookup_2; eauto.
  - now rewrite handleImageEdit_invalid.
Qed.

Lemma step_undo w :
  coherent w -> ImageEditor.canUndo (editor w) = true ->
  editor (step w Undo) = fst (ImageEditor.undo (editor w))
  /\ App.imageSrc (app (step w Undo)) = App.imageSrc (app w)
  /\ App.originalImage (app (step w Undo)) = App.originalImage (app w).
Proof.
  intros Hc Hu. pose proof Hc as [Hwf _].
  unfold step, act. cbn [handler]. unfold ImageEditor.undo. rewrite Hu.
  cbn [notifyParent foldl callParent editor app fst].
  unfold ImageEditor.wf, ImageEditor.canUndo in *. apply Nat.ltb_lt in Hu.
  assert (H : App.imageSrc
                (App.handleImageEdit
                   (ImageEditor.history (editor w)
                      !! (ImageEditor.historyIndex (editor w) - 1)) (app w))
              = App.imageSrc (app w)) by (apply notify_entry; [exact Hc | lia]).
  split; [now apply effect_same|].
  split; [exact H | apply handleImageEdit_original].
Qed.

Lemma step_redo w :
  coherent w -> ImageEditor.canRedo (editor w) = true ->
  editor (step w Redo) = fst (ImageEditor.redo (editor w))
  /\ App.imageSrc (app (step w Redo)) = App.imageSrc (app w)
  /\ App.originalImage (app (step w Redo)) = App.originalImage (app w).
Proof.
  intros Hc Hr. pose proof Hc as [Hwf _].
  unfold step, act. cbn [handler]. unfold ImageEditor.redo. rewrite Hr.
  cbn [notifyParent foldl callParent editor app fst].
  unfold ImageEditor.wf, ImageEditor.canRedo in *. apply Nat.ltb_lt in Hr.
  assert (H : App.imageSrc
                (App.handleImageEdit
                   (ImageEditor.history (editor w)
                      !! (ImageEditor.historyIndex (editor w) + 1)) (app w))
              = App.imageSrc (app w)) by (apply notify_entry; [exact Hc | lia]).
  split; [now apply effect_same|].
  split; [exact H | apply handleImageEdit_original].
Qed.

Lemma coherent_commit w next :
  coherent w ->
  coherent
    (act (fun e => (ImageEditor.commit next e,
                    [ImageEditor.onImageChange (Some next)])) w).
Proof.
  intros (Hwf & Hc & Ho). unfold act. cbn [notifyParent foldl callParent].
  destruct (JS.isDataUrlImage next) eqn:Hv.
  - rewrite handleImageEdit_valid by exact Hv.
    destruct (String.eqb_spec (App.imageSrc (app w)) next) as [He|Hne].
    + rewrite effect_same by (cbn; congruence).
      split; cbn [editor app]; [apply commit_wf|]. split; [|exact Ho].
      intros img Hin Himg. rewrite commit_history in Hin.
      apply elem_of_app in Hin as [Hin|Hin%list_elem_of_singleton].
      * cbn. rewrite <- He. apply Hc; [|exact Himg].
        apply elem_of_take in Hin as (i & Hi & _).
        eapply list_elem_of_lookup_2; eauto.
      * cbn. exact Hin.
    + rewrite effect_changed by (cbn; congruence).
      split; cbn [editor app]; [apply reset_wf|]. split; [|exact Ho].
      intros img Hin%list_elem_of_singleton _. cbn. exact Hin.
  - rewrite handleImageEdit_invalid by exact Hv.
    rewrite effect_same by reflexivity.
    split; cbn [editor app]; [apply commit_wf|]. split; [|exact Ho].
    intros img Hin Himg. rewrite commit_history in Hin.
    apply elem_of_app in Hin as [Hin|Hin%list_elem_of_singleton].
    + apply Hc; [|exact Himg].
      apply elem_of_take in Hin as (i & Hi & _).
      eapply list_elem_of_lookup_2; eauto.
    + congruence.
Qed.

Lemma coherent_idle w :
  coherent w -> coherent (act (fun e => (e, [])) w).
Proof.
  intros Hc. unfold act. cbn [notifyParent foldl].
  rewrite effect_same by reflexivity. now destruct w.
Qed.

Lemma coherent_resetAll w : coherent w -> coherent (step w ResetAll).
Proof.
  intros (Hwf & Hc & Ho). unfold step, act.
  cbn [handler ImageEditor.confirmResetAll notifyParent foldl callParent].
  unfold App.handleResetToOriginal.
  destruct (JS.truthy (App.originalImage (app w))) eqn:Ht; cbn [fst].
  - destruct Ho as [Ho|Ho]; [rewrite Ho in Ht; discriminate|].
    destruct (String.eqb_spec (App.imageSrc (app w))
                (App.originalImage (app w))) as [He|Hne].
    + rewrite effect_same by (cbn; congruence).
      split; cbn [editor app]; [apply reset_wf|]. split; [|cbn; auto].
      intros img Hin%list_elem_of_singleton _. cbn. congruence.
    + rewrite effect_changed by (cbn; congruence).
      split; cbn [editor app]; [apply reset_wf|]. split; [|cbn; auto].
      intros img Hin%list_elem_of_singleton _. cbn. exact Hin.
  - rewrite effect_same by reflexivity.
    split; cbn [editor app]; [apply reset_wf|]. split; [|exact Ho].
    intros img Hin%list_elem_of_singleton _. exact Hin.
Qed.

Lemma step_coherent w o : coherent w -> coherent (step w o).
Proof.
  intros Hc. destruct o as [r|sel r| | |].
  - destruct r; [apply (coherent_idle w Hc)..|apply (coherent_commit w _ Hc)].
  - unfold step. cbn [handler]. unfold ImageEditor.applyCrop.
    destruct sel; cbn [negb]; [|apply (coherent_idle w Hc)].
    destruct r; [apply (coherent_idle w Hc)..|apply (coherent_commit w _ Hc)].
  - destruct (ImageEditor.canUndo (editor w)) eqn:Hu.
    + destruct (step_undo w Hc Hu) as (He & Ha & Ho).
      destruct Hc as (Hwf & Hc & Horig). split; [|split].
      * rewrite He. now apply undo_wf.
      * rewrite He, Ha. unfold ImageEditor.undo. rewrite Hu. exact Hc.
      * rewrite Ho. exact Horig.
    + unfold step. cbn [handler]. unfold act, ImageEditor.undo. rewrite Hu.
      apply (coherent_idle w Hc).
  - destruct (ImageEditor.canRedo (editor w)) eqn:Hr.
    + destruct (step_redo w Hc Hr) as (He & Ha & Ho).
      destruct Hc as (Hwf & Hc & Horig). split; [|split].
      * rewrite He. now apply redo_wf.
      * rewrite He, Ha. unfold ImageEditor.redo. rewrite Hr. exact Hc.
      * rewrite Ho. exact Horig.
    + unfold step. cbn [handler]. unfold act, ImageEditor.redo. rewrite Hr.
      apply (coherent_idle w Hc).
  - now apply coherent_resetAll.
Qed.

Lemma seeded_coherent seed :
  JS.isDataUrlImage seed = true -> coherent (seeded seed).
Proof.
  intros Hv. split; [apply reset_wf|]. split; [|right; exact Hv].
  intros img Hin%list_elem_of_singleton _. exact Hin.
Qed.

Lemma run_coherent ops w : coherent w -> coherent (run ops w).
Proof.
  revert w. induction ops as [|o ops IH]; intros w H; cbn; [exact H|].
  apply IH. now apply step_coherent.
Qed.

(** X2. Inside the wizard too, in every state the user can reach in the
    editor from an adopted image, undo followed by redo gives back the
    history, its cursor and the parent's current image. *)
Lemma wizard_undo_then_redo ops seed :
  JS.isDataUrlImage seed = true ->
  let w := run ops (seeded seed) in
  ImageEditor.canUndo (editor w) = true ->
  editor (step (step w Undo) Redo) = editor w
  /\ App.imageSrc (app (step (step w Undo) Redo)) = App.imageSrc (app w).
Proof.
  intros Hseed w Hu.
  assert (Hc : coherent w) by now apply run_coherent, seeded_coherent.
  destruct (step_undo w Hc Hu) as (He & Ha & _).
  assert (Hc1 : coherent (step w Undo)) by now apply step_coherent.
  pose proof (redo_undo (editor w) (proj1 Hc) Hu) as Hru.
  assert (Hr : ImageEditor.canRedo (editor (step w Undo)) = true).
  { rewrite He. unfold ImageEditor.redo in Hru.
    destruct (ImageEditor.canRedo (fst (ImageEditor.undo (editor w))));
      [reflexivity|].
    exfalso. inversion Hru as [[H1 H2]]. }
  destruct (step_redo _ Hc1 Hr) as (He2 & Ha2 & _).
  split.
  - rewrite He2, He, Hru. reflexivity.
  - rewrite Ha2. exact Ha.
Qed.

(** Such a state exists: a crop of an empty selection encodes to [data:,],
    which the parent refuses, so the history keeps both entries. *)
Example wizard_undo_available :
  let w := run [CropOp true (ImageEditor.Encoded "data:,")]
             (seeded "data:image/png;base64,SEED") in
  ImageEditor.history (editor w) = ["data:image/png;base64,SEED"; "data:,"]
  /\ ImageEditor.canUndo (editor w) = true
  /\ editor (step (step w Undo) Redo) = editor w.
Proof. cbv zeta. repeat split. Qed.

End EditorInWizard.

(** X2 on the history left by a crop of an empty selection. *)
Lemma wizard_undo_then_redo_witness :
  let w :=
    Wizard.run [Wizard.CropOp true (ImageEditor.Encoded "data:,")]
      (Wizard.seeded "data:image/png;base64,SEED") in
  Wizard.editor (Wizard.step (Wizard.step w Wizard.Undo) Wizard.Redo)
  = Wizard.editor w.
Proof.
  exact (proj1 (wizard_undo_then_redo
                  [Wizard.CropOp true (ImageEditor.Encoded "data:,")]
                  "data:image/png;base64,SEED" eq_refl eq_refl)).
Defined.

(** C1. For every state of the history, a commit of [next] (the update both
    [applyRotation] and [applyCrop] make) keeps the entries at indices 0 to
    the cursor, appends [next] and moves the cursor to the new last index;
    no redo is possible after it, in particular when it follows an undo,
    on the history alone as well as for the editor inside the wizard. *)
Theorem commit_truncates_appends_and_discards_redo
  (s : ImageEditor.State) (next : string) :
  let s' := ImageEditor.commit next s in
  ImageEditor.history s'
    = take (ImageEditor.historyIndex s + 1) (ImageEditor.history s) ++ [next]
  /\ length (ImageEditor.history s')
     = (Nat.min (ImageEditor.historyIndex s + 1)
          (length (ImageEditor.history s)) + 1)%nat
  /\ ImageEditor.historyIndex s' = (length (ImageEditor.history s') - 1)%nat
  /\ ImageEditor.current s' = Some next
  /\ ImageEditor.applyRotation (ImageEditor.Encoded next) s
     = (s', [ImageEditor.onImageChange (Some next)])
  /\ ImageEditor.applyCrop true (ImageEditor.Encoded next) s
     = (s', [ImageEditor.onImageChange (Some next)])
  /\ ImageEditor.canRedo s' = false
  /\ ImageEditor.canRedo
       (ImageEditor.commit next (fst (ImageEditor.undo s))) = false
  /\ (forall w : Wizard.World,
        ImageEditor.canRedo
          (Wizard.editor
             (Wizard.step (Wizard.step w Wizard.Undo)
                (Wizard.Rotation (ImageEditor.Encoded next)))) = false).
Proof.
  cbv zeta.
  split; [apply commit_history|].
  split; [rewrite commit_history, length_app, length_take; cbn [length]; lia|].
  split; [rewrite commit_index, commit_history, length_app; cbn [length]; lia|].
  split; [apply commit_current|].
  split; [reflexivity|].
  split; [reflexivity|].
  split; [apply commit_canRedo|].
  split; [apply commit_canRedo|].
  intros w. apply step_commit_canRedo.
Qed.

(** The example of the specification: [A,B,C] at cursor 2, undo, commit D. *)
Example commit_after_undo_example :
  ImageEditor.commit "D"
    (fst (ImageEditor.undo
            {| ImageEditor.history := ["A"; "B"; "C"];
               ImageEditor.historyIndex := 2 |}))
  = {| ImageEditor.history := ["A"; "B"; "D"];
       ImageEditor.historyIndex := 2 |}.
Proof. reflexivity. Qed.

(** C3. In every state of the history with a cursor inside it and an undo
    available, undo followed by redo gives back the same history and
    cursor, and redo hands the parent exactly the image that was current
    before the undo. *)
Theorem undo_then_redo_restores (s : ImageEditor.State) :
  ImageEditor.wf s ->
  ImageEditor.canUndo s = true ->
  let s1 := fst (ImageEditor.undo s) in
  fst (ImageEditor.redo s1) = s
  /\ snd (ImageEditor.redo s1)
     = [ImageEditor.onImageChange (ImageEditor.current s)]
  /\ ImageEditor.current (fst (ImageEditor.redo s1)) = ImageEditor.current s.
Proof.
  intros Hwf Hu. cbv zeta. rewrite (redo_undo s Hwf Hu). cbn. auto.
Qed.

(** C3 on the history [A,B,C] at cursor 2. *)
Lemma undo_then_redo_restores_witness :
  fst (ImageEditor.redo
         (fst (ImageEditor.undo
                 {| ImageEditor.history := ["A"; "B"; "C"];
                    ImageEditor.historyIndex := 2 |})))
  = {| ImageEditor.history := ["A"; "B"; "C"];
       ImageEditor.historyIndex := 2 |}.
Proof.
  refine (proj1 (undo_then_redo_restores
                   {| ImageEditor.history := ["A"; "B"; "C"];
                      ImageEditor.historyIndex := 2 |} _ _)).
  - unfold ImageEditor.wf. cbn. lia.
  - reflexivity.
Defined.


(** C2. The editor seeded with an image, then one rotation applied: the
    editor notifies the parent, the parent's [imageSrc] becomes the rotated
    image, and the effect on [imageSrc] replaces the history by the rotated
    image alone. The entry at index 0 is then no longer the seed. *)
Theorem commit_replaces_seed :
  let seed := "data:image/png;base64,SEED" in
  let rotated := "data:image/jpeg;base64,ROTATED" in
  let w := Wizard.run [Wizard.Rotation (ImageEditor.Encoded rotated)]
             (Wizard.seeded seed) in
  ImageEditor.history (Wizard.editor (Wizard.seeded seed)) = [seed]
  /\ ImageEditor.history (Wizard.editor w) = [rotated]
  /\ ImageEditor.historyIndex (Wizard.editor w) = 0%nat
  /\ ImageEditor.history (Wizard.editor w) !! 0%nat = Some rotated
  /\ ImageEditor.canUndo (Wizard.editor w) = false
  /\ length (ImageEditor.history (Wizard.editor w)) = 1%nat.
Proof. cbv zeta. repeat split. Qed.

(** ** The image versions *)

Section Versions.

Import App.

Implicit Types (st : State) (b : Api.Browser) (ev : Session.Event).

Lemma handleProcessOCR_images fetch server st b :
  let st' := fst (fst (handleProcessOCR fetch server st b)) in
  imageSrc st' = imageSrc st /\ originalImage st' = originalImage st
  /\ editedImage st' = editedImage st /\ enhancedImage st' = enhancedImage st.
Proof.
  unfold handleProcessOCR.
  destruct (JS.truthy (imageSrc st)); cbn [negb]; [|cbn; auto].
  cbn [imageSrc setLoading].
  destruct (fetch (imageSrc st)) as [blob|e]; [|cbn; auto].
  destruct (isReverso _);
    match goal with |- context [?f server ?x b] =>
      destruct (f server x b) as [[data|e] b'] end; cbn; auto.
Qed.

Lemma handleEnhanceImage_slots fetch server reader st b :
  let st' := fst (fst (handleEnhanceImage fetch server reader st b)) in
  imageSrc st' = imageSrc st /\ originalImage st' = originalImage st
  /\ editedImage st' = editedImage st.
Proof.
  unfold handleEnhanceImage.
  destruct (JS.truthy (imageSrc st)); cbn [negb]; [|cbn; auto].
  cbn [imageSrc setEnhancing].
  destruct (fetch (imageSrc st)) as [blob|e]; [|cbn; auto].
  destruct (Api.enhanceImage server (enhanceFile blob) b) as [[data|e] b'];
    [|cbn; auto].
  destruct (reader data) as [enh|]; [|cbn; auto].
  destruct (JS.isDataUrlImage enh); cbn; auto.
Qed.

Lemma handleNext_images fetch server st b :
  let st' := fst (fst (handleNext fetch server st b)) in
  imageSrc st' = imageSrc st /\ originalImage st' = originalImage st
  /\ editedImage st' = editedImage st /\ enhancedImage st' = enhancedImage st.
Proof.
  unfold handleNext.
  destruct (activeStep st =? 1)%Z.
  - destruct (JS.isDataUrlImage _); cbn; auto.
  - destruct (activeStep st =? 2)%Z; [apply handleProcessOCR_images|cbn; auto].
Qed.

(** The later part of [handleProcessOCR] writes none of the four image
    slots. *)
Lemma processEnds_images src reverso fetch server st b :
  let st' := fst (fst (Interleaved.processEnds src reverso fetch server st b)) in
  imageSrc st' = imageSrc st /\ originalImage st' = originalImage st
  /\ editedImage st' = editedImage st /\ enhancedImage st' = enhancedImage st.
Proof.
  unfold Interleaved.processEnds.
  destruct (fetch src) as [blob|e]; [|cbn; auto].
  destruct reverso;
    match goal with |- context [?f server ?x b] =>
      destruct (f server x b) as [[data|e] b'] end; cbn; auto.
Qed.




End Versions.







(** C6, amended. Selecting the enhanced version when there is none changes
    nothing and raises no notification at all; when there is one, it becomes
    the current image, the three slots keep their values, and one
    informative toast is raised. *)
Theorem select_enhanced (st : App.State) :
  (App.enhancedImage st = "" ->
   App.handleSelectImage App.enhanced st = (st, []))
  /\ (App.enhancedImage st <> "" ->
      let st' := fst (App.handleSelectImage App.enhanced st) in
      App.imageSrc st' = App.enhancedImage st
      /\ App.enhancedImage st' = App.enhancedImage st
      /\ App.originalImage st' = App.originalImage st
      /\ App.editedImage st' = App.editedImage st
      /\ snd (App.handleSelectImage App.enhanced st)
         = [App.toast Info "✨ Usando imagen mejorada por IA"]).
Proof.
  unfold App.handleSelectImage. split.
  - intros He. rewrite He. reflexivity.
  - intros Hne. apply truthy_true in Hne. rewrite Hne. cbv zeta.
    rewrite Hne. cbn. auto.
Qed.

(** C6 on a state whose enhanced slot is filled. *)
Lemma select_enhanced_witness :
  App.imageSrc
    (fst (App.handleSelectImage App.enhanced
            (App.setEnhancedImage "data:image/png;base64,E"
               (App.adopt "data:image/png;base64,S" App.initial))))
  = "data:image/png;base64,E".
Proof.
  refine (proj1 (proj2 (select_enhanced
                          (App.setEnhancedImage "data:image/png;base64,E"
                             (App.adopt "data:image/png;base64,S"
                                App.initial))) _)).
  discriminate.
Defined.

(** C6 as stated fails: with no enhanced version, selecting it returns the
    state unchanged and an empty list of notifications: nothing is
    signalled. *)
Lemma select_enhanced_absent_is_silent :
  let st := App.adopt "data:image/png;base64,S" App.initial in
  App.enhancedImage st = ""
  /\ App.handleSelectImage App.enhanced st = (st, [])
  /\ existsb is_error (snd (App.handleSelectImage App.enhanced st)) = false.
Proof. cbv zeta. repeat split. Qed.

(** ** The OCR request *)

Section ProcessOCR.

Variable fetch : App.Fetch.
Variable server : Api.Server.
Variable st : App.State.
Variable b : Api.Browser.

(** There is an image to process. *)
Hypothesis has_image : JS.truthy (App.imageSrc st) = true.


Lemma endpoint_is_post :
  (if App.isReverso (App.setLoading true st)
   then Api.processReverso server else Api.processAnverso server)
  = Api.post server (App.ocrRoute st).
Proof. unfold App.ocrRoute. cbn. now destruct (App.isReverso st). Qed.

Lemma handleProcessOCR_fetched blob :
  fetch (App.imageSrc st) = Resolved blob ->
  App.handleProcessOCR fetch server st b
  = match Api.post server (App.ocrRoute st) (App.ocrFile blob) b with
    | (Resolved data, b') =>
        (App.setLoading false
           (App.setActiveStep 3
              (App.setOcrData (Some data) (App.setLoading true st))),
         [App.toast Success "✅ OCR procesado correctamente"], b')
    | (Rejected e, b') =>
        (App.setLoading false (App.setLoading true st),
         [App.ocrErrorToast e], b')
    end.
Proof.
  intros Hf. unfold App.handleProcessOCR. rewrite has_image. cbn [negb].
  cbn [App.imageSrc App.setLoading]. rewrite Hf.
  change (App.isReverso
            {| App.activeStep := App.activeStep st;
               App.imageSrc := App.imageSrc st;
               App.originalImage := App.originalImage st;
               App.editedImage := App.editedImage st;
               App.enhancedImage := App.enhancedImage st;
               App.ocrData := App.ocrData st;
               App.isReverso := App.isReverso st;
               App.loading := true;
               App.enhancing := App.enhancing st;
               App.isImageLoading := App.isImageLoading st |})
    with (App.isReverso (App.setLoading true st)).
  rewrite endpoint_is_post. reflexivity.
Qed.

Lemma ocrErrorToast_is_error e : is_error (App.ocrErrorToast e) = true.
Proof. unfold App.ocrErrorToast. now destruct (String.eqb _ _). Qed.

Lemma interceptor_sent e b0 :
  Api.sent (snd (Api.responseInterceptor e b0)) = Api.sent b0.
Proof.
  unfold Api.responseInterceptor.
  destruct (Api.isTimeout e); [reflexivity|].
  destruct (Api.isUnauthorized e); [|reflexivity].
  cbn [snd]. now destruct (negb _).
Qed.

Lemma handleProcessOCR_promise :
  Promise.handleProcessOCR fetch server st b
  = (Promise.Normal, App.handleProcessOCR fetch server st b).
Proof.
  unfold Promise.handleProcessOCR, App.handleProcessOCR,
    Promise.tryCatchFinally.
  destruct (JS.truthy (App.imageSrc st)); cbn [negb]; [|reflexivity].
  cbn [App.imageSrc App.isReverso App.setLoading].
  destruct (fetch (App.imageSrc st)) as [blob|e]; [|reflexivity].
  destruct (App.isReverso st);
    match goal with |- context [?f server ?x b] =>
      destruct (f server x b) as [[data|e] b'] end; reflexivity.
Qed.

(** C7, amended. With an image to process, [handleProcessOCR] sends one
    request, to [/ocr] or, in reverse mode, to [/ocrreverso], with the file
    [ine.jpg] of type [image/jpeg] that holds the bytes of the current
    image. If the server answers, the answer is stored, the step becomes 3
    and a success toast is raised. If the request fails, or the image cannot
    be fetched, the step and the stored answer are what they were and
    exactly one error toast is raised: for a timeout it carries the message
    of the interceptor, for any other error it is prefixed as an OCR error.
    In every case [loading] ends false and the promise of the handler is
    fulfilled: the error is caught and shown, and nothing is thrown to the
    caller. *)
Theorem process_ocr_outcomes :
  let result := App.handleProcessOCR fetch server st b in
  let st' := fst (fst result) in
  let toasts := snd (fst result) in
  let b' := snd result in
  let route := if App.isReverso st then "/ocrreverso" else "/ocr" in
  Promise.handleProcessOCR fetch server st b = (Promise.Normal, result)
  /\ App.loading st' = false
  /\ (forall blob, fetch (App.imageSrc st) = Resolved blob ->
      let file :=
        {| file_name := "ine.jpg"; file_type := "image/jpeg";
           file_size := Z.of_nat (String.length blob);
           file_content := blob |} in
      Api.sent b' = (route, file) :: Api.sent b
      /\ (forall data, server route file = Resolved data ->
          App.ocrData st' = Some data /\ App.activeStep st' = 3%Z
          /\ toasts = [App.toast Success "✅ OCR procesado correctamente"])
      /\ (forall e, server route file = Rejected e ->
          App.activeStep st' = App.activeStep st
          /\ App.ocrData st' = App.ocrData st
          /\ (exists t, toasts = [t] /\ is_error t = true)
          /\ (Api.isTimeout e = true ->
              toasts = [App.toast Error
                          (String.append "❌ " Api.timeoutMessage)])
          /\ (Api.isTimeout e = false -> Api.isUnauthorized e = true ->
              toasts = [App.toast Error
                          (String.append "❌ Error en OCR: "
                             (Api.err_message Api.authError))])
          /\ (Api.isTimeout e = false -> Api.isUnauthorized e = false ->
              Api.ax_name e <> "TimeoutError" ->
              toasts = [App.toast Error
                          (String.append "❌ Error en OCR: "
                             (if JS.truthy (Api.ax_message e)
                              then Api.ax_message e
                              else "Error desconocido"))])))
  /\ (forall e, fetch (App.imageSrc st) = Rejected e ->
      Api.sent b' = Api.sent b
      /\ App.activeStep st' = App.activeStep st
      /\ App.ocrData st' = App.ocrData st
      /\ toasts = [App.ocrErrorToast e]
      /\ is_error (App.ocrErrorToast e) = true).
Proof.
  cbv zeta. split; [apply handleProcessOCR_promise|]. split.
  { unfold App.handleProcessOCR. rewrite has_image. cbn [negb].
    cbn [App.imageSrc App.isReverso App.setLoading].
    destruct (fetch (App.imageSrc st)) as [blob|e]; [|reflexivity].
    destruct (App.isReverso st);
      match goal with |- context [?f server ?x b] =>
        destruct (f server x b) as [[data|e] b'] end; reflexivity. }
  split.
  - intros blob Hf. rewrite (handleProcessOCR_fetched blob Hf).
    change (if App.isReverso st then "/ocrreverso" else "/ocr")
      with (App.ocrRoute st).
    change {| file_name := "ine.jpg"; file_type := "image/jpeg";
              file_size := Z.of_nat (String.length blob);
              file_content := blob |}
      with (App.ocrFile blob).
    unfold Api.post.
    destruct (server (App.ocrRoute st) (App.ocrFile blob)) as [data|e] eqn:Hs.
    + cbn. split; [reflexivity|]. split.
      * intros d [= <-]. auto.
      * intros e [=].
    + set (b0 := Api.send (App.ocrRoute st) (App.ocrFile blob) b).
      pose proof (interceptor_sent e b0) as Hsent.
      destruct (Api.responseInterceptor e b0) as [e' b1] eqn:Hi.
      cbn [fst snd] in *. split; [exact Hsent|]. split; [intros d [=]|].
      intros e0 [= <-]. split; [reflexivity|]. split; [reflexivity|].
      split; [eexists; split; [reflexivity|apply ocrErrorToast_is_error]|].
      unfold Api.responseInterceptor in Hi. split; [|split].
      * intros Ht. rewrite Ht in Hi. injection Hi as <- <-. reflexivity.
      * intros Ht Hu. rewrite Ht, Hu in Hi. injection Hi as <- _.
        reflexivity.
      * intros Ht Hu Hn. rewrite Ht, Hu in Hi. injection Hi as <- <-.
        unfold App.ocrErrorToast. cbn [Api.err_name Api.err_message].
        now rewrite (proj2 (String.eqb_neq _ _) Hn).
  - intros e Hf. unfold App.handleProcessOCR. rewrite has_image. cbn [negb].
    cbn [App.imageSrc App.setLoading]. rewrite Hf. cbn.
    repeat split. apply ocrErrorToast_is_error.
Qed.

End ProcessOCR.

(** C7 at the preview step, against a server that times out: the request
    sent, the state kept and the toast raised. *)
Lemma process_ocr_outcomes_witness :
  JS.truthy (App.imageSrc previewState) = true
  /\ (let result :=
        App.handleProcessOCR fetchDataUrl timingOutServer previewState
          freshBrowser in
      Api.sent (snd result)
      = [("/ocr",
          {| file_name := "ine.jpg"; file_type := "image/jpeg";
             file_size := 23; file_content := "data:image/png;base64,S" |})]
      /\ App.activeStep (fst (fst result)) = 2%Z
      /\ App.ocrData (fst (fst result)) = None
      /\ App.loading (fst (fst result)) = false
      /\ snd (fst result)
         = [App.toast Error (String.append "❌ " Api.timeoutMessage)]).
Proof.
  split; [reflexivity|]. cbv zeta.
  pose proof (process_ocr_outcomes fetchDataUrl timingOutServer previewState
                freshBrowser eq_refl) as (_ & Hl & H & _).
  destruct (H _ eq_refl) as (Hsent & _ & Hfail).
  destruct (Hfail _ eq_refl) as (H1 & H2 & _ & H3 & _).
  split; [exact Hsent|]. split; [exact H1|]. split; [exact H2|].
  split; [exact Hl | exact (H3 eq_refl)].
Defined.

(** C7 as stated fails in its last part: against a server that times out,
    and against one that answers 401, the promise of the handler is
    fulfilled exactly as against a server that answers. The caller is
    thrown nothing and returned nothing; the error is the text of a
    toast. *)
Lemma ocr_failure_is_not_thrown :
  fst (Promise.handleProcessOCR fetchDataUrl timingOutServer previewState
         freshBrowser) = Promise.Normal
  /\ fst (Promise.handleProcessOCR fetchDataUrl unauthorizedServer
            previewState freshBrowser) = Promise.Normal
  /\ fst (Promise.handleProcessOCR fetchDataUrl sampleServer previewState
            freshBrowser) = Promise.Normal
  /\ snd (fst (snd (Promise.handleProcessOCR fetchDataUrl timingOutServer
                      previewState freshBrowser)))
     = [App.toast Error (String.append "❌ " Api.timeoutMessage)]
  /\ snd (fst (snd (Promise.handleProcessOCR fetchDataUrl unauthorizedServer
                      previewState freshBrowser)))
     = [App.toast Error
          "❌ Error en OCR: 🔐 Tu sesión ha expirado. Por favor, inicia sesión nuevamente."].
Proof. repeat split. Qed.

(** ** The uploader *)




(** ** Reading back a printed integer *)

Section ParseInt.

Local Open Scope N_scope.

Lemma digit_cases (d : N) :
  d < 10 ->
  d = 0 \/ d = 1 \/ d = 2 \/ d = 3 \/ d = 4 \/ d = 5 \/ d = 6 \/ d = 7
  \/ d = 8 \/ d = 9.
Proof. lia. Qed.

Ltac each_digit H :=
  apply digit_cases in H;
  repeat (destruct H as [H|H]); subst.

Lemma digitValue_digitChar (d : N) :
  d < 10 -> JS.digitValue 10 (JS.digitChar d) = Some d.
Proof. intros H. each_digit H; reflexivity. Qed.

(** Reading the digits of [n] gives [n], whatever follows them. *)
Lemma parseDigits_digitsOf (fuel : nat) :
  forall (n : N) (acc : string),
    n < 10 ^ N.of_nat (S fuel) ->
    JS.parseDigits 10 (JS.digitsOf fuel n acc) None
    = JS.parseDigits 10 acc (Some n).
Proof.
  assert (Hone : forall n acc, n < 10 ->
            JS.parseDigits 10 (String (JS.digitChar (n mod 10)) acc) None
            = JS.parseDigits 10 acc (Some n)).
  { intros n acc Hn. rewrite N.mod_small by exact Hn.
    cbn [JS.parseDigits]. rewrite digitValue_digitChar by exact Hn.
    reflexivity. }
  induction fuel as [|fuel IH]; intros n acc Hn.
  - cbn [JS.digitsOf]. apply Hone. exact Hn.
  - cbn [JS.digitsOf]. destruct (N.ltb_spec n 10) as [Hlt|Hge].
    + apply Hone. exact Hlt.
    + rewrite IH.
      * cbn [JS.parseDigits].
        rewrite digitValue_digitChar by (apply N.mod_lt; lia).
        cbn [default]. unfold id. f_equal. f_equal.
        rewrite N.mul_comm. symmetry. apply N.div_mod. lia.
      * apply N.Div0.div_lt_upper_bound.
        rewrite <- N.pow_succ_r'. rewrite <- Nat2N.inj_succ. exact Hn.
Qed.

(** The printed digits start with a digit, followed by nothing or by
    another digit. *)
Lemma digitsOf_shape (fuel : nat) :
  forall (n : N) (acc : string),
    exists d r, d < 10 /\ JS.digitsOf fuel n acc = String (JS.digitChar d) r
      /\ (r = acc \/ exists d2 r2, d2 < 10 /\ r = String (JS.digitChar d2) r2).
Proof.
  assert (Hone : forall n acc,
            exists d r, d < 10
              /\ String (JS.digitChar (n mod 10)) acc = String (JS.digitChar d) r
              /\ (r = acc
                  \/ exists d2 r2, d2 < 10 /\ r = String (JS.digitChar d2) r2)).
  { intros n acc. exists (n mod 10), acc.
    split; [apply N.mod_lt; lia|]. auto. }
  induction fuel as [|fuel IH]; intros n acc; cbn [JS.digitsOf];
    [apply Hone|].
  destruct (n <? 10); [apply Hone|].
  destruct (IH (n / 10) (String (JS.digitChar (n mod 10)) acc))
    as (d & r & Hd & Heq & Hr).
  exists d, r. split; [exact Hd|]. split; [exact Heq|]. right.
  destruct Hr as [->|Hr]; [|exact Hr].
  exists (n mod 10), acc. split; [apply N.mod_lt; lia | reflexivity].
Qed.

(** Nothing is trimmed in front of an ASCII character that is not white
    space. *)
Lemma trimStart_ascii (c : ascii) (r : string) :
  JS.isWhiteSpace c = false -> (N_of_ascii c <? 128) = true ->
  JS.trimStart (String c r) = String c r.
Proof.
  intros Hw Ha. cbn [JS.trimStart]. rewrite Hw.
  apply N.ltb_lt in Ha.
  destruct r as [|c2 r2]; [reflexivity|].
  unfold JS.isWhiteSpace2.
  rewrite (proj2 (N.eqb_neq (N_of_ascii c) 194)) by lia. cbn [andb].
  destruct r2 as [|c3 r3]; [reflexivity|].
  unfold JS.isWhiteSpace3.
  rewrite (proj2 (N.eqb_neq (N_of_ascii c) 225)) by lia.
  rewrite (proj2 (N.eqb_neq (N_of_ascii c) 226)) by lia.
  rewrite (proj2 (N.eqb_neq (N_of_ascii c) 227)) by lia.
  rewrite (proj2 (N.eqb_neq (N_of_ascii c) 239)) by lia.
  reflexivity.
Qed.

(** On such a string [parseInt] reads the digits in radix 10. *)
Lemma parseInteger_digits (d : N) (r : string) :
  d < 10 ->
  (r = "" \/ exists d2 r2, d2 < 10 /\ r = String (JS.digitChar d2) r2) ->
  JS.parseInteger (String (JS.digitChar d) r)
  = match JS.parseDigits 10 (String (JS.digitChar d) r) None with
    | Some n => Some (1 * Z.of_N n)%Z
    | None => None
    end
  /\ JS.parseInteger (String "-" (String (JS.digitChar d) r))
     = match JS.parseDigits 10 (String (JS.digitChar d) r) None with
       | Some n => Some (-1 * Z.of_N n)%Z
       | None => None
       end.
Proof.
  intros Hd [->|(d2 & r2 & Hd2 & ->)].
  - each_digit Hd; split; reflexivity.
  - each_digit Hd; each_digit Hd2; split; unfold JS.parseInteger;
      rewrite trimStart_ascii by (vm_compute; reflexivity); reflexivity.
Qed.

Lemma log2_fuel (m : N) : m < 10 ^ N.of_nat (S (N.to_nat (N.log2 m))).
Proof.
  rewrite Nat2N.inj_succ, N2Nat.id.
  destruct (N.eq_dec m 0) as [->|Hm]; [reflexivity|].
  apply N.lt_le_trans with (2 ^ N.succ (N.log2 m)).
  - apply N.log2_spec. lia.
  - apply N.pow_le_mono_l. lia.
Qed.

(** [parseInt] reads back the decimal notation of an integer. *)
Lemma parseInteger_integerToString (z : Z) :
  JS.parseInteger (JS.integerToString z) = Some z.
Proof.
  unfold JS.integerToString.
  set (m := Z.to_N (Z.abs z)).
  destruct (digitsOf_shape (N.to_nat (N.log2 m)) m "")
    as (d & r & Hd & Heq & Hr).
  pose proof (parseDigits_digitsOf _ m "" (log2_fuel m)) as Hp.
  rewrite Heq in Hp |- *.
  change (JS.parseDigits 10 "" (Some m)) with (Some m) in Hp.
  destruct (parseInteger_digits d r Hd Hr) as [Hpos Hneg].
  destruct (Z.ltb_spec z 0).
  - rewrite Hneg, Hp. f_equal. unfold m. lia.
  - rewrite Hpos, Hp. f_equal. unfold m. lia.
Qed.

Lemma integerToString_truthy (z : Z) :
  JS.truthy (JS.integerToString z) = true.
Proof.
  unfold JS.integerToString.
  destruct (digitsOf_shape (N.to_nat (N.log2 (Z.to_N (Z.abs z))))
              (Z.to_N (Z.abs z)) "") as (d & r & _ & -> & _).
  now destruct (z <? 0)%Z.
Qed.

End ParseInt.

(** ** Numbers *)

Section Numbers.

Local Open Scope Z_scope.

(** Below 2^53 an integer is its own Number value. *)
Lemma toNumber_safe (z : Z) :
  Z.abs z < JS.two53 -> JS.toNumber z = JS.Finite z.
Proof.
  intros H. unfold JS.toNumber.
  now rewrite (proj2 (Z.ltb_lt _ _) H).
Qed.

(** From 2^53 on, rounding stays at or above 2^53. *)
Lemma roundMagnitude_large (a : Z) :
  JS.two53 <= a -> JS.two53 <= JS.roundMagnitude a.
Proof.
  intros Ha. unfold JS.roundMagnitude.
  assert (Hpos : 0 < a) by (unfold JS.two53 in Ha; lia).
  assert (Hlog : 53 <= Z.log2 a).
  { change 53 with (Z.log2 JS.two53). now apply Z.log2_le_mono. }
  destruct (Z.log2_spec a Hpos) as [Hlow _].
  set (k := Z.log2 a - 52) in *.
  assert (Hk : 1 <= k) by (unfold k; lia).
  assert (H2k : 0 < 2 ^ k) by (apply Z.pow_pos_nonneg; lia).
  assert (Hsplit : 2 ^ Z.log2 a = 2 ^ k * 2 ^ 52).
  { rewrite <- Z.pow_add_r by lia. f_equal. unfold k. lia. }
  assert (Hq : 2 ^ 52 <= a / 2 ^ k).
  { apply Z.div_le_lower_bound; [exact H2k|]. lia. }
  assert (H53 : JS.two53 <= 2 ^ Z.log2 a).
  { change JS.two53 with (2 ^ 53). apply Z.pow_le_mono_r; lia. }
  set (q := a / 2 ^ k) in *.
  set (up := (a mod 2 ^ k <? 2 ^ (k - 1))
             || ((a mod 2 ^ k =? 2 ^ (k - 1)) && Z.even q)).
  assert (Hq' : q <= (if up then q else q + 1)) by (destruct up; lia).
  set (q' := if up then q else q + 1) in *.
  assert (2 ^ 52 * 2 ^ k <= q' * 2 ^ k) by nia.
  lia.
Qed.

Lemma toNumber_large (z : Z) :
  JS.two53 <= z ->
  JS.toNumber z = JS.Infinity false
  \/ exists m, JS.toNumber z = JS.Finite m /\ JS.two53 <= m.
Proof.
  intros Hz. unfold JS.toNumber.
  assert (Hp : 0 < z) by (unfold JS.two53 in Hz; lia).
  rewrite Z.abs_eq by lia.
  rewrite (proj2 (Z.ltb_ge _ _) Hz).
  rewrite (proj2 (Z.ltb_ge z 0)) by lia.
  destruct (2 ^ 1024 <=? JS.roundMagnitude z); [left; reflexivity|].
  right. eexists. split; [reflexivity|]. now apply roundMagnitude_large.
Qed.

Lemma toNumber_large_neg (z : Z) :
  z <= - JS.two53 ->
  JS.toNumber z = JS.Infinity true
  \/ exists m, JS.toNumber z = JS.Finite m /\ m <= - JS.two53.
Proof.
  intros Hz. unfold JS.toNumber.
  assert (Hn : z < 0) by (unfold JS.two53 in Hz; lia).
  rewrite Z.abs_neq by lia.
  rewrite (proj2 (Z.ltb_ge (- z) JS.two53)) by lia.
  rewrite (proj2 (Z.ltb_lt z 0)) by lia.
  destruct (2 ^ 1024 <=? JS.roundMagnitude (- z)); [left; reflexivity|].
  right. eexists. split; [reflexivity|].
  pose proof (roundMagnitude_large (- z)). lia.
Qed.

(** A Number below 2^53 in magnitude is the value of one integer only. *)
Lemma toNumber_inv_safe (v a : Z) :
  JS.toNumber v = JS.Finite a -> Z.abs a < JS.two53 -> v = a.
Proof.
  intros Hv Ha.
  destruct (Z.lt_ge_cases (Z.abs v) JS.two53) as [Hs|Hl].
  - rewrite (toNumber_safe v Hs) in Hv. now injection Hv.
  - exfalso. destruct (Z.le_ge_cases 0 v) as [H0|H0].
    + rewrite Z.abs_eq in Hl by exact H0.
      destruct (toNumber_large v Hl) as [H|(m & H & Hm)];
        rewrite H in Hv; [discriminate|].
      injection Hv as <-. lia.
    + rewrite Z.abs_neq in Hl by exact H0.
      destruct (toNumber_large_neg v ltac:(lia)) as [H|(m & H & Hm)];
        rewrite H in Hv; [discriminate|].
      injection Hv as <-. lia.
Qed.

(** Comparing a time with the Number value of any integer is comparing the
    integers. *)
Lemma lt_toNumber (now z : Z) :
  Z.abs now < JS.two53 ->
  JS.lt (JS.toNumber now) (JS.toNumber z) = (now <? z).
Proof.
  intros Hnow. rewrite (toNumber_safe now Hnow).
  destruct (Z.lt_ge_cases (Z.abs z) JS.two53) as [Hs|Hl].
  - now rewrite (toNumber_safe z Hs).
  - destruct (Z.le_ge_cases 0 z) as [H0|H0].
    + rewrite Z.abs_eq in Hl by exact H0.
      assert (Hlt : (now <? z) = true) by (apply Z.ltb_lt; lia).
      rewrite Hlt.
      destruct (toNumber_large z Hl) as [H|(m & H & Hm)]; rewrite H; cbn;
        [reflexivity | apply Z.ltb_lt; lia].
    + rewrite Z.abs_neq in Hl by exact H0.
      assert (Hlt : (now <? z) = false) by (apply Z.ltb_ge; lia).
      rewrite Hlt.
      destruct (toNumber_large_neg z ltac:(lia)) as [H|(m & H & Hm)];
        rewrite H; cbn; [reflexivity | apply Z.ltb_ge; lia].
Qed.

Lemma candidate_isDouble (a d k v : Z) :
  JS.candidate a d k = Some v -> JS.isDouble (JS.toNumber v) a = true.
Proof.
  unfold JS.candidate.
  set (p := 10 ^ (d - k)). set (low := a / p * p).
  destruct (JS.isDouble (JS.toNumber low) a) eqn:Hl;
    destruct (JS.isDouble (JS.toNumber (low + p)) a) eqn:Hh; cbn [andb].
  - destruct (a - low <? low + p - a); [now intros [= <-]|].
    destruct (low + p - a <? a - low); [now intros [= <-]|].
    destruct (Z.even _); now intros [= <-].
  - now intros [= <-].
  - now intros [= <-].
  - discriminate.
Qed.

(** Below 2^53 [toString] prints the integer itself. *)
Lemma shortest_safe (a : Z) : Z.abs a < JS.two53 -> JS.shortest a = a.
Proof.
  intros Ha. unfold JS.shortest.
  generalize (Z.of_nat (String.length (JS.integerToString a))) at 2 as d.
  generalize 1 as k.
  generalize (Z.to_nat (Z.of_nat (String.length (JS.integerToString a))))
    as fuel.
  induction fuel as [|fuel IH]; intros k d; cbn [JS.shortestFrom];
    [reflexivity|].
  destruct (JS.candidate a d k) as [v|] eqn:Hc; [|apply IH].
  apply candidate_isDouble in Hc. unfold JS.isDouble in Hc.
  destruct (JS.toNumber v) as [m| |] eqn:Hv; try discriminate.
  apply Z.eqb_eq in Hc. subst m. now apply toNumber_inv_safe in Hv.
Qed.

Lemma numberToString_safe (z : Z) :
  Z.abs z < JS.two53 ->
  JS.numberToString (JS.Finite z) = JS.integerToString z.
Proof.
  intros Hz. unfold JS.numberToString.
  rewrite shortest_safe by (rewrite Z.abs_idemp; exact Hz).
  assert (H21 : (Z.abs z <? 10 ^ 21) = true).
  { apply Z.ltb_lt. change (10 ^ 21) with 1000000000000000000000.
    unfold JS.two53 in Hz. lia. }
  rewrite H21. unfold JS.integerToString.
  rewrite Z.abs_idemp.
  destruct (Z.ltb_spec z 0) as [Hn|Hp].
  - now rewrite (proj2 (Z.ltb_ge (Z.abs z) 0)) by lia.
  - now rewrite (proj2 (Z.ltb_ge (Z.abs z) 0)) by lia.
Qed.

(** [parseInt] reads back what [toString] prints for an integer below
    2^53. *)
Lemma parseInt_numberToString (z : Z) :
  Z.abs z < JS.two53 ->
  JS.parseInt (JS.numberToString (JS.Finite z)) = JS.Finite z.
Proof.
  intros Hz. rewrite (numberToString_safe z Hz). unfold JS.parseInt.
  rewrite parseInteger_integerToString. now apply toNumber_safe.
Qed.

End Numbers.

(** What [toString] and [parseInt] do beyond 2^53: an expiry of 1e21
    milliseconds is printed with an exponent, and read back as 1. *)
Example toString_exponent :
  JS.numberToString (JS.toNumber (10 ^ 21)) = "1e+21"
  /\ JS.parseInt "1e+21" = JS.Finite 1
  /\ JS.numberToString (JS.toNumber (2 ^ 60)) = "1152921504606847000"
  /\ JS.toNumber (2 ^ 53 + 1) = JS.Finite (2 ^ 53).
Proof. repeat split; vm_compute; reflexivity. Qed.

(** White space that is not ASCII is skipped as well: a no-break space in
    front of the digits, and a line separator. *)
Example parseInt_skips_unicode_space :
  JS.parseInt " 1700000000000" = JS.Finite 1700000000000
  /\ JS.parseInt " 42" = JS.Finite 42
  /\ JS.trim "  　" = "".
Proof. repeat split; vm_compute; reflexivity. Qed.

(** ** The session check *)

Section SessionCheck.

Local Open Scope Z_scope.

Lemma isSessionActive_stored (b : Api.Browser) (now : Z)
  (token expiry : string) :
  Api.getItem "jwt_token" b = Some token ->
  Api.getItem "token_expiry" b = Some expiry ->
  Api.isSessionActive b now
  = JS.truthy token && JS.truthy expiry
    && JS.lt (JS.toNumber now)
         (JS.sub (JS.parseInt expiry) (JS.toNumber 60000)).
Proof.
  intros Ht He. unfold Api.isSessionActive. rewrite Ht, He. cbn.
  destruct (JS.truthy token), (JS.truthy expiry); reflexivity.
Qed.

(** The session check in integers, for a time below 2^53. *)
Lemma lt_expiry (now : Z) (x : JS.number) :
  Z.abs now < JS.two53 ->
  JS.lt (JS.toNumber now) (JS.sub x (JS.toNumber 60000))
  = match x with
    | JS.Finite expiryTime => now <? expiryTime - 60000
    | JS.Infinity negative => negb negative
    | JS.NaN => false
    end.
Proof.
  intros Hnow. destruct x as [n|s|].
  - change (JS.sub (JS.Finite n) (JS.toNumber 60000))
      with (JS.toNumber (n + - 60000)).
    now rewrite (lt_toNumber now _ Hnow).
  - rewrite (toNumber_safe now Hnow). reflexivity.
  - rewrite (toNumber_safe now Hnow). reflexivity.
Qed.

Lemma storeLogin_items (token token_laravel user : string)
  (expires_in t0 : Z) (b0 : Api.Browser) :
  let b := Api.storeLogin token token_laravel user expires_in t0 b0 in
  Api.getItem "jwt_token" b = Some token
  /\ Api.getItem "token_expiry" b
     = Some (JS.numberToString
               (JS.add (JS.toNumber t0)
                  (JS.mul (JS.toNumber expires_in) (JS.toNumber 1000)))).
Proof.
  cbv zeta. unfold Api.storeLogin, Api.getItem, Api.setItem.
  cbn [Api.localStorage]. split; now simplify_map_eq.
Qed.

(** As long as the seconds, the milliseconds and the expiry stay below
    2^53, the expiry a login stores is the decimal notation of
    [t0 + expires_in * 1000]. *)
Lemma stored_expiry (expires_in t0 : Z) :
  Z.abs t0 < JS.two53 -> Z.abs expires_in < JS.two53 ->
  Z.abs (expires_in * 1000) < JS.two53 ->
  Z.abs (t0 + expires_in * 1000) < JS.two53 ->
  JS.add (JS.toNumber t0)
    (JS.mul (JS.toNumber expires_in) (JS.toNumber 1000))
  = JS.Finite (t0 + expires_in * 1000).
Proof.
  intros H0 H1 H2 H3.
  rewrite (toNumber_safe t0 H0), (toNumber_safe expires_in H1).
  change (JS.toNumber 1000) with (JS.Finite 1000). cbn [JS.mul].
  rewrite (toNumber_safe _ H2). cbn [JS.add]. now apply toNumber_safe.
Qed.

(** After a login at time [t0] with a token that is not empty, the session
    is active exactly until one minute before [t0 + expires_in * 1000]. *)
Lemma isSessionActive_after_login (token token_laravel user : string)
  (expires_in t0 now : Z) (b0 : Api.Browser) :
  token <> "" ->
  Z.abs now < JS.two53 -> Z.abs t0 < JS.two53 ->
  Z.abs expires_in < JS.two53 ->
  Z.abs (expires_in * 1000) < JS.two53 ->
  Z.abs (t0 + expires_in * 1000) < JS.two53 ->
  Api.isSessionActive
    (Api.storeLogin token token_laravel user expires_in t0 b0) now
  = (now <? t0 + expires_in * 1000 - 60000).
Proof.
  intros Hne Hnow H0 H1 H2 H3.
  destruct (storeLogin_items token token_laravel user expires_in t0 b0)
    as [Ht He].
  rewrite (isSessionActive_stored _ now _ _ Ht He).
  rewrite (proj2 (truthy_true token) Hne).
  rewrite (stored_expiry expires_in t0 H0 H1 H2 H3).
  rewrite (numberToString_safe _ H3), integerToString_truthy.
  rewrite <- (numberToString_safe _ H3), (parseInt_numberToString _ H3).
  now rewrite (lt_expiry now _ Hnow).
Qed.

End SessionCheck.

(** C10. [isSessionActive] answers true exactly when a token and an expiry
    are stored, neither of them the empty string, and the current time is
    less than the expiry read by [parseInt] minus 60000, in the arithmetic
    of Numbers. A time is below 2^53 in magnitude, and then this is the
    comparison of integers [now < expiry - 60000], where an expiry too large
    for a double counts as infinite. So during the last minute before the
    stored expiry the session is reported inactive, and this holds in
    particular for the expiry a login stores, which is
    [t0 + expires_in * 1000] as long as these numbers stay below 2^53. *)
Theorem session_active_iff (b : Api.Browser) (now : Z) :
  (Api.isSessionActive b now = true
   <-> exists token expiry,
         Api.getItem "jwt_token" b = Some token /\ token <> ""
         /\ Api.getItem "token_expiry" b = Some expiry /\ expiry <> ""
         /\ JS.lt (JS.toNumber now)
              (JS.sub (JS.parseInt expiry) (JS.toNumber 60000)) = true)
  /\ ((Z.abs now < JS.two53)%Z ->
      (Api.isSessionActive b now = true
       <-> exists token expiry,
             Api.getItem "jwt_token" b = Some token /\ token <> ""
             /\ Api.getItem "token_expiry" b = Some expiry /\ expiry <> ""
             /\ (JS.parseInt expiry = JS.Infinity false
                 \/ exists expiryTime,
                      JS.parseInt expiry = JS.Finite expiryTime
                      /\ (now < expiryTime - 60000)%Z))
      /\ (forall token expiry expiryTime,
            Api.getItem "jwt_token" b = Some token ->
            Api.getItem "token_expiry" b = Some expiry ->
            JS.parseInt expiry = JS.Finite expiryTime ->
            (expiryTime - 60000 <= now < expiryTime)%Z ->
            Api.isSessionActive b now = false)
      /\ (forall token token_laravel user expires_in t0 b0,
            token <> "" ->
            (Z.abs t0 < JS.two53)%Z ->
            (Z.abs expires_in < JS.two53)%Z ->
            (Z.abs (expires_in * 1000) < JS.two53)%Z ->
            (Z.abs (t0 + expires_in * 1000) < JS.two53)%Z ->
            b = Api.storeLogin token token_laravel user expires_in t0 b0 ->
            (Api.isSessionActive b now = true
             <-> (now < t0 + expires_in * 1000 - 60000)%Z)
            /\ ((t0 + expires_in * 1000 - 60000 <= now
                 < t0 + expires_in * 1000)%Z ->
                Api.isSessionActive b now = false))).
Proof.
  assert (Hiff : Api.isSessionActive b now = true
            <-> exists token expiry,
                  Api.getItem "jwt_token" b = Some token /\ token <> ""
                  /\ Api.getItem "token_expiry" b = Some expiry
                  /\ expiry <> ""
                  /\ JS.lt (JS.toNumber now)
                       (JS.sub (JS.parseInt expiry) (JS.toNumber 60000))
                     = true).
  { split.
    - intros H. unfold Api.isSessionActive in H.
      destruct (Api.getItem "jwt_token" b) as [token|] eqn:Ht;
        [|discriminate].
      destruct (Api.getItem "token_expiry" b) as [expiry|] eqn:He;
        [|cbn in H; now rewrite orb_true_r in H].
      cbn [JS.truthy_opt] in H.
      destruct (JS.truthy token) eqn:Htt; [|discriminate].
      destruct (JS.truthy expiry) eqn:Het; [|discriminate].
      exists token, expiry. cbn in H.
      split; [reflexivity|]. split; [now apply truthy_true|].
      split; [reflexivity|]. split; [now apply truthy_true|exact H].
    - intros (token & expiry & Ht & Hne & He & Hne' & H).
      rewrite (isSessionActive_stored b now _ _ Ht He).
      rewrite (proj2 (truthy_true token) Hne).
      now rewrite (proj2 (truthy_true expiry) Hne'). }
  split; [exact Hiff|]. intros Hnow. split; [|split].
  - rewrite Hiff. split.
    + intros (token & expiry & Ht & Hne & He & Hne' & H).
      exists token, expiry. repeat (split; [assumption|]).
      rewrite (lt_expiry now _ Hnow) in H.
      destruct (JS.parseInt expiry) as [n|[|]|]; try discriminate.
      * right. exists n. split; [reflexivity|]. now apply Z.ltb_lt.
      * now left.
    + intros (token & expiry & Ht & Hne & He & Hne' & H).
      exists token, expiry. repeat (split; [assumption|]).
      rewrite (lt_expiry now _ Hnow).
      destruct H as [-> | (n & -> & Hlt)];
        [reflexivity | now apply Z.ltb_lt].
  - intros token expiry expiryTime Ht He Hp Hlast.
    rewrite (isSessionActive_stored b now _ _ Ht He).
    rewrite (lt_expiry now _ Hnow), Hp.
    rewrite (proj2 (Z.ltb_ge _ _)) by lia. now rewrite andb_false_r.
  - intros token token_laravel user expires_in t0 b0 Hne H0 H1 H2 H3 ->.
    rewrite (isSessionActive_after_login _ _ _ _ _ _ _ Hne Hnow H0 H1 H2 H3).
    split; [apply Z.ltb_lt|]. intros Hlast. apply Z.ltb_ge. lia.
Qed.

(** C10 one minute and a half, and half a minute, before an expiry of
    1700000000000, and for an expiry stored with a no-break space in
    front. *)
Lemma session_active_iff_witness :
  (Z.abs 1699999910000 < JS.two53)%Z
  /\ Api.isSessionActive
       (Api.setItem "token_expiry" "1700000000000"
          (Api.setItem "jwt_token" "JWT" freshBrowser)) 1699999910000
     = true
  /\ Api.isSessionActive
       (Api.setItem "token_expiry" "1700000000000"
          (Api.setItem "jwt_token" "JWT" freshBrowser)) 1699999970000
     = false
  /\ Api.isSessionActive
       (Api.setItem "token_expiry" " 1700000000000"
          (Api.setItem "jwt_token" "JWT" freshBrowser)) 1699999910000
     = true.
Proof.
  split; [reflexivity|]. split; [|split].
  - apply (proj2 (session_active_iff _ 1699999910000)). reflexivity.
    exists "JWT", "1700000000000". repeat split; try discriminate.
    right. exists 1700000000000%Z. split; reflexivity.
  - reflexivity.
  - reflexivity.
Defined.

(** A login whose [expires_in] is 10^18 seconds stores the text [1e+21],
    which is read back as 1: the session is inactive at once, although the
    time is far from [t0 + expires_in * 1000 - 60000]. *)
Example session_with_huge_lifetime :
  Api.getItem "token_expiry"
    (Api.storeLogin "JWT" "LARAVEL" "{}" (10 ^ 18) 0 freshBrowser)
  = Some "1e+21"
  /\ Api.isSessionActive
       (Api.storeLogin "JWT" "LARAVEL" "{}" (10 ^ 18) 0 freshBrowser) 1000
     = false.
Proof. split; vm_compute; reflexivity. Qed.

(** ** The size of a crop *)

Section CropSize.

Import CropGeometry.

Local Open Scope Z_scope.




End CropSize.




Example crop_size_example :
  CropGeometry.cropSize hdImage selection = (301, 150)%Z.
Proof. vm_compute. reflexivity. Qed.

(** The products are products of doubles: 49 times the double nearest to
    1/49 is below 1, so an image one pixel wide shown 49 pixels wide and
    selected whole is cropped to width 0. *)
Example crop_size_rounding :
  CropGeometry.cropSize
    {| CropGeometry.naturalWidth := 1; CropGeometry.naturalHeight := 1;
       CropGeometry.width := 49; CropGeometry.height := 49 |}
    {| CropGeometry.rect_x := 0; CropGeometry.rect_y := 0;
       CropGeometry.rect_width := 49; CropGeometry.rect_height := 49 |}%float
  = (0, 0)%Z.
Proof. vm_compute. reflexivity. Qed.

(** ** The steps of the wizard on the screen *)

Section OnScreen.

Import App.

Local Open Scope Z_scope.

Implicit Types (st : State) (b : Api.Browser) (ev : Session.Event).

Import Screen.

Lemma initial_sound : sound initial.
Proof.
  unfold sound, Screen.emptyOrImage. cbn.
  repeat split; auto; try lia; intros; try lia; discriminate.
Qed.

Lemma adopt_sound src st :
  JS.isDataUrlImage src = true -> sound st -> sound (adopt src st).
Proof.
  intros Hv _. unfold sound, Screen.emptyOrImage. cbn.
  repeat split; auto; lia.
Qed.

Lemma truthy_image (s : string) :
  Screen.emptyOrImage s -> JS.truthy s = true -> JS.isDataUrlImage s = true.
Proof. intros [->|H] Ht; [discriminate | exact H]. Qed.

Lemma handleProcessOCR_effect fetch server st b :
  let st' := fst (fst (handleProcessOCR fetch server st b)) in
  (activeStep st' = activeStep st /\ ocrData st' = ocrData st)
  \/ (activeStep st' = 3 /\ ocrData st' <> None
      /\ JS.truthy (imageSrc st) = true).
Proof.
  unfold handleProcessOCR.
  destruct (JS.truthy (imageSrc st)) eqn:Ht; cbn [negb]; [|left; cbn; auto].
  cbn [imageSrc setLoading].
  destruct (fetch (imageSrc st)) as [blob|e]; [|left; cbn; auto].
  destruct (isReverso _);
    match goal with |- context [?f server ?x b] =>
      destruct (f server x b) as [[data|e] b'] end; cbn;
    solve [left; auto | right; repeat split; auto; discriminate].
Qed.

Lemma handleEnhanceImage_frame fetch server reader st b :
  let st' := fst (fst (handleEnhanceImage fetch server reader st b)) in
  activeStep st' = activeStep st /\ ocrData st' = ocrData st
  /\ (enhancedImage st' = enhancedImage st
      \/ JS.isDataUrlImage (enhancedImage st') = true).
Proof.
  unfold handleEnhanceImage.
  destruct (JS.truthy (imageSrc st)); cbn [negb]; [|cbn; auto].
  cbn [imageSrc setEnhancing].
  destruct (fetch (imageSrc st)) as [blob|e]; [|cbn; auto].
  destruct (Api.enhanceImage server (enhanceFile blob) b) as [[data|e] b'];
    [|cbn; auto].
  destruct (reader data) as [enh|]; [|cbn; auto].
  destruct (JS.isDataUrlImage enh) eqn:Hv; cbn; auto.
Qed.

Ltac settle :=
  repeat split; intros;
  try solve [lia | discriminate | auto | tauto | intuition (auto; lia)].

(** An offered event keeps the wizard sound. *)
Lemma apply_sound st b ev :
  sound st -> Screen.offered st ev = true ->
  sound (fst (Session.apply (st, b) ev)).
Proof.
  intros Hs Ho. pose proof Hs as (Hr & Hi & Hor & He & Hen & Hv & Hd).
  destruct ev as [file read|src|img|t|fetch server reader|fetch server
                 |fetch server| | | |k];
    cbn [Session.apply Screen.offered] in *.
  - unfold handleImageSelect.
    destruct (JS.startsWith _ _); cbn [negb fst]; [|exact Hs].
    destruct read as [result| |]; [|exact Hs..].
    destruct (JS.isDataUrlImage result) eqn:E; cbn [negb fst];
      [|exact Hs].
    unfold sound, Screen.emptyOrImage. cbn. settle.
  - unfold handleCameraCapture. destruct src as [src|]; [|exact Hs].
    destruct (JS.isDataUrlImage src) eqn:E; cbn [fst];
      [now apply adopt_sound | exact Hs].
  - apply Z.eqb_eq in Ho. destruct (Hv ltac:(lia)) as (H1 & H2 & H3).
    unfold handleImageEdit. destruct img as [src|]; [|exact Hs].
    destruct (JS.isDataUrlImage src) eqn:E; [|exact Hs].
    unfold sound, Screen.emptyOrImage. cbn. settle.
  - apply Z.eqb_eq in Ho.
    unfold handleSelectImage.
    assert (Hsel : forall slot (ts : list Toast), Screen.emptyOrImage slot ->
              sound (fst (if JS.truthy slot then (setImageSrc slot st, ts)
                          else (st, ts)))).
    { intros slot ts Hslot. destruct (JS.truthy slot) eqn:Ht; [|exact Hs].
      pose proof (truthy_image slot Hslot Ht) as Hvs.
      destruct (Hv ltac:(lia)) as (H1 & H2 & H3).
      unfold sound, Screen.emptyOrImage. cbn. settle. }
    destruct t.
    + apply Hsel. exact Hor.
    + apply Hsel. exact He.
    + destruct (JS.truthy (enhancedImage st)) eqn:Ht.
      * apply Hsel. exact Hen.
      * cbn. exact Hs.
  - pose proof (handleEnhanceImage_slots fetch server reader st b)
      as (H1 & H2 & H3).
    pose proof (handleEnhanceImage_frame fetch server reader st b)
      as (H4 & H5 & H6).
    destruct (handleEnhanceImage fetch server reader st b) as [[st' ts] b'].
    cbn [fst] in *. unfold sound. rewrite H1, H2, H3, H4, H5.
    destruct H6 as [->|H6]; settle.
    right; exact H6.
  - apply Z.eqb_eq in Ho.
    pose proof (handleProcessOCR_images fetch server st b)
      as (H1 & H2 & H3 & H4).
    pose proof (handleProcessOCR_effect fetch server st b) as H5.
    destruct (handleProcessOCR fetch server st b) as [[st' ts] b'].
    cbn [fst] in *. unfold sound. rewrite H1, H2, H3, H4.
    destruct (Hv ltac:(lia)) as (V1 & V2 & V3).
    destruct H5 as [[-> ->]|(-> & Hd' & _)]; settle.
  - apply Z.ltb_lt in Ho. unfold handleNext.
    destruct (Z.eqb_spec (activeStep st) 1) as [E1|E1].
    + destruct (Hv ltac:(lia)) as (V1 & V2 & V3). rewrite V1. cbn [fst].
      unfold sound. cbn. settle.
    + destruct (Z.eqb_spec (activeStep st) 2) as [E2|E2]; [lia|exact Hs].
  - apply Z.eqb_eq in Ho. destruct (Hv ltac:(lia)) as (V1 & V2 & V3).
    unfold handleResetToOriginal.
    replace (JS.truthy (originalImage st)) with true
      by (symmetry; now apply isDataUrlImage_truthy).
    unfold sound, Screen.emptyOrImage. cbn. settle.
  - apply negb_true_iff, Z.eqb_neq in Ho.
    unfold handleBack, sound. cbn. settle; apply Hv; lia.
  - unfold sound, Screen.emptyOrImage. cbn. settle.
  - apply andb_prop in Ho as [Hk0 Hk3].
    apply Z.leb_le in Hk0. apply Z.leb_le in Hk3.
    unfold drawerGoTo.
    destruct (Z.eqb_spec k 0) as [->|Hk].
    + unfold sound. cbn. settle.
    + destruct (Z.ltb_spec (k - 1) (activeStep st)); [|exact Hs].
      unfold sound. cbn. settle; try (apply Hv; lia).
      apply Hd. lia.
Qed.

Lemma run_sound evs st b :
  sound st -> Screen.allOffered evs (st, b) = true ->
  sound (fst (Session.run evs (st, b))).
Proof.
  revert st b. induction evs as [|ev evs IH]; intros st b H Ho; [exact H|].
  cbn [Screen.allOffered fst] in Ho. apply andb_prop in Ho as [Ho1 Ho2].
  cbn [Session.run foldl].
  pose proof (apply_sound st b ev H Ho1) as H'.
  destruct (Session.apply (st, b) ev) as [st' b'] eqn:E.
  apply (IH st' b' H' Ho2).
Qed.

End OnScreen.

(** X4. Whatever sequence of controls offered by the screen is used from
    the start of the wizard (file input at step 0, camera, editor at step 1,
    preview panel and OCR button at step 2, Next below step 2, Back above
    step 0, Reset, the four drawer entries), each handler running to its
    end before the next event, the active step stays one of the four
    screens 0, 1, 2, 3. *)
Theorem active_step_stays_on_a_screen
  (evs : list Session.Event) (b : Api.Browser) :
  Screen.allOffered evs (App.initial, b) = true ->
  (0 <= App.activeStep (fst (Session.run evs (App.initial, b))) <= 3)%Z.
Proof.
  intros Ho. apply (run_sound evs App.initial b initial_sound Ho).
Qed.

Lemma active_step_stays_on_a_screen_witness :
  Screen.allOffered sampleSession (App.initial, freshBrowser) = true
  /\ (0 <= App.activeStep
            (fst (Session.run sampleSession (App.initial, freshBrowser)))
      <= 3)%Z.
Proof.
  split; [reflexivity|].
  apply (active_step_stays_on_a_screen sampleSession freshBrowser).
  reflexivity.
Defined.

(** The Back handler itself has no lower bound: it is the disabled button at
    step 0 that keeps the step from going below the first screen. *)
Example back_at_upload_step :
  App.activeStep (App.handleBack App.initial) = (-1)%Z.
Proof. reflexivity. Qed.

(** ** The wizard with its pending work *)

Section Pending.

Import App.

Implicit Types (st : State) (b : Api.Browser) (mv : Interleaved.Move).

(** Each handler that ends later is its first part followed at once by its
    later parts, run with what the closure of the first part holds. *)
Lemma handleImageSelect_cut file read st :
  handleImageSelect file read st
  = if JS.startsWith (file_type file) "image/"
    then Interleaved.readEnds read (fst (Interleaved.chooseFile file st))
    else Interleaved.chooseFile file st.
Proof.
  unfold handleImageSelect, Interleaved.chooseFile, Interleaved.readEnds.
  destruct (JS.startsWith _ _); cbn [negb fst]; [|reflexivity].
  destruct read as [result| |]; reflexivity.
Qed.

Lemma handleProcessOCR_cut fetch server st b :
  handleProcessOCR fetch server st b
  = if JS.truthy (imageSrc st)
    then Interleaved.processEnds (imageSrc st) (isReverso st) fetch server
           (fst (Interleaved.clickProcess st)) b
    else (Interleaved.clickProcess st, b).
Proof.
  unfold handleProcessOCR, Interleaved.clickProcess,
    Interleaved.processEnds.
  destruct (JS.truthy (imageSrc st)); reflexivity.
Qed.

Lemma handleEnhanceImage_cut fetch server reader st b :
  handleEnhanceImage fetch server reader st b
  = if JS.truthy (imageSrc st)
    then
      match Interleaved.enhanceAnswered (imageSrc st) fetch server
              (fst (Interleaved.clickEnhance st)) b with
      | (st1, _, b', Some data) =>
          (Interleaved.enhanceRead (reader data) st1, b')
      | (st1, toasts, b', None) => (st1, toasts, b')
      end
    else (Interleaved.clickEnhance st, b).
Proof.
  unfold handleEnhanceImage, Interleaved.clickEnhance,
    Interleaved.enhanceAnswered, Interleaved.enhanceRead.
  destruct (JS.truthy (imageSrc st)); cbn [negb fst]; [|reflexivity].
  cbn [imageSrc setEnhancing].
  destruct (fetch (imageSrc st)) as [blob|e]; [|reflexivity].
  destruct (Api.enhanceImage server (enhanceFile blob) b) as [[data|e] b'];
    [|reflexivity].
  destruct (reader data) as [url|]; [|reflexivity].
  destruct (JS.isDataUrlImage url); reflexivity.
Qed.

Lemma handleNext_cut fetch server st b :
  handleNext fetch server st b
  = if (activeStep st =? 2)%Z && JS.truthy (imageSrc st)
    then Interleaved.processEnds (imageSrc st) (isReverso st) fetch server
           (fst (Interleaved.clickNext st)) b
    else (Interleaved.clickNext st, b).
Proof.
  unfold handleNext, Interleaved.clickNext.
  destruct (Z.eqb_spec (activeStep st) 1) as [E1|E1].
  - replace (activeStep st =? 2)%Z with false
      by (symmetry; apply Z.eqb_neq; lia).
    cbn [andb]. destruct (JS.isDataUrlImage _); reflexivity.
  - destruct (activeStep st =? 2)%Z; cbn [andb]; [|reflexivity].
    apply handleProcessOCR_cut.
Qed.

Lemma initial_slots : Screen.slots initial.
Proof. unfold Screen.slots, Screen.emptyOrImage. cbn. auto. Qed.

(** Every move keeps nothing or images in the four slots. *)
Lemma apply_slots st b mv :
  Screen.slots st -> Screen.slots (fst (Interleaved.apply (st, b) mv)).
Proof.
  intros Hs. pose proof Hs as (Hi & Ho & He & Hen).
  assert (Hadopt : forall src, JS.isDataUrlImage src = true ->
            Screen.slots (adopt src st)).
  { intros src Hv. unfold Screen.slots, Screen.emptyOrImage. cbn. auto. }
  destruct mv as [file|read|src|img| |t| |src reverso fetch server
                 | |src fetch server|result| | | |k];
    cbn [Interleaved.apply].
  - unfold Interleaved.chooseFile.
    destruct (JS.startsWith _ _); exact Hs.
  - unfold Interleaved.readEnds.
    destruct read as [result| |]; [|exact Hs..].
    destruct (JS.isDataUrlImage result) eqn:E; cbn [negb fst];
      [now apply Hadopt | exact Hs].
  - unfold handleCameraCapture. destruct src as [src|]; [|exact Hs].
    destruct (JS.isDataUrlImage src) eqn:E; cbn [fst];
      [now apply Hadopt | exact Hs].
  - unfold handleImageEdit. destruct img as [src|]; [|exact Hs].
    destruct (JS.isDataUrlImage src) eqn:E; [|exact Hs].
    unfold Screen.slots, Screen.emptyOrImage. cbn. auto.
  - unfold handleResetToOriginal.
    destruct (JS.truthy (originalImage st)); [|exact Hs].
    unfold Screen.slots. cbn. repeat split; auto. now left.
  - unfold handleSelectImage.
    assert (Hsel : forall slot (ts : list Toast), Screen.emptyOrImage slot ->
              Screen.slots (fst (if JS.truthy slot
                                 then (setImageSrc slot st, ts)
                                 else (st, ts)))).
    { intros slot ts Hslot. destruct (JS.truthy slot); [|exact Hs].
      unfold Screen.slots. cbn. auto. }
    destruct t.
    + apply Hsel. exact Ho.
    + apply Hsel. exact He.
    + destruct (JS.truthy (enhancedImage st)) eqn:Ht.
      * apply Hsel. exact Hen.
      * cbn. exact Hs.
  - unfold Interleaved.clickProcess.
    destruct (JS.truthy (imageSrc st)); exact Hs.
  - pose proof (processEnds_images src reverso fetch server st b)
      as (H1 & H2 & H3 & H4).
    destruct (Interleaved.processEnds src reverso fetch server st b)
      as [[st' ts] b'].
    cbn [fst] in *. unfold Screen.slots. now rewrite H1, H2, H3, H4.
  - unfold Interleaved.clickEnhance.
    destruct (JS.truthy (imageSrc st)); exact Hs.
  - unfold Interleaved.enhanceAnswered.
    destruct (fetch src) as [blob|e]; [|exact Hs].
    destruct (Api.enhanceImage server (enhanceFile blob) b)
      as [[data|e] b']; exact Hs.
  - unfold Interleaved.enhanceRead. destruct result as [url|]; [|exact Hs].
    destruct (JS.isDataUrlImage url) eqn:E; [|exact Hs].
    unfold Screen.slots. cbn. repeat split; auto. now right.
  - unfold Interleaved.clickNext, Interleaved.clickProcess.
    destruct (activeStep st =? 1)%Z.
    + destruct (JS.isDataUrlImage _); exact Hs.
    + destruct (activeStep st =? 2)%Z; [|exact Hs].
      destruct (JS.truthy (imageSrc st)); exact Hs.
  - exact Hs.
  - unfold Screen.slots, Screen.emptyOrImage. cbn. auto.
  - unfold drawerGoTo. destruct (k =? 0)%Z; [exact Hs|].
    destruct (k - 1 <? activeStep st)%Z; exact Hs.
Qed.

Lemma run_slots moves st b :
  Screen.slots st -> Screen.slots (fst (Interleaved.run moves (st, b))).
Proof.
  revert st b. induction moves as [|mv moves IH]; intros st b H; [exact H|].
  cbn [Interleaved.run foldl].
  pose proof (apply_slots st b mv H) as H'.
  destruct (Interleaved.apply (st, b) mv) as [st' b'] eqn:E.
  apply (IH st' b' H').
Qed.

End Pending.

(** X5. Whatever the handlers called and whatever the order in which the
    pending reads and requests end, each of the four image slots holds
    nothing or the DataURL of an image. *)
Theorem slots_hold_nothing_or_images
  (moves : list Interleaved.Move) (b : Api.Browser) :
  let st := fst (Interleaved.run moves (App.initial, b)) in
  Screen.emptyOrImage (App.imageSrc st)
  /\ Screen.emptyOrImage (App.originalImage st)
  /\ Screen.emptyOrImage (App.editedImage st)
  /\ Screen.emptyOrImage (App.enhancedImage st).
Proof. apply (run_slots moves App.initial b initial_slots). Qed.

(** A later step does not imply an image: the wizard is reset while the
    OCR is pending, the answer arrives, and the results are shown with all
    four slots empty. *)
Example reset_while_ocr_pending :
  let st := fst (Interleaved.run resetWhilePending
                   (App.initial, freshBrowser)) in
  App.activeStep st = 3%Z
  /\ App.imageSrc st = ""
  /\ App.originalImage st = ""
  /\ App.ocrData st = Some "fields of data:image/png;base64,S".
Proof. cbv zeta. repeat split. Qed.

(** ** The results of the OCR *)

Section Results.

Import App Screen.

Local Open Scope Z_scope.

Implicit Types (st : State) (b : Api.Browser) (ev : Session.Event).

Lemma handleProcessOCR_answered fetch server st b :
  let st' := fst (fst (handleProcessOCR fetch server st b)) in
  isReverso st' = isReverso st
  /\ ((activeStep st' = activeStep st /\ ocrData st' = ocrData st)
      \/ (activeStep st' = 3
          /\ exists data blob,
               ocrData st' = Some data
               /\ fetch (imageSrc st) = Resolved blob
               /\ server (ocrRoute st) (ocrFile blob) = Resolved data)).
Proof.
  unfold handleProcessOCR.
  destruct (JS.truthy (imageSrc st)) eqn:Ht; cbn [negb]; [|cbn; auto].
  cbn [imageSrc setLoading].
  destruct (fetch (imageSrc st)) as [blob|e] eqn:Hf; [|cbn; auto].
  unfold ocrRoute, Api.processReverso, Api.processAnverso, Api.post.
  change (isReverso (setLoading true st)) with (isReverso st).
  destruct (isReverso st) eqn:Hrev;
    match goal with |- context [server ?r ?x] =>
      destruct (server r x) as [data|e] eqn:Hs end;
    try (destruct (Api.responseInterceptor _ _) as [e' b']);
    cbn; rewrite ?Hrev; (split; [reflexivity|]);
    solve [left; auto | right; split; auto; exists data, blob; auto].
Qed.

Lemma apply_isReverso st b ev :
  isReverso (fst (Session.apply (st, b) ev)) = isReverso st.
Proof.
  destruct ev as [file read|src|img|t|fetch server reader|fetch server
                 |fetch server| | | |k]; cbn [Session.apply fst].
  - unfold handleImageSelect. destruct (JS.startsWith _ _); [|reflexivity].
    destruct read as [result| |]; try reflexivity.
    now destruct (JS.isDataUrlImage result).
  - unfold handleCameraCapture. destruct src as [src|]; [|reflexivity].
    now destruct (JS.isDataUrlImage src).
  - unfold handleImageEdit. destruct img as [src|]; [|reflexivity].
    now destruct (JS.isDataUrlImage src).
  - unfold handleSelectImage.
    destruct t; [| |destruct (JS.truthy (enhancedImage st))];
      match goal with |- context [JS.truthy ?x] => now destruct (JS.truthy x)
      end.
  - unfold handleEnhanceImage.
    destruct (JS.truthy (imageSrc st)); [|reflexivity]. cbn [negb].
    destruct (fetch _) as [blob|e]; [|reflexivity].
    destruct (Api.enhanceImage _ _ _) as [[data|e] b']; [|reflexivity].
    destruct (reader data) as [url|]; [|reflexivity].
    now destruct (JS.isDataUrlImage url).
  - pose proof (handleProcessOCR_answered fetch server st b) as [H _].
    now destruct (handleProcessOCR fetch server st b) as [[st' ts] b'].
  - unfold handleNext. destruct (activeStep st =? 1).
    + now destruct (JS.isDataUrlImage _).
    + destruct (activeStep st =? 2); [|reflexivity].
      pose proof (handleProcessOCR_answered fetch server st b) as [H _].
      now destruct (handleProcessOCR fetch server st b) as [[st' ts] b'].
  - unfold handleResetToOriginal. now destruct (JS.truthy _).
  - reflexivity.
  - reflexivity.
  - unfold drawerGoTo. destruct (k =? 0); [reflexivity|].
    now destruct (k - 1 <? activeStep st).
Qed.

Lemma run_isReverso evs (s : Session.State) :
  isReverso (fst (Session.run evs s)) = isReverso (fst s).
Proof.
  revert s. induction evs as [|ev evs IH]; intros [st b]; [reflexivity|].
  cbn [Session.run foldl]. fold (Session.run evs (Session.apply (st, b) ev)).
  rewrite IH. apply apply_isReverso.
Qed.

(** Every request of an event goes to [/ocr] or [/enhance] when the reverse
    mode is off. *)
Lemma apply_sent st b ev :
  isReverso st = false ->
  exists new,
    Api.sent (snd (Session.apply (st, b) ev)) = (new ++ Api.sent b)%list
    /\ Forall wizardRoute new.
Proof.
  intros Hrev.
  assert (Hnone : exists new,
            Api.sent b = (new ++ Api.sent b)%list /\ Forall wizardRoute new)
    by (exists []; split; [reflexivity|constructor]).
  assert (Hpost : forall server url file,
            url = "/ocr" \/ url = "/enhance" ->
            exists new,
              Api.sent (snd (Api.post server url file b))
              = (new ++ Api.sent b)%list /\ Forall wizardRoute new).
  { intros server url file Hu. exists [(url, file)]. split.
    - unfold Api.post. destruct (server url file) as [data|e]; [reflexivity|].
      pose proof (interceptor_sent e (Api.send url file b)) as Hsent.
      now destruct (Api.responseInterceptor e (Api.send url file b)).
    - constructor; [exact Hu | constructor]. }
  assert (Hocr : forall fetch server,
            exists new,
              Api.sent (snd (handleProcessOCR fetch server st b))
              = (new ++ Api.sent b)%list /\ Forall wizardRoute new).
  { intros fetch server. unfold handleProcessOCR.
    destruct (JS.truthy (imageSrc st)); cbn [negb]; [|exact Hnone].
    destruct (fetch _) as [blob|e]; [|exact Hnone].
    cbn [isReverso setLoading]. rewrite Hrev.
    destruct (Hpost server "/ocr" (ocrFile blob) (or_introl eq_refl))
      as (new & Hn & Hf).
    exists new. split; [|exact Hf]. unfold Api.processAnverso.
    now destruct (Api.post server "/ocr" (ocrFile blob) b) as [[data|e] b']. }
  destruct ev as [file read|src|img|t|fetch server reader|fetch server
                 |fetch server| | | |k]; cbn [Session.apply snd];
    try exact Hnone.
  - unfold handleEnhanceImage.
    destruct (JS.truthy (imageSrc st)); cbn [negb]; [|exact Hnone].
    destruct (fetch _) as [blob|e]; [|exact Hnone].
    destruct (Hpost server "/enhance" (enhanceFile blob) (or_intror eq_refl))
      as (new & Hn & Hf).
    exists new. split; [|exact Hf]. unfold Api.enhanceImage.
    destruct (Api.post server "/enhance" (enhanceFile blob) b)
      as [[data|e] b']; [|exact Hn].
    destruct (reader data) as [url|]; [|exact Hn].
    now destruct (JS.isDataUrlImage url).
  - destruct (Hocr fetch server) as (new & Hn & Hf). exists new.
    now destruct (handleProcessOCR fetch server st b) as [[st' ts] b'].
  - unfold handleNext. destruct (activeStep st =? 1).
    + now destruct (JS.isDataUrlImage _).
    + destruct (activeStep st =? 2); [|exact Hnone].
      destruct (Hocr fetch server) as (new & Hn & Hf). exists new.
      now destruct (handleProcessOCR fetch server st b) as [[st' ts] b'].
Qed.

Lemma run_sent evs st b :
  isReverso st = false ->
  exists new,
    Api.sent (snd (Session.run evs (st, b))) = (new ++ Api.sent b)%list
    /\ Forall wizardRoute new.
Proof.
  revert st b. induction evs as [|ev evs IH]; intros st b Hrev.
  - exists []. split; [reflexivity|constructor].
  - cbn [Session.run foldl].
    destruct (apply_sent st b ev Hrev) as (new1 & H1 & F1).
    pose proof (apply_isReverso st b ev) as Hrev'.
    destruct (Session.apply (st, b) ev) as [st' b'] eqn:E.
    cbn [fst snd] in *. rewrite Hrev in Hrev'.
    destruct (IH st' b' Hrev') as (new2 & H2 & F2).
    exists (new2 ++ new1)%list. split.
    + unfold Session.run in H2. rewrite H2, H1. now rewrite app_assoc.
    + apply Forall_app. now split.
Qed.

End Results.

(** X6. The answer of the server to an OCR request is written without a
    look at the state it arrives in: whatever the wizard has become since
    the request was made, the answer to the file [ine.jpg] made of the image
    of that moment is stored, the step becomes 3 and [loading] false, and
    the four image slots stay what they have become. *)
Theorem ocr_answer_is_written_unguarded
  (imageSrc : string) (isReverso : bool) (fetch : App.Fetch)
  (server : Api.Server) (st : App.State) (b : Api.Browser)
  (blob data : string) :
  fetch imageSrc = Resolved blob ->
  server (if isReverso then "/ocrreverso" else "/ocr")
    {| file_name := "ine.jpg"; file_type := "image/jpeg";
       file_size := Z.of_nat (String.length blob); file_content := blob |}
  = Resolved data ->
  let st' :=
    fst (fst (Interleaved.processEnds imageSrc isReverso fetch server st b))
  in
  App.activeStep st' = 3%Z
  /\ App.ocrData st' = Some data
  /\ App.loading st' = false
  /\ App.imageSrc st' = App.imageSrc st
  /\ App.originalImage st' = App.originalImage st
  /\ App.editedImage st' = App.editedImage st
  /\ App.enhancedImage st' = App.enhancedImage st.
Proof.
  intros Hf Hs. cbv zeta. unfold Interleaved.processEnds. rewrite Hf.
  unfold Api.processReverso, Api.processAnverso, Api.post.
  change (App.ocrFile blob)
    with {| file_name := "ine.jpg"; file_type := "image/jpeg";
            file_size := Z.of_nat (String.length blob);
            file_content := blob |}.
  destruct isReverso; rewrite Hs; cbn; repeat split.
Qed.

(** X6 on a session in which the edited image is sent to the OCR and the
    original is selected before the answer arrives: the results screen
    shows the original with the fields read from the edited image. *)
Lemma ocr_answer_is_written_unguarded_witness :
  let before :=
    fst (Interleaved.run (removelast pendingSession)
           (App.initial, freshBrowser)) in
  let st := fst (Interleaved.run pendingSession (App.initial, freshBrowser)) in
  App.imageSrc before = "data:image/png;base64,S"
  /\ App.activeStep before = 2%Z
  /\ App.activeStep st = 3%Z
  /\ App.imageSrc st = "data:image/png;base64,S"
  /\ App.ocrData st = Some "fields of data:image/jpeg;base64,D".
Proof.
  cbv zeta.
  split; [reflexivity|]. split; [reflexivity|].
  destruct (ocr_answer_is_written_unguarded "data:image/jpeg;base64,D"
              false fetchDataUrl readingServer
              (fst (Interleaved.run (removelast pendingSession)
                      (App.initial, freshBrowser)))
              freshBrowser "data:image/jpeg;base64,D"
              "fields of data:image/jpeg;base64,D" eq_refl eq_refl)
    as (H3 & Hd & _ & Hi & _).
  split; [exact H3|]. split; [exact Hi | exact Hd].
Defined.

(** X11. The reverse side is never processed: the reverse mode is off at the
    start and no handler turns it on, so whatever the events of a session,
    offered by the screen or not, every request it adds to those already
    sent goes to [/ocr] or to [/enhance], none to [/ocrreverso]. *)
Theorem reverse_endpoint_is_never_called
  (evs : list Session.Event) (b : Api.Browser) :
  App.isReverso (fst (Session.run evs (App.initial, b))) = false
  /\ exists new,
       Api.sent (snd (Session.run evs (App.initial, b)))
       = (new ++ Api.sent b)%list
       /\ Forall Screen.wizardRoute new
       /\ Forall (fun request => fst request <> "/ocrreverso") new.
Proof.
  split.
  - now rewrite run_isReverso.
  - destruct (run_sent evs App.initial b eq_refl) as (new & Hn & Hf).
    exists new. split; [exact Hn|]. split; [exact Hf|].
    eapply Forall_impl; [exact Hf|].
    intros [url file] [H|H]; cbn in *; subst; discriminate.
Qed.

(** ** The source image of a session *)

Section SourceImage.

Import App.

Implicit Types (st : State) (b : Api.Browser) (s : Session.State).

Lemma apply_keeps_original s ev :
  Screen.keepsSource ev = true ->
  originalImage (fst (Session.apply s ev)) = originalImage (fst s).
Proof.
  destruct s as [st b].
  destruct ev as [file read|src|img|t|fetch server reader|fetch server
                 |fetch server| | | |k];
    cbn [Screen.keepsSource Session.apply fst]; intros Hk;
    try discriminate.
  - unfold handleImageEdit. destruct img as [src|]; [|reflexivity].
    now destruct (JS.isDataUrlImage src).
  - unfold handleSelectImage.
    destruct t; [| |destruct (JS.truthy (enhancedImage st))];
      match goal with |- context [JS.truthy ?x] => now destruct (JS.truthy x)
      end.
  - pose proof (handleEnhanceImage_slots fetch server reader st b)
      as (H1 & H2 & H3).
    destruct (handleEnhanceImage fetch server reader st b) as [[st' ts] b'].
    exact H2.
  - pose proof (handleProcessOCR_images fetch server st b)
      as (H1 & H2 & H3 & H4).
    destruct (handleProcessOCR fetch server st b) as [[st' ts] b'].
    exact H2.
  - pose proof (handleNext_images fetch server st b) as (H1 & H2 & H3 & H4).
    destruct (handleNext fetch server st b) as [[st' ts] b'].
    exact H2.
  - unfold handleResetToOriginal.
    now destruct (JS.truthy (originalImage st)).
  - reflexivity.
  - unfold drawerGoTo. destruct (k =? 0)%Z; [reflexivity|].
    now destruct (k - 1 <? activeStep st)%Z.
Qed.

Lemma run_keeps_original evs s :
  forallb Screen.keepsSource evs = true ->
  originalImage (fst (Session.run evs s)) = originalImage (fst s).
Proof.
  revert s. induction evs as [|ev evs IH]; intros s Hk; [reflexivity|].
  cbn [forallb] in Hk. apply andb_prop in Hk as [Hk1 Hk2].
  cbn [Session.run foldl]. fold (Session.run evs (Session.apply s ev)).
  rewrite (IH _ Hk2). now apply apply_keeps_original.
Qed.

End SourceImage.

(** X7. The original image is written only when a new image is adopted (file
    or camera) and on the reset of the wizard: no sequence of edits,
    selections, enhancements, OCR runs, resets to the original and
    navigation, in any state, changes it. *)
Theorem original_image_is_kept
  (evs : list Session.Event) (s : Session.State) :
  forallb Screen.keepsSource evs = true ->
  App.originalImage (fst (Session.run evs s)) = App.originalImage (fst s).
Proof. apply run_keeps_original. Qed.

Lemma original_image_is_kept_witness :
  forallb Screen.keepsSource (editingSession ++ [Session.Reset]) = false
  /\ forallb Screen.keepsSource editingSession = true
  /\ App.originalImage (fst (Session.run editingSession adoptedSession))
     = "data:image/png;base64,S".
Proof.
  split; [reflexivity|]. split; [reflexivity|].
  rewrite (original_image_is_kept editingSession adoptedSession);
    reflexivity.
Defined.

(** X8. After an image was adopted, whatever edits, selections, enhancements,
    OCR runs and navigation followed, "reset to original" makes the current
    and the edited image the adopted image again, empties the enhanced slot,
    and the preview panel classifies the current image as the original; the
    step and the OCR data are not touched. *)
Theorem reset_to_original_restores_adopted_image
  (src : string) (st : App.State) (b : Api.Browser)
  (evs : list Session.Event) :
  JS.truthy src = true ->
  forallb Screen.keepsSource evs = true ->
  let st1 := fst (Session.run evs (App.adopt src st, b)) in
  let st2 := fst (App.handleResetToOriginal st1) in
  App.imageSrc st2 = src /\ App.editedImage st2 = src
  /\ App.originalImage st2 = src /\ App.enhancedImage st2 = ""
  /\ PreviewPanel.getCurrentImageType (PreviewPanel.props st2)
     = PreviewPanel.isOriginal
  /\ App.activeStep st2 = App.activeStep st1
  /\ App.ocrData st2 = App.ocrData st1.
Proof.
  intros Ht Hk st1 st2.
  assert (Ho : App.originalImage st1 = src).
  { unfold st1. now rewrite run_keeps_original. }
  unfold st2, App.handleResetToOriginal. rewrite Ho, Ht.
  unfold PreviewPanel.getCurrentImageType. cbn.
  rewrite Ho, String.eqb_refl. repeat split; reflexivity.
Qed.

Lemma reset_to_original_restores_adopted_image_witness :
  App.imageSrc (fst (Session.run editingSession adoptedSession))
  <> "data:image/png;base64,S"
  /\ App.imageSrc
       (fst (App.handleResetToOriginal
               (fst (Session.run editingSession adoptedSession))))
     = "data:image/png;base64,S".
Proof.
  split; [vm_compute; discriminate|].
  apply (reset_to_original_restores_adopted_image
           "data:image/png;base64,S" App.initial freshBrowser editingSession);
    reflexivity.
Defined.

(** ** Enhancing the current image *)

Section Enhance.

Variable fetch : App.Fetch.
Variable server : Api.Server.
Variable reader : App.Reader.
Variable st : App.State.
Variable b : Api.Browser.



(** X10. Without a current image nothing leaves the browser: the OCR
    handler, the enhance handler and Next at the preview step send no
    request and leave the state and the browser as they were, each raising
    one error toast. *)
Theorem no_image_no_request :
  App.imageSrc st = "" ->
  App.handleProcessOCR fetch server st b
  = (st, [App.toast Error "❌ No hay imagen para procesar"], b)
  /\ App.handleEnhanceImage fetch server reader st b
     = (st, [App.toast Error "❌ No hay imagen para mejorar"], b)
  /\ (App.activeStep st = 2%Z ->
      App.handleNext fetch server st b
      = (st, [App.toast Error "❌ No hay imagen para procesar"], b))
  /\ (App.activeStep st = 1%Z ->
      App.handleNext fetch server st b
      = (st, [App.toast Error "❌ No hay una imagen válida para continuar"],
         b)).
Proof.
  intros He.
  assert (Hp : App.handleProcessOCR fetch server st b
               = (st, [App.toast Error "❌ No hay imagen para procesar"], b)).
  { unfold App.handleProcessOCR. now rewrite He. }
  split; [exact Hp|]. split.
  - unfold App.handleEnhanceImage. now rewrite He.
  - unfold App.handleNext. split; intros ->; cbn [Z.eqb Pos.eqb].
    + exact Hp.
    + now rewrite He.
Qed.

End Enhance.


Lemma no_image_no_request_witness :
  App.imageSrc App.initial = ""
  /\ App.handleProcessOCR fetchDataUrl sampleServer App.initial freshBrowser
     = (App.initial, [App.toast Error "❌ No hay imagen para procesar"],
        freshBrowser).
Proof.
  split; [reflexivity|].
  apply (no_image_no_request fetchDataUrl sampleServer readBlob App.initial
           freshBrowser eq_refl).
Defined.

(** ** Sessions: login, logout and the guarded route *)

Section Sessions.

Implicit Types (b : Api.Browser) (e : Api.AxiosError) (now : Z).

Lemma isSessionActive_no_token b now :
  Api.getItem "jwt_token" b = None -> Api.isSessionActive b now = false.
Proof. intros H. unfold Api.isSessionActive. now rewrite H. Qed.

Lemma logout_items b :
  Api.getItem "jwt_token" (Api.logout b) = None
  /\ Api.getItem "laravel_token" (Api.logout b) = None
  /\ Api.getItem "user_data" (Api.logout b) = None
  /\ Api.getItem "token_expiry" (Api.logout b) = None.
Proof.
  unfold Api.logout, Api.getItem, Api.removeItem. cbn [Api.localStorage].
  repeat split; now simplify_map_eq.
Qed.

Lemma logout_other b (k : string) :
  k <> "jwt_token" -> k <> "laravel_token" -> k <> "user_data" ->
  k <> "token_expiry" ->
  Api.getItem k (Api.logout b) = Api.getItem k b.
Proof.
  intros H1 H2 H3 H4.
  unfold Api.logout, Api.getItem, Api.removeItem. cbn [Api.localStorage].
  now rewrite !lookup_delete_ne by congruence.
Qed.

Lemma logout_storeLogin (token token_laravel user : string)
  (expires_in now : Z) b :
  Api.logout (Api.storeLogin token token_laravel user expires_in now b)
  = Api.logout b.
Proof.
  unfold Api.logout, Api.storeLogin, Api.removeItem, Api.setItem.
  cbn [Api.localStorage Api.pathname Api.sent]. f_equal.
  apply map_eq. intros k.
  destruct (decide (k = "token_expiry")) as [->|H1]; [now simplify_map_eq|].
  destruct (decide (k = "user_data")) as [->|H2]; [now simplify_map_eq|].
  destruct (decide (k = "laravel_token")) as [->|H3]; [now simplify_map_eq|].
  destruct (decide (k = "jwt_token")) as [->|H4]; [now simplify_map_eq|].
  now simplify_map_eq.
Qed.

Lemma logout_logout b : Api.logout (Api.logout b) = Api.logout b.
Proof.
  unfold Api.logout, Api.removeItem.
  cbn [Api.localStorage Api.pathname Api.sent]. f_equal.
  apply map_eq. intros k.
  destruct (decide (k = "token_expiry")) as [->|H1]; [now simplify_map_eq|].
  destruct (decide (k = "user_data")) as [->|H2]; [now simplify_map_eq|].
  destruct (decide (k = "laravel_token")) as [->|H3]; [now simplify_map_eq|].
  destruct (decide (k = "jwt_token")) as [->|H4]; [now simplify_map_eq|].
  now simplify_map_eq.
Qed.

(** What the interceptor does to the browser on an answer 401. *)
Lemma interceptor_unauthorized e b :
  Api.isTimeout e = false -> Api.isUnauthorized e = true ->
  let b' := snd (Api.responseInterceptor e b) in
  Api.getItem "jwt_token" b' = None
  /\ Api.getItem "laravel_token" b' = None
  /\ Api.getItem "user_data" b' = None
  /\ Api.getItem "token_expiry" b' = Api.getItem "token_expiry" b
  /\ Api.pathname b' = "/login".
Proof.
  intros Ht Hu. unfold Api.responseInterceptor. rewrite Ht, Hu.
  cbn [snd]. cbn [Api.pathname Api.removeItem].
  destruct (String.eqb_spec (Api.pathname b) "/login") as [Hp|Hp];
    cbn [negb]; unfold Api.getItem, Api.navigate, Api.removeItem;
    cbn [Api.localStorage Api.pathname];
    repeat split; try (now simplify_map_eq).
Qed.

(** The error a caller catches after the interceptor, for a timeout or an
    answer 401: it has no status and no code, and its message names neither
    the network nor the credentials. *)
Lemma intercepted_replaced (f : AuthService.Failure) b :
  Api.isTimeout (AuthService.error f)
  || Api.isUnauthorized (AuthService.error f) = true ->
  let f' := fst (AuthService.intercepted f b) in
  AuthService.loginErrorMessage f' = AuthService.genericLoginError
  /\ Api.isUnauthorized (AuthService.error f') = false.
Proof.
  intros H. unfold AuthService.intercepted, Api.responseInterceptor.
  destruct (Api.isTimeout (AuthService.error f)) eqn:Ht.
  - cbn. split; reflexivity.
  - cbn in H. rewrite H. cbn [orb].
    destruct (negb _); cbn [fst]; split; reflexivity.
Qed.

Lemma intercepted_passed (f : AuthService.Failure) b :
  Api.isTimeout (AuthService.error f) = false ->
  Api.isUnauthorized (AuthService.error f) = false ->
  AuthService.intercepted f b = (f, b).
Proof.
  intros Ht Hu. unfold AuthService.intercepted, Api.responseInterceptor.
  now rewrite Ht, Hu.
Qed.

Lemma intercepted_browser (f : AuthService.Failure) b :
  snd (AuthService.intercepted f b)
  = snd (Api.responseInterceptor (AuthService.error f) b).
Proof.
  unfold AuthService.intercepted.
  destruct (Api.responseInterceptor (AuthService.error f) b) as [e' b'].
  now destruct (_ || _).
Qed.

Lemma interceptor_keeps_expiry e b :
  Api.getItem "token_expiry" (snd (Api.responseInterceptor e b))
  = Api.getItem "token_expiry" b.
Proof.
  unfold Api.responseInterceptor.
  destruct (Api.isTimeout e); [reflexivity|].
  destruct (Api.isUnauthorized e); [|reflexivity].
  cbn [snd]. unfold Api.getItem, Api.navigate, Api.removeItem.
  destruct (negb _); cbn [Api.localStorage]; now simplify_map_eq.
Qed.

End Sessions.

(** X3. An answer 401 that is not classified as a timeout is an error like
    the others for the handler: whatever the state, the image and the
    browser, the step and the stored answer are left as they were and one
    error toast shows the message of the interceptor behind the OCR prefix;
    and the interceptor has removed the stored tokens and left for the
    login page. *)
Theorem unauthorized_leaves_for_login
  (fetch : App.Fetch) (server : Api.Server) (st : App.State)
  (b : Api.Browser) (blob : string) (e : Api.AxiosError) :
  JS.truthy (App.imageSrc st) = true ->
  fetch (App.imageSrc st) = Resolved blob ->
  server (if App.isReverso st then "/ocrreverso" else "/ocr")
    {| file_name := "ine.jpg"; file_type := "image/jpeg";
       file_size := Z.of_nat (String.length blob); file_content := blob |}
  = Rejected e ->
  Api.isTimeout e = false -> Api.isUnauthorized e = true ->
  App.activeStep (fst (fst (App.handleProcessOCR fetch server st b)))
  = App.activeStep st
  /\ App.ocrData (fst (fst (App.handleProcessOCR fetch server st b)))
     = App.ocrData st
  /\ snd (fst (App.handleProcessOCR fetch server st b))
     = [App.toast Error
          (String.append "❌ Error en OCR: "
             (Api.err_message Api.authError))]
  /\ Api.pathname (snd (App.handleProcessOCR fetch server st b)) = "/login"
  /\ Api.getItem "jwt_token" (snd (App.handleProcessOCR fetch server st b))
     = None
  /\ Api.getItem "laravel_token"
       (snd (App.handleProcessOCR fetch server st b)) = None
  /\ Api.getItem "user_data" (snd (App.handleProcessOCR fetch server st b))
     = None.
Proof.
  intros Hi Hf Hs Ht Hu.
  change (if App.isReverso st then "/ocrreverso" else "/ocr")
    with (App.ocrRoute st) in Hs.
  rewrite (handleProcessOCR_fetched fetch server st b Hi blob Hf).
  unfold Api.post. change (App.ocrFile blob)
    with {| file_name := "ine.jpg"; file_type := "image/jpeg";
            file_size := Z.of_nat (String.length blob);
            file_content := blob |}.
  rewrite Hs.
  set (b0 := Api.send _ _ b).
  pose proof (interceptor_unauthorized e b0 Ht Hu) as (H1 & H2 & H3 & _ & H5).
  assert (Hfst : fst (Api.responseInterceptor e b0) = Api.authError).
  { unfold Api.responseInterceptor. now rewrite Ht, Hu. }
  destruct (Api.responseInterceptor e b0) as [e' b1].
  cbn [fst snd] in *. subst e'.
  repeat (split; [first [reflexivity | assumption]|]). exact H3.
Qed.

Lemma unauthorized_leaves_for_login_witness :
  JS.truthy (App.imageSrc previewState) = true
  /\ Api.getItem "jwt_token" (Api.setItem "jwt_token" "t" freshBrowser)
     = Some "t"
  /\ Api.getItem "jwt_token"
       (snd (App.handleProcessOCR fetchDataUrl unauthorizedServer
               previewState (Api.setItem "jwt_token" "t" freshBrowser)))
     = None
  /\ Api.pathname
       (snd (App.handleProcessOCR fetchDataUrl unauthorizedServer
               previewState (Api.setItem "jwt_token" "t" freshBrowser)))
     = "/login".
Proof.
  split; [reflexivity|]. split; [reflexivity|].
  destruct (unauthorized_leaves_for_login fetchDataUrl unauthorizedServer
              previewState (Api.setItem "jwt_token" "t" freshBrowser)
              "data:image/png;base64,S" unauthorized eq_refl eq_refl eq_refl
              eq_refl eq_refl) as (_ & _ & _ & Hp & Hj & _).
  split; [exact Hj | exact Hp].
Defined.

(** X12. Logging out ends the session for good: after [logout] the session
    is inactive at every time, the four keys of the session are gone, every
    other key of the storage, the location and the requests are untouched,
    and what a login stored is removed without trace: logging out after a
    login leaves the same browser as logging out before it. The logout
    button of the application leads to the login page, where the form stays:
    its mount effect finds no session and changes nothing, and the guarded
    route redirects. *)
Theorem logout_ends_session (b : Api.Browser) :
  (forall now, Api.isSessionActive (Api.logout b) now = false)
  /\ (Api.getItem "jwt_token" (Api.logout b) = None
      /\ Api.getItem "laravel_token" (Api.logout b) = None
      /\ Api.getItem "user_data" (Api.logout b) = None
      /\ Api.getItem "token_expiry" (Api.logout b) = None)
  /\ (forall k, k <> "jwt_token" -> k <> "laravel_token" ->
        k <> "user_data" -> k <> "token_expiry" ->
        Api.getItem k (Api.logout b) = Api.getItem k b)
  /\ Api.pathname (Api.logout b) = Api.pathname b
  /\ Api.sent (Api.logout b) = Api.sent b
  /\ Api.logout (Api.logout b) = Api.logout b
  /\ (forall token token_laravel user expires_in now,
        Api.logout (Api.storeLogin token token_laravel user expires_in now b)
        = Api.logout b)
  /\ (Api.pathname (fst (Screen.handleLogout b)) = "/login"
      /\ forall now,
           Login.onMount now (fst (Screen.handleLogout b))
           = fst (Screen.handleLogout b)
           /\ ProtectedRoute.render
                (fst (ProtectedRoute.verifyAuth now
                        (fst (Screen.handleLogout b))))
              = ProtectedRoute.NavigateToLogin).
Proof.
  assert (Hoff : forall now,
            Api.isSessionActive (fst (Screen.handleLogout b)) now = false).
  { intros now. apply isSessionActive_no_token.
    change (Api.getItem "jwt_token" (Api.logout b) = None).
    apply logout_items. }
  split_and!; try apply logout_items.
  - intros now. apply isSessionActive_no_token. apply logout_items.
  - intros k. apply logout_other.
  - reflexivity.
  - reflexivity.
  - apply logout_logout.
  - intros. apply logout_storeLogin.
  - reflexivity.
  - intros now. split.
    + unfold Login.onMount. rewrite Hoff. cbn [Screen.handleLogout fst].
      change (Api.logout (Api.navigate "/login" (Api.logout b)))
        with (Api.navigate "/login" (Api.logout (Api.logout b))).
      now rewrite logout_logout.
    + unfold ProtectedRoute.verifyAuth. now rewrite Hoff.
Qed.

(** X13. An answer 401 to any request ends the session: after the response
    interceptor the three tokens are gone and the location is the login
    page, so the session is inactive at every time. The stored expiry is
    left behind; it is removed by the next check of the session, the mount
    effect of the login form or the guard of the route, which both find no
    session and log out. *)
Theorem unauthorized_answer_ends_session
  (e : Api.AxiosError) (b : Api.Browser) (now : Z) :
  Api.isTimeout e = false -> Api.isUnauthorized e = true ->
  let b' := snd (Api.responseInterceptor e b) in
  Api.isSessionActive b' now = false
  /\ Api.pathname b' = "/login"
  /\ Api.getItem "token_expiry" b' = Api.getItem "token_expiry" b
  /\ Login.onMount now b' = Api.logout b'
  /\ Api.getItem "token_expiry" (Login.onMount now b') = None
  /\ ProtectedRoute.render (fst (ProtectedRoute.verifyAuth now b'))
     = ProtectedRoute.NavigateToLogin
  /\ Api.getItem "token_expiry" (snd (ProtectedRoute.verifyAuth now b'))
     = None.
Proof.
  intros Ht Hu b'.
  destruct (interceptor_unauthorized e b Ht Hu) as (H1 & _ & _ & H4 & H5).
  fold b' in H1, H4, H5.
  pose proof (isSessionActive_no_token b' now H1) as Hs.
  split; [exact Hs|]. split; [exact H5|]. split; [exact H4|].
  unfold Login.onMount, ProtectedRoute.verifyAuth. rewrite Hs. cbn [fst snd].
  split; [reflexivity|]. split; [apply logout_items|].
  split; [reflexivity | apply logout_items].
Qed.

Lemma unauthorized_answer_ends_session_witness :
  Api.isSessionActive loggedInBrowser 2000 = true
  /\ Api.isSessionActive
       (snd (Api.responseInterceptor unauthorized loggedInBrowser)) 2000
     = false
  /\ Api.getItem "token_expiry"
       (snd (Api.responseInterceptor unauthorized loggedInBrowser))
     = Some "3601000".
Proof.
  split; [reflexivity|].
  destruct (unauthorized_answer_ends_session unauthorized loggedInBrowser
              2000 eq_refl eq_refl) as (H1 & _ & H3 & _).
  split; [exact H1|]. rewrite H3. reflexivity.
Defined.

(** X14. The guard of the route decides by [isSessionActive] alone: after
    its check it never shows the loading screen again, it renders the
    application exactly when the session is active at that time, leaving
    the browser as it is, and otherwise it sends the user to the login page
    with the four keys of the session removed, so that every later check,
    by the route or by the login form, finds no session. *)
Theorem route_guard (now : Z) (b : Api.Browser) :
  ProtectedRoute.render ProtectedRoute.initial = ProtectedRoute.Loading
  /\ ProtectedRoute.render (fst (ProtectedRoute.verifyAuth now b))
     <> ProtectedRoute.Loading
  /\ (ProtectedRoute.render (fst (ProtectedRoute.verifyAuth now b))
      = ProtectedRoute.Children
      <-> Api.isSessionActive b now = true)
  /\ (Api.isSessionActive b now = true ->
      snd (ProtectedRoute.verifyAuth now b) = b)
  /\ (Api.isSessionActive b now = false ->
      ProtectedRoute.render (fst (ProtectedRoute.verifyAuth now b))
      = ProtectedRoute.NavigateToLogin
      /\ snd (ProtectedRoute.verifyAuth now b) = Api.logout b
      /\ forall later,
           ProtectedRoute.render
             (fst (ProtectedRoute.verifyAuth later
                     (snd (ProtectedRoute.verifyAuth now b))))
           = ProtectedRoute.NavigateToLogin
           /\ Login.onMount later (snd (ProtectedRoute.verifyAuth now b))
              = Api.logout b).
Proof.
  unfold ProtectedRoute.verifyAuth.
  destruct (Api.isSessionActive b now) eqn:Hs; cbn [fst snd].
  - split; [reflexivity|]. split; [discriminate|].
    split; [split; reflexivity|]. split; [reflexivity|discriminate].
  - split; [reflexivity|]. split; [discriminate|].
    split; [split; discriminate|]. split; [discriminate|].
    intros _. split; [reflexivity|]. split; [reflexivity|].
    intros later.
    assert (Hl : Api.isSessionActive (Api.logout b) later = false)
      by (apply isSessionActive_no_token, logout_items).
    unfold Login.onMount. rewrite Hl. cbn [fst].
    split; [reflexivity | apply logout_logout].
Qed.

(** ** Logging in *)

Section LoggingIn.

Variable server : AuthService.AuthServer.
Variable now : Z.
Variable b : Api.Browser.

Lemma login_rejected username password f :
  server username password = Rejected f ->
  AuthService.login server username password now b
  = (Rejected (AuthService.loginErrorMessage
                 (fst (AuthService.intercepted f b))),
     snd (AuthService.intercepted f b)).
Proof.
  intros Hs. unfold AuthService.login. rewrite Hs.
  now destruct (AuthService.intercepted f b).
Qed.

Lemma isBlank_filled (st : Login.State) :
  JS.trim (Login.username st) <> "" ->
  JS.trim (Login.password st) <> "" ->
  negb (JS.truthy (JS.trim (Login.username st)))
  || negb (JS.truthy (JS.trim (Login.password st))) = false.
Proof.
  intros Hu Hp.
  now rewrite (proj2 (truthy_true _) Hu), (proj2 (truthy_true _) Hp).
Qed.

End LoggingIn.

(** X15. What [authService.login] throws when the request is rejected. The
    response interceptor runs before the [catch] block of [login], so for a
    timeout and for an answer 401 the block sees an error without status
    and code and throws the generic "Error al iniciar sesión"; any other
    error gives the connection message when its message names a network
    error, and else the message of the server or the generic one, with the
    browser untouched. The "wrong user or password" message of the block
    is thrown only when the server itself sends that text. *)
Theorem login_failure_message
  (server : AuthService.AuthServer) (username password : string) (now : Z)
  (b : Api.Browser) (f : AuthService.Failure) :
  server username password = Rejected f ->
  let result := AuthService.login server username password now b in
  (Api.isTimeout (AuthService.error f)
   || Api.isUnauthorized (AuthService.error f) = true ->
   fst result = Rejected AuthService.genericLoginError)
  /\ (Api.isTimeout (AuthService.error f) = false ->
      Api.isUnauthorized (AuthService.error f) = false ->
      result = (Rejected (AuthService.loginErrorMessage f), b)
      /\ (JS.includes (Api.ax_message (AuthService.error f)) "Network Error"
          = true ->
          fst result = Rejected AuthService.connectionError))
  /\ (fst result = Rejected AuthService.badCredentials ->
      AuthService.data_message f = Some AuthService.badCredentials).
Proof.
  intros Hs. cbv zeta. rewrite (login_rejected server now b _ _ f Hs).
  cbn [fst snd].
  destruct (Api.isTimeout (AuthService.error f)
            || Api.isUnauthorized (AuthService.error f)) eqn:Hr.
  - destruct (intercepted_replaced f b Hr) as [Hm _]. rewrite Hm.
    split; [reflexivity|]. split.
    + intros Ht Hu. rewrite Ht, Hu in Hr. discriminate.
    + intros [=].
  - apply orb_false_elim in Hr as [Ht Hu].
    rewrite (intercepted_passed f b Ht Hu). cbn [fst snd].
    split; [discriminate|]. split.
    + intros _ _. split; [reflexivity|].
      intros Hn. unfold AuthService.loginErrorMessage. now rewrite Hu, Hn.
    + unfold AuthService.loginErrorMessage. rewrite Hu.
      destruct (_ || _); [intros [=]|].
      destruct (AuthService.data_message f) as [m|]; [|intros [=]].
      destruct (JS.truthy m); [|intros [=]].
      now intros [= ->].
Qed.

Lemma login_failure_message_witness :
  refusingAuthServer "ana" "secret"
  = Rejected {| AuthService.error := unauthorized;
                AuthService.data_message := Some "Unauthorized" |}
  /\ fst (AuthService.login refusingAuthServer "ana" "secret" 1000 loginPage)
     = Rejected "Error al iniciar sesión".
Proof.
  split; [reflexivity|].
  apply (login_failure_message refusingAuthServer "ana" "secret" 1000
           loginPage _ eq_refl).
  reflexivity.
Defined.

(** X16. The login form calls [authService.login] exactly when both fields
    are filled once trimmed, and then once, with the values as typed, not
    trimmed. With a blank field nothing is sent or stored and the form
    shows the request to fill in the fields; after a request has settled
    the form is never left loading and shows exactly one toast. *)
Theorem login_called_iff_filled
  (server : AuthService.AuthServer) (now : Z) (st : Login.State)
  (b : Api.Browser) :
  let blank :=
    String.eqb (JS.trim (Login.username st)) ""
    || String.eqb (JS.trim (Login.password st)) "" in
  let result := Login.handleSubmit server now st b in
  Login.loginCalls result
  = (if blank then [] else [(Login.username st, Login.password st)])
  /\ (blank = true ->
      Login.browser result = b /\ Login.toasts result = []
      /\ Login.form result = Login.setError Login.blankFields st)
  /\ (blank = false ->
      Login.loading (Login.form result) = false
      /\ length (Login.toasts result) = 1%nat).
Proof.
  cbv zeta. unfold Login.handleSubmit, JS.truthy.
  rewrite !negb_involutive.
  destruct (String.eqb _ "" || String.eqb _ "") eqn:Hb.
  - cbn. split; [reflexivity|]. split; [auto|discriminate].
  - split; [|split; [discriminate|intros _]];
      destruct (AuthService.login _ _ _ _ _) as [[data|msg] b']; cbn;
      try reflexivity; try (split; reflexivity);
      destruct (JS.includes msg "incorrectos"); try (split; reflexivity);
      try reflexivity;
      destruct (JS.includes msg "conexión"); try (split; reflexivity);
      reflexivity.
Qed.

(** Blank is blank in Unicode: a user name made of a no-break space and an
    ideographic space is trimmed to nothing, and nothing is sent. *)
Example blank_user_name_is_not_sent :
  let result :=
    Login.handleSubmit acceptingAuthServer 1000
      (Login.handleUsernameChange " 　" filledForm) loginPage in
  Login.loginCalls result = []
  /\ Login.error (Login.form result) = Login.blankFields
  /\ Login.browser result = loginPage.
Proof. cbv zeta. repeat split; vm_compute; reflexivity. Qed.

(** X17. Refused credentials are not reported as such. When the server
    answers a login with 401 (or the request times out), the form with both
    fields filled ends with the error "⚠️ Error al iniciar sesión" and an
    error toast of the same text, not with the message for a wrong user or
    password: the interceptor has replaced the error before [login] can
    look at its status. *)
Theorem refused_login_shows_generic_error
  (server : AuthService.AuthServer) (now : Z) (st : Login.State)
  (b : Api.Browser) (f : AuthService.Failure) :
  JS.trim (Login.username st) <> "" ->
  JS.trim (Login.password st) <> "" ->
  server (Login.username st) (Login.password st) = Rejected f ->
  Api.isTimeout (AuthService.error f)
  || Api.isUnauthorized (AuthService.error f) = true ->
  let result := Login.handleSubmit server now st b in
  Login.error (Login.form result) = "⚠️ Error al iniciar sesión"
  /\ Login.toasts result
     = [{| severity := Error; message := "⚠️ Error al iniciar sesión" |}]
  /\ Login.loading (Login.form result) = false
  /\ Login.browser result
     = snd (Api.responseInterceptor (AuthService.error f) b).
Proof.
  intros Hu Hp Hs Hr. cbv zeta. unfold Login.handleSubmit.
  rewrite (isBlank_filled st Hu Hp).
  rewrite (login_rejected server now b _ _ f Hs).
  destruct (intercepted_replaced f b Hr) as [Hm _]. rewrite Hm.
  rewrite intercepted_browser. cbn. repeat split.
Qed.

Lemma refused_login_shows_generic_error_witness :
  JS.trim (Login.username filledForm) <> ""
  /\ JS.trim (Login.password filledForm) <> ""
  /\ Login.error
       (Login.form (Login.handleSubmit refusingAuthServer 1000 filledForm
                      loginPage))
     = "⚠️ Error al iniciar sesión".
Proof.
  split; [vm_compute; discriminate|]. split; [vm_compute; discriminate|].
  apply (refused_login_shows_generic_error refusingAuthServer 1000
           filledForm loginPage
           {| AuthService.error := unauthorized;
              AuthService.data_message := Some "Unauthorized" |}).
  - vm_compute; discriminate.
  - vm_compute; discriminate.
  - reflexivity.
  - reflexivity.
Defined.

(** X18. A login that succeeds opens the guarded route for the lifetime of
    the token. With both fields filled and an answer carrying a token that
    is not empty, the form goes to the application, the guard of the route
    renders it at every time before one minute to the expiry
    [t0 + expires_in * 1000] and sends the user back to the login page
    from then on (for times, seconds and milliseconds below 2^53, where the
    arithmetic of Numbers is that of integers), and requests to the OCR
    routes carry the token as bearer. With an empty token the form reports
    success all the same, but the guard sends the user back to the login
    page at once. *)
Theorem login_opens_route
  (server : AuthService.AuthServer) (t0 : Z) (st : Login.State)
  (b : Api.Browser) (data : AuthService.LoginData) :
  JS.trim (Login.username st) <> "" ->
  JS.trim (Login.password st) <> "" ->
  server (Login.username st) (Login.password st) = Resolved data ->
  let result := Login.handleSubmit server t0 st b in
  Api.pathname (Login.browser result) = "/"
  /\ Login.toasts result
     = [{| severity := Success; message := "✅ ¡Autenticación exitosa!" |}]
  /\ (AuthService.token data <> "" ->
      (forall now,
         (Z.abs now < JS.two53)%Z -> (Z.abs t0 < JS.two53)%Z ->
         (Z.abs (AuthService.expires_in data) < JS.two53)%Z ->
         (Z.abs (AuthService.expires_in data * 1000) < JS.two53)%Z ->
         (Z.abs (t0 + AuthService.expires_in data * 1000) < JS.two53)%Z ->
         ProtectedRoute.render
           (fst (ProtectedRoute.verifyAuth now (Login.browser result)))
         = (if (now <? t0 + AuthService.expires_in data * 1000 - 60000)%Z
            then ProtectedRoute.Children
            else ProtectedRoute.NavigateToLogin))
      /\ (forall route, route = "/ocr" \/ route = "/ocrreverso" ->
            AuthService.authorization
              (AuthService.requestInterceptor
                 {| AuthService.url := Some route;
                    AuthService.authorization := None |}
                 (Login.browser result))
            = Some (String.append "Bearer " (AuthService.token data))))
  /\ (AuthService.token data = "" ->
      forall now,
        ProtectedRoute.render
          (fst (ProtectedRoute.verifyAuth now (Login.browser result)))
        = ProtectedRoute.NavigateToLogin).
Proof.
  intros Hu Hp Hs. cbv zeta. unfold Login.handleSubmit.
  rewrite (isBlank_filled st Hu Hp). unfold AuthService.login. rewrite Hs.
  cbn [Login.browser Login.toasts].
  set (b1 := Api.storeLogin _ _ _ _ _ _).
  assert (Hnav : forall now, Api.isSessionActive (Api.navigate "/" b1) now
                             = Api.isSessionActive b1 now) by reflexivity.
  destruct (storeLogin_items (AuthService.token data)
              (AuthService.token_laravel data) (AuthService.user data)
              (AuthService.expires_in data) t0 b) as [Htok Hexp].
  fold b1 in Htok, Hexp.
  split; [reflexivity|]. split; [reflexivity|]. split.
  - intros Hne. split.
    + intros now Hnow H0 H1 H2 H3.
      unfold ProtectedRoute.verifyAuth. rewrite Hnav. unfold b1.
      rewrite (isSessionActive_after_login _ _ _ _ _ _ _ Hne Hnow H0 H1 H2
                 H3).
      now destruct (_ <? _)%Z.
    + intros route Hroute. unfold AuthService.requestInterceptor.
      change (Api.getItem "jwt_token" (Api.navigate "/" b1))
        with (Api.getItem "jwt_token" b1).
      rewrite Htok. cbn [AuthService.url].
      rewrite (proj2 (truthy_true _) Hne).
      now destruct Hroute as [-> | ->].
  - intros He now. unfold ProtectedRoute.verifyAuth. rewrite Hnav.
    rewrite (isSessionActive_stored b1 now _ _ Htok Hexp). rewrite He.
    reflexivity.
Qed.

(** X18 on a login at time 1000 with a token of one hour: the route is
    open at time 2000 and closed from one minute to the expiry, at
    3541000. *)
Lemma login_opens_route_witness :
  JS.trim (Login.username filledForm) <> ""
  /\ JS.trim (Login.password filledForm) <> ""
  /\ Api.pathname
       (Login.browser
          (Login.handleSubmit acceptingAuthServer 1000 filledForm loginPage))
     = "/"
  /\ ProtectedRoute.render
       (fst (ProtectedRoute.verifyAuth 2000
               (Login.browser
                  (Login.handleSubmit acceptingAuthServer 1000 filledForm
                     loginPage))))
     = ProtectedRoute.Children
  /\ ProtectedRoute.render
       (fst (ProtectedRoute.verifyAuth 3541000
               (Login.browser
                  (Login.handleSubmit acceptingAuthServer 1000 filledForm
                     loginPage))))
     = ProtectedRoute.NavigateToLogin.
Proof.
  assert (Hu : JS.trim (Login.username filledForm) <> "")
    by (vm_compute; discriminate).
  assert (Hp : JS.trim (Login.password filledForm) <> "")
    by (vm_compute; discriminate).
  split; [exact Hu|]. split; [exact Hp|].
  destruct (login_opens_route acceptingAuthServer 1000 filledForm loginPage
              {| AuthService.token := "JWT";
                 AuthService.token_laravel := "LARAVEL";
                 AuthService.user := "ana";
                 AuthService.expires_in := 3600 |} Hu Hp eq_refl)
    as (Hpath & _ & Hopen & _).
  split; [exact Hpath|].
  assert (Hne : "JWT" <> "") by discriminate.
  destruct (Hopen Hne) as [Hr _].
  split.
  - exact (Hr 2000%Z eq_refl eq_refl eq_refl eq_refl eq_refl).
  - exact (Hr 3541000%Z eq_refl eq_refl eq_refl eq_refl eq_refl).
Defined.

(** X19. The request interceptor attaches the stored token only to the
    routes whose path contains [/ocr]: with a token stored that is not
    empty, requests to [/ocr] and [/ocrreverso] get the header
    [Bearer token]; requests to [/enhance], [/login] and [/verify-token]
    are passed on as they are, whatever is stored, and so is every request
    when no token is stored, in particular after a logout. The path of the
    request is never changed. *)
Theorem request_interceptor_adds_token
  (config : AuthService.Config) (b : Api.Browser) :
  AuthService.url (AuthService.requestInterceptor config b)
  = AuthService.url config
  /\ (forall token route,
        Api.getItem "jwt_token" b = Some token -> token <> "" ->
        route = "/ocr" \/ route = "/ocrreverso" ->
        AuthService.url config = Some route ->
        AuthService.authorization (AuthService.requestInterceptor config b)
        = Some (String.append "Bearer " token))
  /\ (forall route,
        route = "/enhance" \/ route = "/login" \/ route = "/verify-token" ->
        AuthService.url config = Some route ->
        AuthService.requestInterceptor config b = config)
  /\ (Api.getItem "jwt_token" b = None ->
      AuthService.requestInterceptor config b = config)
  /\ AuthService.requestInterceptor config (Api.logout b) = config.
Proof.
  assert (Hnone : forall b0, Api.getItem "jwt_token" b0 = None ->
                    AuthService.requestInterceptor config b0 = config).
  { intros b0 H. unfold AuthService.requestInterceptor. now rewrite H. }
  split_and!.
  - unfold AuthService.requestInterceptor.
    destruct (Api.getItem "jwt_token" b) as [token|]; [|reflexivity].
    destruct (AuthService.url config) as [u|] eqn:Hu; [|exact Hu].
    destruct (_ && _); [reflexivity|exact Hu].
  - intros token route Ht Hne Hroute Hu.
    unfold AuthService.requestInterceptor. rewrite Ht, Hu.
    rewrite (proj2 (truthy_true _) Hne).
    now destruct Hroute as [-> | ->].
  - intros route Hroute Hu. unfold AuthService.requestInterceptor.
    rewrite Hu. destruct (Api.getItem "jwt_token" b) as [token|];
      [|reflexivity].
    destruct Hroute as [-> | [-> | ->]]; now rewrite andb_false_r.
  - apply Hnone.
  - apply Hnone. apply logout_items.
Qed.

(** X20. [verifyToken] sends nothing without a token: with no token stored,
    or an empty one, it throws "No hay token disponible" whatever the
    server would answer and leaves the browser as it is. When the server
    answers 401 the token is removed and the location becomes the login
    page, by the interceptor; the stored expiry is never removed, by no
    outcome, since the clean-up of the [catch] block looks for a status the
    intercepted error no longer has. *)
Theorem verify_token_outcomes
  (server : AuthService.VerifyServer) (b : Api.Browser) :
  Api.getItem "token_expiry" (snd (AuthService.verifyToken server b))
  = Api.getItem "token_expiry" b
  /\ (AuthService.getToken b = None \/ AuthService.getToken b = Some "" ->
      AuthService.verifyToken server b
      = (Rejected AuthService.noTokenError, b))
  /\ (forall token data,
        AuthService.getToken b = Some token -> token <> "" ->
        server (String.append "Bearer " token) = Resolved data ->
        AuthService.verifyToken server b = (Resolved data, b))
  /\ (forall token f,
        AuthService.getToken b = Some token -> token <> "" ->
        server (String.append "Bearer " token) = Rejected f ->
        Api.isTimeout (AuthService.error f) = false ->
        Api.isUnauthorized (AuthService.error f) = true ->
        AuthService.getToken (snd (AuthService.verifyToken server b)) = None
        /\ Api.pathname (snd (AuthService.verifyToken server b)) = "/login").
Proof.
  assert (Hrej : forall token f,
            Api.getItem "jwt_token" b = Some token -> token <> "" ->
            server (String.append "Bearer " token) = Rejected f ->
            snd (AuthService.verifyToken server b)
            = snd (Api.responseInterceptor (AuthService.error f) b)).
  { intros token f Ht Hne Hs. unfold AuthService.verifyToken.
    rewrite Ht, (proj2 (truthy_true _) Hne), Hs.
    rewrite <- intercepted_browser.
    destruct (Api.isTimeout (AuthService.error f)
              || Api.isUnauthorized (AuthService.error f)) eqn:Hr.
    - destruct (intercepted_replaced f b Hr) as [_ Hu].
      destruct (AuthService.intercepted f b) as [f' b']. cbn [fst snd] in *.
      now rewrite Hu.
    - apply orb_false_elim in Hr as [Ht' Hu].
      rewrite (intercepted_passed f b Ht' Hu). cbn [fst snd].
      now rewrite Hu. }
  unfold AuthService.getToken. split; [|split; [|split]].
  - destruct (Api.getItem "jwt_token" b) as [token|] eqn:Ht;
      [|unfold AuthService.verifyToken; now rewrite Ht].
    destruct (String.eqb_spec token "") as [->|Hne];
      [unfold AuthService.verifyToken; now rewrite Ht|].
    destruct (server (String.append "Bearer " token)) as [data|f] eqn:Hs.
    + unfold AuthService.verifyToken.
      now rewrite Ht, (proj2 (truthy_true _) Hne), Hs.
    + rewrite (Hrej token f eq_refl Hne Hs). apply interceptor_keeps_expiry.
  - unfold AuthService.verifyToken. now intros [-> | ->].
  - intros token data Ht Hne Hs. unfold AuthService.verifyToken.
    now rewrite Ht, (proj2 (truthy_true _) Hne), Hs.
  - intros token f Ht Hne Hs Hto Hu. rewrite (Hrej token f Ht Hne Hs).
    destruct (interceptor_unauthorized _ b Hto Hu) as (H1 & _ & _ & _ & H5).
    split; [exact H1 | exact H5].
Qed.

(** ** The controls of the editor *)

Section Controls.

Import EditorControls.

Local Open Scope Z_scope.

Implicit Types (s : State) (o : Op).

Lemma initial_steady imageSrc : steady (initial imageSrc).
Proof.
  unfold steady, initial. cbn. split; [apply reset_wf|].
  split; [reflexivity | congruence].
Qed.

Lemma step_steady s o : steady s -> steady (step s o).
Proof.
  intros Hs. pose proof Hs as (Hw & Hr & Hc).
  destruct o as [| | |c|r|r| | |src|src]; cbn [step].
  - unfold steady, rotateLeft. cbn. split; [exact Hw|]. split; [|exact Hc].
    replace (rotate s - 90) with (rotate s + (-1) * 90) by lia.
    now rewrite Z.mod_add.
  - unfold steady, rotateRight. cbn. split; [exact Hw|]. split; [|exact Hc].
    replace (rotate s + 90) with (rotate s + 1 * 90) by lia.
    now rewrite Z.mod_add.
  - unfold steady, toggleCropping. cbn. split; [exact Hw|].
    split; [exact Hr|]. destruct (isCropping s); [congruence|].
    intros H. specialize (Hc H). discriminate.
  - unfold selectArea. destruct (isCropping s) eqn:E; [|exact Hs].
    unfold steady. cbn. split; [exact Hw|]. split; [exact Hr|reflexivity].
  - unfold applyRotation.
    destruct r as [| |url]; cbn [ImageEditor.applyRotation fst];
      try (exact Hs).
    unfold steady. cbn [images rotate crop isCropping].
    split; [apply commit_wf|]. split; [reflexivity|exact Hc].
  - unfold applyCrop.
    destruct (crop s) as [c|]; cbn [ImageEditor.applyCrop negb];
      [|destruct r; exact Hs].
    destruct r as [| |url]; cbn [fst]; try (exact Hs).
    unfold steady. cbn [images rotate crop isCropping].
    split; [apply commit_wf|]. split; [reflexivity|congruence].
  - unfold undo. pose proof (undo_wf (images s) Hw) as Hw'.
    destruct (ImageEditor.undo (images s)) as [h n].
    destruct (ImageEditor.canUndo (images s)); cbn [fst];
      [|exact Hs].
    unfold steady. cbn [images rotate crop isCropping].
    split; [exact Hw'|]. split; [reflexivity|exact Hc].
  - unfold redo. pose proof (redo_wf (images s) Hw) as Hw'.
    destruct (ImageEditor.redo (images s)) as [h n].
    destruct (ImageEditor.canRedo (images s)); cbn [fst];
      [|exact Hs].
    unfold steady. cbn [images rotate crop isCropping].
    split; [exact Hw'|]. split; [reflexivity|exact Hc].
  - unfold confirmResetAll. cbn. unfold steady. cbn.
    split; [apply reset_wf|]. split; [reflexivity|congruence].
  - unfold reinitialize. destruct (JS.isDataUrlImage src);
      [apply initial_steady | exact Hs].
Qed.

Lemma run_steady ops s : steady s -> steady (run ops s).
Proof.
  revert s. induction ops as [|o ops IH]; intros s H; [exact H|].
  cbn [run foldl]. apply IH. now apply step_steady.
Qed.

End Controls.

(** X21. The rotation of the preview is always a whole number of quarter
    turns, whatever is done to the editor, and it never carries over to
    another image: every operation that changes the history or its cursor
    (a rotation or crop that is applied, undo, redo, reset, a new image from
    the parent) leaves the rotation at 0. *)
Theorem preview_rotation_is_quarter_turns
  (imageSrc : string) (ops : list EditorControls.Op) :
  (EditorControls.rotate
     (EditorControls.run ops (EditorControls.initial imageSrc)) mod 90 = 0)%Z
  /\ forall s o,
       EditorControls.images (EditorControls.step s o)
       <> EditorControls.images s ->
       EditorControls.rotate (EditorControls.step s o) = 0%Z.
Proof.
  split; [apply run_steady, initial_steady|].
  intros s o.
  destruct o as [| | |c|r|r| | |src|src]; cbn [EditorControls.step];
    try (intros H; now contradiction H).
  - unfold EditorControls.selectArea.
    destruct (EditorControls.isCropping s); intros H; now contradiction H.
  - unfold EditorControls.applyRotation.
    destruct r; cbn; intros H; try reflexivity; now contradiction H.
  - unfold EditorControls.applyCrop.
    destruct (EditorControls.crop s), r; cbn; intros H;
      try reflexivity; now contradiction H.
  - unfold EditorControls.undo, ImageEditor.undo.
    destruct (ImageEditor.canUndo _); cbn; intros H;
      [reflexivity | now contradiction H].
  - unfold EditorControls.redo, ImageEditor.redo.
    destruct (ImageEditor.canRedo _); cbn; intros H;
      [reflexivity | now contradiction H].
  - reflexivity.
  - unfold EditorControls.reinitialize.
    destruct (JS.isDataUrlImage src); intros H;
      [reflexivity | now contradiction H].
Qed.

(** X22. An area is selected only in the crop mode (the crop area is
    disabled outside it, leaving the mode forgets the selection, and so does
    every crop that is applied, every reset and every new image). So
    outside the crop mode [applyCrop] never changes the image: it returns at
    once, without touching the history and without calling the parent. *)
Theorem crop_only_in_crop_mode
  (imageSrc : string) (ops : list EditorControls.Op)
  (r : ImageEditor.Render) :
  EditorControls.isCropping
    (EditorControls.run ops (EditorControls.initial imageSrc)) = false ->
  EditorControls.crop
    (EditorControls.run ops (EditorControls.initial imageSrc)) = None
  /\ EditorControls.applyCrop r
       (EditorControls.run ops (EditorControls.initial imageSrc))
     = (EditorControls.run ops (EditorControls.initial imageSrc), []).
Proof.
  intros Hoff.
  destruct (run_steady ops _ (initial_steady imageSrc)) as (_ & _ & Hc).
  assert (Hnone : EditorControls.crop
                    (EditorControls.run ops (EditorControls.initial imageSrc))
                  = None).
  { destruct (EditorControls.crop _) as [c|]; [|reflexivity].
    rewrite Hc in Hoff; [discriminate|congruence]. }
  split; [exact Hnone|].
  unfold EditorControls.applyCrop. rewrite Hnone. cbn.
  now destruct r.
Qed.

Lemma crop_only_in_crop_mode_witness :
  EditorControls.isCropping
    (EditorControls.run
       [EditorControls.ToggleCropping; EditorControls.SelectArea selection;
        EditorControls.ToggleCropping]
       (EditorControls.initial "data:image/png;base64,S")) = false
  /\ EditorControls.crop
       (EditorControls.run
          [EditorControls.ToggleCropping; EditorControls.SelectArea selection;
           EditorControls.ToggleCropping]
          (EditorControls.initial "data:image/png;base64,S")) = None.
Proof.
  split; [reflexivity|].
  apply (crop_only_in_crop_mode "data:image/png;base64,S"
           [EditorControls.ToggleCropping; EditorControls.SelectArea selection;
            EditorControls.ToggleCropping] ImageEditor.Throws).
  reflexivity.
Defined.

(** X23. The undo and redo buttons are enabled exactly when nothing is
    being processed and the handlers will move: in every state the editor
    can reach, the button tests ([historyIndex === 0 || isProcessing],
    [historyIndex === history.length - 1 || isProcessing]) agree with the
    guards of [undo] and [redo] outside processing and disable the buttons
    during it, and a move always hands an image of the history to the
    parent, never [undefined]. *)
Theorem history_buttons_match_guards
  (imageSrc : string) (ops : list EditorControls.Op) (isProcessing : bool) :
  EditorControls.undoEnabled isProcessing
    (EditorControls.images
       (EditorControls.run ops (EditorControls.initial imageSrc)))
  = negb isProcessing
    && ImageEditor.canUndo
         (EditorControls.images
            (EditorControls.run ops (EditorControls.initial imageSrc)))
  /\ EditorControls.redoEnabled isProcessing
       (EditorControls.images
          (EditorControls.run ops (EditorControls.initial imageSrc)))
     = negb isProcessing
       && ImageEditor.canRedo
            (EditorControls.images
               (EditorControls.run ops (EditorControls.initial imageSrc)))
  /\ (forall call,
        call ∈ snd (EditorControls.undo
                      (EditorControls.run ops
                         (EditorControls.initial imageSrc)))
               ++ snd (EditorControls.redo
                         (EditorControls.run ops
                            (EditorControls.initial imageSrc))) ->
        exists img,
          call = ImageEditor.onImageChange (Some img)
          /\ img ∈ ImageEditor.history
                     (EditorControls.images
                        (EditorControls.run ops
                           (EditorControls.initial imageSrc)))).
Proof.
  destruct (run_steady ops _ (initial_steady imageSrc)) as (Hw & _ & _).
  set (s := EditorControls.run ops (EditorControls.initial imageSrc)) in *.
  set (h := EditorControls.images s) in *.
  unfold ImageEditor.wf in Hw.
  split; [|split].
  - unfold EditorControls.undoEnabled, ImageEditor.canUndo.
    destruct (Nat.eqb_spec (ImageEditor.historyIndex h) 0) as [E|E];
      destruct (Nat.ltb_spec 0 (ImageEditor.historyIndex h));
      destruct isProcessing; cbn; try reflexivity; lia.
  - unfold EditorControls.redoEnabled, ImageEditor.canRedo.
    destruct (Z.eqb_spec (Z.of_nat (ImageEditor.historyIndex h))
                (Z.of_nat (length (ImageEditor.history h)) - 1)) as [E|E];
      destruct (Nat.ltb_spec (ImageEditor.historyIndex h)
                  (length (ImageEditor.history h) - 1));
      destruct isProcessing; cbn; try reflexivity; lia.
  - intros call Hin. apply elem_of_app in Hin.
    unfold EditorControls.undo, EditorControls.redo in Hin. fold h in Hin.
    unfold ImageEditor.undo, ImageEditor.redo in Hin.
    destruct Hin as [Hin|Hin].
    + destruct (ImageEditor.canUndo h) eqn:Hu; cbn in Hin;
        [|now apply elem_of_nil in Hin].
      apply list_elem_of_singleton in Hin. subst call.
      destruct (lookup_lt_is_Some_2 (ImageEditor.history h)
                  (ImageEditor.historyIndex h - 1)) as [img Himg]; [lia|].
      exists img. rewrite Himg. split; [reflexivity|].
      now apply list_elem_of_lookup_2 in Himg.
    + destruct (ImageEditor.canRedo h) eqn:Hr; cbn in Hin;
        [|now apply elem_of_nil in Hin].
      apply list_elem_of_singleton in Hin. subst call.
      unfold ImageEditor.canRedo in Hr. apply Nat.ltb_lt in Hr.
      destruct (lookup_lt_is_Some_2 (ImageEditor.history h)
                  (ImageEditor.historyIndex h + 1)) as [img Himg]; [lia|].
      exists img. rewrite Himg. split; [reflexivity|].
      now apply list_elem_of_lookup_2 in Himg.
Qed.

(** ** The wizard while the editor is used *)

Section Editing.

Import Wizard.

Variable seed : string.
Hypothesis seed_is_image : JS.isDataUrlImage seed = true.

Lemma callParent_edited a c :
  Screen.edited seed a -> Screen.edited seed (callParent a c).
Proof.
  intros (img & Hv & ->). destruct c as [[src|]|]; cbn [callParent].
  - unfold App.handleImageEdit.
    destruct (JS.isDataUrlImage src) eqn:E; [|now exists img].
    exists src. split; [exact E | reflexivity].
  - now exists img.
  - exists seed. split; [exact seed_is_image|].
    unfold App.handleResetToOriginal.
    change (App.originalImage (Screen.editing seed img)) with seed.
    now rewrite (isDataUrlImage_truthy seed seed_is_image).
Qed.

Lemma notifyParent_edited n a :
  Screen.edited seed a -> Screen.edited seed (notifyParent n a).
Proof.
  revert a. induction n as [|c n IH]; intros a H; [exact H|].
  cbn [notifyParent foldl]. apply IH. now apply callParent_edited.
Qed.

Lemma step_edited w o :
  Screen.edited seed (app w) -> Screen.edited seed (app (step w o)).
Proof.
  intros H. unfold step, act.
  destruct (handler (App.imageSrc (app w)) o (editor w)) as [e' n].
  cbn [app]. now apply notifyParent_edited.
Qed.

Lemma run_edited ops w :
  Screen.edited seed (app w) -> Screen.edited seed (app (run ops w)).
Proof.
  revert w. induction ops as [|o ops IH]; intros w H; [exact H|].
  cbn [run foldl]. apply IH. now apply step_edited.
Qed.

Lemma seeded_edited : Screen.edited seed (app (seeded seed)).
Proof. exists seed. split; [exact seed_is_image | reflexivity]. Qed.

End Editing.

(** X24. While the editor is used on an adopted image, the wizard only
    mirrors the accepted edits: after any sequence of rotations, crops,
    undos, redos and resets, the original is still the adopted image, the
    edited image is the current image and a DataURL of an image, the step
    is still the editing step, nothing is enhanced, and the image the
    editor shows, whenever it is the DataURL of an image, is the current
    image of the wizard. *)
Theorem wizard_mirrors_editor (seed : string) (ops : list Wizard.Op) :
  JS.isDataUrlImage seed = true ->
  App.originalImage (Wizard.app (Wizard.run ops (Wizard.seeded seed))) = seed
  /\ App.editedImage (Wizard.app (Wizard.run ops (Wizard.seeded seed)))
     = App.imageSrc (Wizard.app (Wizard.run ops (Wizard.seeded seed)))
  /\ JS.isDataUrlImage
       (App.imageSrc (Wizard.app (Wizard.run ops (Wizard.seeded seed))))
     = true
  /\ App.activeStep (Wizard.app (Wizard.run ops (Wizard.seeded seed))) = 1%Z
  /\ App.enhancedImage (Wizard.app (Wizard.run ops (Wizard.seeded seed))) = ""
  /\ exists shown,
       ImageEditor.current
         (Wizard.editor (Wizard.run ops (Wizard.seeded seed))) = Some shown
       /\ (JS.isDataUrlImage shown = true ->
           shown
           = App.imageSrc (Wizard.app (Wizard.run ops (Wizard.seeded seed)))).
Proof.
  intros Hv.
  destruct (run_edited seed Hv ops _ (seeded_edited seed Hv))
    as (img & Hi & Ha).
  destruct (run_coherent ops _ (seeded_coherent seed Hv)) as (Hw & Hh & _).
  rewrite Ha in *. cbn [Screen.editing App.originalImage App.editedImage
    App.imageSrc App.activeStep App.enhancedImage App.setEditedImage
    App.setImageSrc App.adopt] in *.
  split; [reflexivity|]. split; [reflexivity|]. split; [exact Hi|].
  split; [reflexivity|]. split; [reflexivity|].
  destruct (lookup_lt_is_Some_2 _ _ Hw) as [shown Hs].
  exists shown. split; [exact Hs|]. intros Hvs. apply Hh; [|exact Hvs].
  now apply list_elem_of_lookup_2 in Hs.
Qed.

Lemma wizard_mirrors_editor_witness :
  JS.isDataUrlImage "data:image/png;base64,S" = true
  /\ App.originalImage
       (Wizard.app
          (Wizard.run
             [Wizard.Rotation (ImageEditor.Encoded "data:image/jpeg;base64,R");
              Wizard.CropOp true (ImageEditor.Encoded "data:,")]
             (Wizard.seeded "data:image/png;base64,S")))
     = "data:image/png;base64,S".
Proof.
  split; [reflexivity|].
  apply (wizard_mirrors_editor "data:image/png;base64,S"
           [Wizard.Rotation (ImageEditor.Encoded "data:image/jpeg;base64,R");
            Wizard.CropOp true (ImageEditor.Encoded "data:,")]).
  reflexivity.
Defined.

(** X25. "Reset all" undoes everything done in the editor: after any
    sequence of rotations, crops, undos, redos and resets on an adopted
    image, confirming the reset gives back exactly the wizard and the
    editor as they were when the image was adopted, with the one-entry
    history of the adopted image. *)
Theorem reset_all_restores_adopted_state
  (seed : string) (ops : list Wizard.Op) :
  JS.isDataUrlImage seed = true ->
  Wizard.step (Wizard.run ops (Wizard.seeded seed)) Wizard.ResetAll
  = Wizard.seeded seed.
Proof.
  intros Hv.
  destruct (run_edited seed Hv ops _ (seeded_edited seed Hv))
    as (img & Hi & Ha).
  unfold Wizard.step, Wizard.act. cbn [Wizard.handler].
  unfold ImageEditor.confirmResetAll.
  cbn [Wizard.notifyParent foldl Wizard.callParent]. rewrite Ha.
  unfold App.handleResetToOriginal.
  change (App.originalImage (Screen.editing seed img)) with seed.
  rewrite (isDataUrlImage_truthy seed Hv). cbn [fst].
  unfold Wizard.seeded, Wizard.mount, Wizard.effect. f_equal.
  cbn [App.imageSrc Screen.editing App.setEnhancedImage App.setEditedImage
       App.setImageSrc App.adopt].
  destruct (String.eqb_spec img seed) as [->|Hne]; [reflexivity|].
  unfold ImageEditor.reinitialize. now rewrite Hv.
Qed.

Lemma reset_all_restores_adopted_state_witness :
  JS.isDataUrlImage "data:image/png;base64,S" = true
  /\ Wizard.run
       [Wizard.Rotation (ImageEditor.Encoded "data:image/jpeg;base64,R")]
       (Wizard.seeded "data:image/png;base64,S")
     <> Wizard.seeded "data:image/png;base64,S"
  /\ Wizard.step
       (Wizard.run
          [Wizard.Rotation (ImageEditor.Encoded "data:image/jpeg;base64,R")]
          (Wizard.seeded "data:image/png;base64,S"))
       Wizard.ResetAll
     = Wizard.seeded "data:image/png;base64,S".
Proof.
  split; [reflexivity|]. split; [vm_compute; discriminate|].
  apply (reset_all_restores_adopted_state "data:image/png;base64,S"
           [Wizard.Rotation (ImageEditor.Encoded "data:image/jpeg;base64,R")]).
  reflexivity.
Defined.

(** ** Bringing an image into the wizard *)

(** X26. The capture button of the camera does nothing without a frame: the
    dialog stays open and the wizard is untouched. With a frame the dialog
    is always closed; the wizard adopts the frame when it is the DataURL of
    an image, and otherwise keeps its state and shows one error toast. *)
Theorem camera_capture_outcomes
  (screenshot : option string) (w : CameraCapture.Wizard) :
  (screenshot = None \/ screenshot = Some "" ->
   CameraCapture.press screenshot w = w)
  /\ (forall frame, screenshot = Some frame -> frame <> "" ->
      CameraCapture.cameraOpen (CameraCapture.press screenshot w) = false
      /\ (JS.isDataUrlImage frame = true ->
          CameraCapture.app (CameraCapture.press screenshot w)
          = App.adopt frame (CameraCapture.app w)
          /\ existsb is_error
               (CameraCapture.shown (CameraCapture.press screenshot w))
             = existsb is_error (CameraCapture.shown w))
      /\ (JS.isDataUrlImage frame = false ->
          CameraCapture.app (CameraCapture.press screenshot w)
          = CameraCapture.app w
          /\ CameraCapture.shown (CameraCapture.press screenshot w)
             = (CameraCapture.shown w
                ++ [App.toast Error "❌ La foto capturada no es válida"])%list)).
Proof.
  split.
  - intros [-> | ->]; reflexivity.
  - intros frame -> Hne. unfold CameraCapture.press, CameraCapture.capture.
    rewrite (proj2 (truthy_true frame) Hne).
    cbn [foldl CameraCapture.call]. unfold App.handleCameraCapture.
    destruct (JS.isDataUrlImage frame); cbn.
    + split; [reflexivity|]. split; [|discriminate]. intros _.
      split; [reflexivity|].
      rewrite existsb_app. cbn. now rewrite orb_false_r.
    + split; [reflexivity|]. split; [discriminate|]. intros _. now split.
Qed.

(** X27. Of the files dropped on the uploader only the first counts: the
    outcome of a drop is that of choosing the first file alone, whatever
    the others are, and a drop without files does nothing. So the wizard
    gets at most one file per drop, and gets it exactly when the first file
    has an image type and at most 10 MiB. *)
Theorem drop_takes_first_file
  (files : option (list File)) (keep : option File) :
  DropZone.handleDrop files keep
  = ImageUploader.handleFileChange (option_map (take 1) files) keep
  /\ (files = None \/ files = Some [] ->
      DropZone.handleDrop files keep
      = {| ImageUploader.alerts := []; ImageUploader.selectedFile := keep;
           ImageUploader.onImageSelect := [] |})
  /\ (forall file rest, files = Some (file :: rest) ->
      ImageUploader.onImageSelect (DropZone.handleDrop files keep)
      = (if JS.startsWith (file_type file) "image/"
            && (file_size file <=? ImageUploader.maxSize)%Z
         then [file] else [])
      /\ forall read st,
           DropZone.deliver read (DropZone.handleDrop files keep) st
           = (if JS.startsWith (file_type file) "image/"
                 && (file_size file <=? ImageUploader.maxSize)%Z
              then App.handleImageSelect file (read file) st
              else (st, []))).
Proof.
  split; [|split].
  - destruct files as [[|file rest]|]; reflexivity.
  - intros [-> | ->]; reflexivity.
  - intros file rest ->.
    unfold DropZone.deliver, DropZone.handleDrop,
      ImageUploader.handleFileChange.
    destruct (JS.startsWith (file_type file) "image/"); cbn [negb andb];
      [|split; reflexivity].
    rewrite Z.leb_antisym.
    destruct (ImageUploader.maxSize <? file_size file)%Z; cbn [negb];
      [split; reflexivity|].
    split; [reflexivity|]. intros read st. cbn.
    now destruct (App.handleImageSelect file (read file) st).
Qed.

(** X28. However a file read ends, [handleImageSelect] shows exactly one
    toast and never leaves the loading flag set once the read has ended.
    It adopts the result, as the camera handler does for the same DataURL,
    exactly when the file has an image type and the result is the DataURL
    of an image; in every other case the four images, the step and the OCR
    data are what they were. *)
Theorem image_select_outcomes
  (file : File) (read : App.ReadOutcome) (st : App.State) :
  length (snd (App.handleImageSelect file read st)) = 1%nat
  /\ (JS.startsWith (file_type file) "image/" = true ->
      App.isImageLoading (fst (App.handleImageSelect file read st)) = false)
  /\ (forall result,
        JS.startsWith (file_type file) "image/" = true ->
        read = App.Loaded result -> JS.isDataUrlImage result = true ->
        fst (App.handleImageSelect file read st) = App.adopt result st
        /\ fst (App.handleCameraCapture (Some result) st)
           = App.adopt result st)
  /\ ((JS.startsWith (file_type file) "image/" = false
       \/ read = App.ReadError \/ read = App.Aborted
       \/ exists result, read = App.Loaded result
                         /\ JS.isDataUrlImage result = false) ->
      App.imageSrc (fst (App.handleImageSelect file read st))
      = App.imageSrc st
      /\ App.originalImage (fst (App.handleImageSelect file read st))
         = App.originalImage st
      /\ App.editedImage (fst (App.handleImageSelect file read st))
         = App.editedImage st
      /\ App.enhancedImage (fst (App.handleImageSelect file read st))
         = App.enhancedImage st
      /\ App.activeStep (fst (App.handleImageSelect file read st))
         = App.activeStep st
      /\ App.ocrData (fst (App.handleImageSelect file read st))
         = App.ocrData st).
Proof.
  unfold App.handleImageSelect, App.handleCameraCapture.
  destruct (JS.startsWith (file_type file) "image/") eqn:Ht; cbn [negb].
  - split; [|split; [|split]].
    + destruct read as [result| |]; try reflexivity.
      now destruct (JS.isDataUrlImage result).
    + intros _. destruct read as [result| |]; try reflexivity.
      now destruct (JS.isDataUrlImage result).
    + intros result _ -> Hv. rewrite Hv. split; reflexivity.
    + intros [H|[-> | [-> | (result & -> & Hv)]]];
        [discriminate| | |rewrite Hv]; cbn; repeat split.
  - split; [reflexivity|]. split; [discriminate|].
    split; [discriminate|]. intros _. repeat split.
Qed.

Lemma handleSelectImage_state (imageType : App.ImageType) (st : App.State) :
  fst (App.handleSelectImage imageType st)
  = if JS.truthy (Screen.slot imageType st)
    then App.setImageSrc (Screen.slot imageType st) st else st.
Proof.
  unfold App.handleSelectImage. destruct imageType; cbn [Screen.slot].
  - now destruct (JS.truthy (App.originalImage st)).
  - now destruct (JS.truthy (App.editedImage st)).
  - destruct (JS.truthy (App.enhancedImage st)) eqn:E; [now rewrite E|].
    reflexivity.
Qed.

(** X29. Selecting a version never writes a slot, the step or the OCR
    data. If the slot of the version holds an image, that image becomes the
    current one and the preview panel then names the current image (never
    "unknown"; "original" for the original, and also for the edited image
    while nothing was edited); if the slot is empty the state is unchanged.
    Selecting the same version again changes nothing more. *)
Theorem select_version_outcomes
  (imageType : App.ImageType) (st : App.State) :
  (App.originalImage (fst (App.handleSelectImage imageType st))
   = App.originalImage st
   /\ App.editedImage (fst (App.handleSelectImage imageType st))
      = App.editedImage st
   /\ App.enhancedImage (fst (App.handleSelectImage imageType st))
      = App.enhancedImage st
   /\ App.activeStep (fst (App.handleSelectImage imageType st))
      = App.activeStep st
   /\ App.ocrData (fst (App.handleSelectImage imageType st))
      = App.ocrData st)
  /\ (Screen.slot imageType st <> "" ->
      App.imageSrc (fst (App.handleSelectImage imageType st))
      = Screen.slot imageType st
      /\ PreviewPanel.getCurrentImageType
           (PreviewPanel.props (fst (App.handleSelectImage imageType st)))
         <> PreviewPanel.unknown
      /\ (imageType = App.original
          \/ (imageType = App.edited
              /\ App.editedImage st = App.originalImage st) ->
          PreviewPanel.getCurrentImageType
            (PreviewPanel.props (fst (App.handleSelectImage imageType st)))
          = PreviewPanel.isOriginal))
  /\ (Screen.slot imageType st = "" ->
      fst (App.handleSelectImage imageType st) = st)
  /\ fst (App.handleSelectImage imageType
            (fst (App.handleSelectImage imageType st)))
     = fst (App.handleSelectImage imageType st).
Proof.
  rewrite !handleSelectImage_state.
  split; [|split; [|split]].
  - destruct (JS.truthy _); repeat split.
  - intros Hne. rewrite (proj2 (truthy_true _) Hne).
    split; [reflexivity|].
    unfold PreviewPanel.getCurrentImageType. cbn.
    split.
    + destruct imageType; cbn [Screen.slot];
        repeat (rewrite ?String.eqb_refl;
                try match goal with
                    | |- context [String.eqb ?a ?b] =>
                        destruct (String.eqb a b)
                    end); discriminate.
    + intros [-> | [-> He]]; cbn [Screen.slot].
      * now rewrite String.eqb_refl.
      * now rewrite He, String.eqb_refl.
  - intros He. rewrite He. reflexivity.
  - destruct (JS.truthy (Screen.slot imageType st)) eqn:Ht;
      [|now rewrite Ht].
    replace (Screen.slot imageType
               (App.setImageSrc (Screen.slot imageType st) st))
      with (Screen.slot imageType st) by now destruct imageType.
    now rewrite Ht.
Qed.
